(** * bionic_apps: windowing, class balancing, validation, splitting and
      the online loop

    A shallow embedding of
    - [bionic_apps/utils.py] and [sklearn_pipeline_bci/utils.py]
      ([window_data], [_windowed_view], [balance_epoch_nums]),
    - [bionic_apps/validations.py] ([validate_feature_classifier_pair]),
    - [BCISystem.py] ([online_processing]),
    together with the properties the specification states about them.  The
    subject splitter, whose code is not among the sources, is modelled from
    the specification.

    Conventions.  Python integers are [Z].  Where the segmenter turns
    seconds into samples, a Python float is an IEEE double ([spec_float] at
    precision 53): the product [seconds * fs] is the rounded one and [int]
    truncates its exact value.  The clock readings and rates of the online
    loop, which are only subtracted and compared, are exact rationals [Q].
    An exception of the source is a value of [PyError] on the left of a
    sum. *)

From Stdlib Require Import ZArith QArith Qminmax Qround Qabs Lia Ascii SpecFloat.
From stdpp Require Import base decidable option list list_numbers sorting strings gmap.

Open Scope Z_scope.

(** ** Exceptions *)

Inductive PyError : Set :=
  | AssertionError
  | ValueError
  | IndexError
  | KeyError
  | ZeroDivisionError
  | NotImplementedError
  | OverflowError.

Definition result (A : Type) : Type := (PyError + A)%type.
Definition raise {A : Type} (e : PyError) : result A := inl e.
Definition ret {A : Type} (a : A) : result A := inr a.

(** ** Strided arrays

    A numpy array is a window on a flat buffer: an offset, a shape and one
    stride per axis (counted in items, not bytes: the item size is a common
    factor of every stride of one array).  Reading outside the buffer is
    what numpy leaves undefined; it is [None] here. *)

Module Nd.

Definition mem_read {A : Type} (buf : list A) (addr : Z) : option A :=
  if addr <? 0 then None else buf !! Z.to_nat addr.

Record array2 (A : Type) : Type := Array2 {
  buf2 : list A;
  offset2 : Z;
  shape2 : Z * Z;
  strides2 : Z * Z
}.
Arguments Array2 {A} _ _ _ _.
Arguments buf2 {A} _.
Arguments offset2 {A} _.
Arguments shape2 {A} _.
Arguments strides2 {A} _.

Record array3 (A : Type) : Type := Array3 {
  buf3 : list A;
  offset3 : Z;
  shape3 : Z * Z * Z;
  strides3 : Z * Z * Z
}.
Arguments Array3 {A} _ _ _ _.
Arguments buf3 {A} _.
Arguments offset3 {A} _.
Arguments shape3 {A} _.
Arguments strides3 {A} _.

Section Access.
Context {A : Type}.

(** [data.shape[0]], [data.shape[-1]] of a (channels, time) matrix *)
Definition n_channels (d : array2 A) : Z := fst (shape2 d).
Definition n_times (d : array2 A) : Z := snd (shape2 d).

(** [data[c, t]] *)
Definition get2 (d : array2 A) (c t : Z) : option A :=
  mem_read (buf2 d)
    (offset2 d + c * fst (strides2 d) + t * snd (strides2 d)).

(** [view[i, c, j]] *)
Definition get3 (v : array3 A) (i c j : Z) : option A :=
  let '(s0, s1, s2) := strides3 v in
  mem_read (buf3 v) (offset3 v + i * s0 + c * s1 + j * s2).

Definition dim0 (v : array3 A) : Z := fst (fst (shape3 v)).
Definition dim1 (v : array3 A) : Z := snd (fst (shape3 v)).
Definition dim2 (v : array3 A) : Z := snd (shape3 v).

(** Every index inside the shape of [d] falls inside its buffer. *)
Definition in_bounds (d : array2 A) : bool :=
  (0 <=? n_channels d) && (0 <=? n_times d) &&
  forallb (fun c => forallb (fun t => bool_decide (is_Some (get2 d c t)))
                      (seqZ 0 (n_times d)))
          (seqZ 0 (n_channels d)).

(** The C-contiguous matrix that [np.array(rows)] builds from [n_rows]
    rows of [n_cols] items each. *)
Definition of_rows (n_cols : Z) (rows : list (list A)) : array2 A :=
  Array2 (concat rows) 0 (Z.of_nat (length rows), n_cols) (n_cols, 1).

(** Bounds of a slice [lo:hi] along an axis of length [n], as Python
    normalises them (negative bounds count from the end, then both are
    clipped to the axis). *)
Definition norm_index (n k : Z) : Z :=
  if k <? 0 then Z.max (k + n) 0 else Z.min k n.

(** [data[:, lo:hi]] read out item by item *)
Definition slice_cols (d : array2 A) (lo hi : Z) : list (list (option A)) :=
  let lo' := norm_index (n_times d) lo in
  let hi' := norm_index (n_times d) hi in
  (fun c => (fun t => get2 d c t) <$> seqZ lo' (hi' - lo'))
    <$> seqZ 0 (n_channels d).

(** [view[i]] read out item by item *)
Definition window_at (v : array3 A) (i : Z) : list (list (option A)) :=
  (fun c => (fun j => get3 v i c j) <$> seqZ 0 (dim2 v))
    <$> seqZ 0 (dim1 v).

(** [np.lib.stride_tricks.as_strided(data, shape=..., strides=...)]:
    the same buffer under a new shape and new strides; numpy refuses a
    negative dimension with a [ValueError]. *)
Definition as_strided (d : array2 A) (shape strides : Z * Z * Z)
  : result (array3 A) :=
  let '(n0, n1, n2) := shape in
  if (n0 <? 0) || (n1 <? 0) || (n2 <? 0) then raise ValueError
  else ret (Array3 (buf2 d) (offset2 d) shape strides).

(** [data[..., :stop]]: a basic slice of the last axis, a view *)
Definition slice_last (d : array2 A) (stop : Z) : array2 A :=
  Array2 (buf2 d) (offset2 d)
         (n_channels d, norm_index (n_times d) stop) (strides2 d).

(** [np.expand_dims(a, axis=0)]: a new leading axis of length one *)
Definition expand_dims0 (d : array2 A) : array3 A :=
  Array3 (buf2 d) (offset2 d) (1, n_channels d, n_times d)
         (0, fst (strides2 d), snd (strides2 d)).

(** [data[i, :, :]] of an (epochs, channels, time) array, for [i] in
    [range(len(data))]: a view *)
Definition epoch_at (d : array3 A) (i : Z) : array2 A :=
  let '(s0, s1, s2) := strides3 d in
  Array2 (buf3 d) (offset3 d + i * s0) (dim1 d, dim2 d) (s1, s2).
End Access.

(** An array that owns its items: they lie in C order in a buffer of their
    own, so the shape is all there is to know beside them. *)
Record ndarray (X : Type) : Type := NdArray {
  nd_items : list X;
  nd_shape : list Z
}.
Arguments NdArray {X} _ _.
Arguments nd_items {X} _.
Arguments nd_shape {X} _.

(** the position of item [idx] in C order, when [idx] lies inside [shape] *)
Fixpoint flat_index (acc : Z) (shape idx : list Z) : option Z :=
  match shape, idx with
  | [], [] => Some acc
  | n :: shape', i :: idx' =>
      if (0 <=? i) && (i <? n) then flat_index (acc * n + i) shape' idx' else None
  | _, _ => None
  end.

(** [a[idx]] *)
Definition nd_get {X : Type} (a : ndarray X) (idx : list Z) : option X :=
  k ← flat_index 0 (nd_shape a) idx; nd_items a !! Z.to_nat k.

(** [np.array(x)] of an array: a copy.  The items of [x] are read in C
    order; one that lies outside the buffer of [x] is undefined ([None]). *)
Definition np_array {A : Type} (x : array3 A) : ndarray (option A) :=
  let '(n0, n1, n2) := shape3 x in
  NdArray ((fun k => get3 x (k / (n1 * n2)) (k / n2 mod n1) (k mod n2))
             <$> seqZ 0 (n0 * n1 * n2))
          [n0; n1; n2].

(** [np.array(xs)] of a list of arrays: one more leading axis.  Arrays of
    different shapes make numpy (from 1.24 on) raise [ValueError]. *)
Definition np_array_list {X : Type} (xs : list (ndarray X)) : result (ndarray X) :=
  match xs with
  | [] => ret (NdArray [] [0])
  | x :: _ =>
      if forallb (fun y => bool_decide (nd_shape y = nd_shape x)) xs then
        ret (NdArray (concat (nd_items <$> xs)) (Z.of_nat (length xs) :: nd_shape x))
      else raise ValueError
  end.

End Nd.

(** ** Seconds to samples

    A number of Python is an [int] or a [float], the latter an IEEE double. *)

Inductive PyNum : Set :=
  | PyInt (n : Z)
  | PyFloat (x : spec_float).

(** the double nearest to [n / d]: what a decimal literal such as [0.29]
    denotes ([n = 29], [d = 100]) *)
Definition float_lit (n d : Z) : spec_float :=
  SFdiv 53 1024 (binary_normalize 53 1024 n 0 false)
                (binary_normalize 53 1024 d 0 false).

(** [float(n)] as the arithmetic applies it to an [int] operand: the nearest
    double, a tie going to the even one; [OverflowError] beyond the range *)
Definition float_of_int (n : Z) : result spec_float :=
  match binary_normalize 53 1024 n 0 false with
  | S754_infinity _ => raise OverflowError
  | x => ret x
  end.

(** [x * y]: exact on two [int]s, the rounded product of doubles otherwise *)
Definition py_mul (x y : PyNum) : result PyNum :=
  match x, y with
  | PyInt a, PyInt b => ret (PyInt (a * b))
  | PyFloat a, PyFloat b => ret (PyFloat (SFmul 53 1024 a b))
  | PyFloat a, PyInt b =>
      match float_of_int b with
      | inl e => raise e
      | inr b => ret (PyFloat (SFmul 53 1024 a b))
      end
  | PyInt a, PyFloat b =>
      match float_of_int a with
      | inl e => raise e
      | inr a => ret (PyFloat (SFmul 53 1024 a b))
      end
  end.

(** the exact value of a finite double *)
Definition SF2Q (x : spec_float) : Q :=
  match x with
  | S754_finite s m e =>
      ((if s then -1 else 1) * inject_Z (Z.pos m) * (2 ^ e))%Q
  | _ => 0%Q
  end.

(** truncation toward zero *)
Definition py_int (x : Q) : Z := Z.quot (Qnum x) (Z.pos (Qden x)).

(** [int(x)]: an [int] as it is, a finite [float] truncated toward zero;
    [ValueError] for a NaN, [OverflowError] for an infinity *)
Definition py_int_of (x : PyNum) : result Z :=
  match x with
  | PyInt n => ret n
  | PyFloat S754_nan => raise ValueError
  | PyFloat (S754_infinity _) => raise OverflowError
  | PyFloat f => ret (py_int (SF2Q f))
  end.

(** [int(seconds * fs)] *)
Definition to_samples (seconds fs : PyNum) : result Z :=
  match py_mul seconds fs with
  | inl e => raise e
  | inr x => py_int_of x
  end.

(** the exact value of a number that is not a NaN or an infinity *)
Definition value_of (x : PyNum) : Q :=
  match x with
  | PyInt n => inject_Z n
  | PyFloat f => SF2Q f
  end.

(** [n] is [v] cut off toward zero *)
Definition truncation_of (v : Q) (n : Z) : Prop :=
  ((0 <= v -> inject_Z n <= v < inject_Z n + 1) /\
   (v < 0 -> inject_Z n - 1 < v <= inject_Z n))%Q.

(** ** The segmenter *)

Section Windowing.
Context {A : Type}.
Import Nd.

(** [sklearn_pipeline_bci/utils.py], [_windowed_view]: lengths in samples *)
Definition _windowed_view (data : array2 A) (window_length window_step : Z)
  : result (array3 A) :=
  if 0 <? window_step then
    let overlap := window_length - window_step in
    let n_windows := n_times data - overlap in
    if negb (0 <? n_windows) then raise AssertionError
    else
      let new_shape := (n_windows / window_step, n_channels data, window_length) in
      let new_strides := (window_step * snd (strides2 data),
                          fst (strides2 data), snd (strides2 data)) in
      as_strided data new_shape new_strides
  else if window_step =? 0 then
    ret (expand_dims0 (slice_last data window_length))
  else raise ValueError.

(** [bionic_apps/utils.py], [window_data]: lengths in seconds, converted
    first; the rest of its body is that of [_windowed_view]. *)
Definition window_data (data : array2 A) (window_length window_step fs : PyNum)
  : result (array3 A) :=
  match to_samples window_length fs with
  | inl e => raise e
  | inr window_length =>
    match to_samples window_step fs with
    | inl e => raise e
    | inr window_step =>
      if 0 <? window_step then
        let overlap := window_length - window_step in
        let n_windows := n_times data - overlap in
        if negb (0 <? n_windows) then raise AssertionError
        else
          let new_shape := (n_windows / window_step, n_channels data, window_length) in
          let new_strides := (window_step * snd (strides2 data),
                              fst (strides2 data), snd (strides2 data)) in
          as_strided data new_shape new_strides
      else if window_step =? 0 then
        ret (expand_dims0 (slice_last data window_length))
      else raise ValueError
    end
  end.

(** the loop of [window_epochs] over the epoch numbers [nums]:
    [x = window_data(data[i, :, :], ...)] in [bionic_apps/utils.py] and
    [x = _windowed_view(data[i, :, :], int(...), int(...))] in
    [sklearn_pipeline_bci/utils.py], which is the same computation; then
    [windowed_tasks.append(np.array(x))].  The first failure ends the loop. *)
Fixpoint window_epochs_loop (data : array3 A) (window_length window_step fs : PyNum)
    (nums : list Z) : result (list (ndarray (option A))) :=
  match nums with
  | [] => ret []
  | i :: rest =>
      match window_data (epoch_at data i) window_length window_step fs with
      | inl e => raise e
      | inr x =>
          match window_epochs_loop data window_length window_step fs rest with
          | inl e => raise e
          | inr windowed_tasks => ret (np_array x :: windowed_tasks)
          end
      end
  end.

(** [window_epochs] of both files: [data] has shape (epochs, channels,
    time), [len(data)] is its first dimension, and the result is
    [np.array(windowed_tasks)] *)
Definition window_epochs (data : array3 A) (window_length window_step fs : PyNum)
  : result (ndarray (option A)) :=
  match window_epochs_loop data window_length window_step fs (seqZ 0 (dim0 data)) with
  | inl e => raise e
  | inr windowed_tasks => np_array_list windowed_tasks
  end.
End Windowing.

(** ** Class balancing

    [np.random.shuffle] draws from the process-wide generator of numpy.
    The generator is an explicit state that every call receives and hands
    back; [shuffle] is the library call, a parameter of this section. *)

Section Balancing.
Context {G : Type} (shuffle : G -> list nat -> list nat * G).
Context {L : Type} `{EqDecision L} (label_le : relation L) `{!RelDecision label_le}.

(** [np.unique(labels)]: the distinct labels, sorted *)
Definition np_unique (labels : list L) : list L :=
  merge_sort label_le (remove_dups labels).

(** [labels == label] *)
Definition label_mask (labels : list L) (label : L) : list bool :=
  (fun l => bool_decide (l = label)) <$> labels.

(** [np.sum(lab_ind)] *)
Definition np_sum (lab_ind : list bool) : nat :=
  length (filter (fun b => b = true) lab_ind).

(** [np.arange(n)[lab_ind]] *)
Definition arange_at (n : nat) (lab_ind : list bool) : list nat :=
  filter (fun i => lab_ind !! i = Some true) (seq 0 n).

(** first loop: one mask per class, and the smallest class size, starting
    from [len(epochs)] *)
Definition scan_class (labels : list L)
    (acc : list (L * list bool) * nat) (label : L) : list (L * list bool) * nat :=
  let '(class_xs, min_elems) := acc in
  let lab_ind := label_mask labels label in
  (class_xs ++ [(label, lab_ind)],
   if bool_decide (np_sum lab_ind < min_elems)%nat then np_sum lab_ind else min_elems).

Definition scan_classes (n_epochs : nat) (labels : list L)
  : list (L * list bool) * nat :=
  foldl (scan_class labels) ([], n_epochs) (np_unique labels).

(** second loop: the indices kept for each class *)
Definition select_class (n_labels use_elems : nat)
    (acc : list nat * G) (cls : L * list bool) : list nat * G :=
  let '(sel_ind, g) := acc in
  let lab_ind := snd cls in
  let ind := arange_at n_labels lab_ind in
  if bool_decide (use_elems < np_sum lab_ind)%nat then
    let '(ind, g) := shuffle g ind in
    (sel_ind ++ take use_elems ind, g)
  else (sel_ind ++ ind, g).

(** [np.sort(sel_ind)]; an empty Python list becomes an array of floats,
    which cannot index *)
Definition np_sort (sel_ind : list nat) : list nat := merge_sort le sel_ind.

(** [a[sel_ind]] with an integer index array *)
Definition take_indices {X : Type} (a : list X) (sel_ind : list nat) : result (list X) :=
  match sel_ind with
  | [] => raise IndexError
  | _ => match mapM (fun i => a !! i) sel_ind with
         | Some r => ret r
         | None => raise IndexError
         end
  end.

(** the sorted index array the function selects, and the generator after it *)
Definition selected_indices (g : G) (n_epochs : nat) (labels : list L) : list nat * G :=
  let '(class_xs, min_elems) := scan_classes n_epochs labels in
  let use_elems := min_elems in
  let '(sel_ind, g) :=
    foldl (select_class (length labels) use_elems) ([], g) class_xs in
  (np_sort sel_ind, g).

Definition balance_epoch_nums {E Grp : Type} (g : G)
    (epochs : list E) (labels : list L) (groups : option (list Grp))
  : result (list E * list L * option (list Grp)) * G :=
  let '(sel_ind, g) := selected_indices g (length epochs) labels in
  (match take_indices epochs sel_ind with
   | inl e => raise e
   | inr es =>
       match take_indices labels sel_ind with
       | inl e => raise e
       | inr ls =>
           match groups with
           | None => ret (es, ls, None)
           | Some grp =>
               match take_indices grp sel_ind with
               | inl e => raise e
               | inr gs => ret (es, ls, Some gs)
               end
           end
       end
   end, g).

(** number of examples of one class *)
Definition class_count (labels : list L) (label : L) : nat :=
  length (filter (fun l => l = label) labels).

(** what the library promises of [shuffle]: the array is permuted in place *)
Definition shuffle_permutes : Prop :=
  forall g l, fst (shuffle g l) ≡ₚ l.
End Balancing.

(** A generator given by the draws it will produce: [random_interval g m]
    is the next draw reduced to [0..m].  [tape_shuffle] is the loop of
    numpy's legacy [shuffle] on a one-dimensional array,
    [for i in reversed(range(1, n)): j = random_interval(i); x[i], x[j] = x[j], x[i]]. *)

Module Tape.
Definition tape : Type := list nat.

Definition random_interval (g : tape) (m : nat) : nat * tape :=
  match g with
  | [] => (0%nat, [])
  | r :: g' => (r mod S m, g')%nat
  end.

Definition swap (x : list nat) (i j : nat) : list nat :=
  match x !! i, x !! j with
  | Some a, Some b => <[i:=b]> (<[j:=a]> x)
  | _, _ => x
  end.

Fixpoint shuffle_from (i : nat) (g : tape) (x : list nat) : list nat * tape :=
  match i with
  | O => (x, g)
  | S i' =>
      let '(j, g') := random_interval g i in
      shuffle_from i' g' (swap x i j)
  end.

Definition tape_shuffle (g : tape) (x : list nat) : list nat * tape :=
  shuffle_from (length x - 1) g x.
End Tape.

(** ** Feature and classifier compatibility *)

(** [bionic_apps/feature_extraction/__init__.py], [FeatureType] *)
Inductive FeatureType : Set :=
  | RAW
  | USER_PIPELINE
  | HUGINES
  | AVG_FFT_POWER
  | FFT_RANGE
  | MULTI_AVG_FFT_POW.

(** Modelled from the spec: the enumeration [ClassifierType] is declared in
    [bionic_apps/ai/classifier.py], which is not among the sources.  Its two
    members that the sources name are [EEG_NET] (the deep sequence model of
    the specification) and [VOTING_SVM] (the shallow kernel model); any
    further member is an [OTHER_CLASSIFIER]. *)
Inductive ClassifierType : Set :=
  | EEG_NET
  | VOTING_SVM
  | OTHER_CLASSIFIER (name : string).

#[global] Instance FeatureType_eq_dec : EqDecision FeatureType.
Proof. solve_decision. Defined.
#[global] Instance ClassifierType_eq_dec : EqDecision ClassifierType.
Proof. solve_decision. Defined.

(** the frequency-domain features listed at [validations.py], line 9 *)
Definition fft_features : list FeatureType :=
  [AVG_FFT_POWER; FFT_RANGE; MULTI_AVG_FFT_POW].

(** [bionic_apps/validations.py] *)
Definition validate_feature_classifier_pair
    (feature_type : FeatureType) (classifier_type : ClassifierType)
  : result (FeatureType * ClassifierType) :=
  if bool_decide (classifier_type = EEG_NET) then
    let feature_type := RAW in
    ret (feature_type, classifier_type)
  else if bool_decide (classifier_type = VOTING_SVM)
          && bool_decide (feature_type ∈ fft_features) then
    ret (feature_type, classifier_type)
  else raise ValueError.

(** The rule table in the words of the specification: the deep sequence
    model goes with RAW features, the shallow kernel model with the
    frequency-domain features, and nothing else is allowed. *)
Definition spec_rule_table (feature_type : FeatureType) (classifier_type : ClassifierType)
  : bool :=
  match classifier_type with
  | EEG_NET => bool_decide (feature_type = RAW)
  | VOTING_SVM => bool_decide (feature_type ∈ fft_features)
  | OTHER_CLASSIFIER _ => false
  end.

(** ** The online loop of [BCISystem.online_processing] *)

Definition Qltb (x y : Q) : bool := negb (Qle_bool y x).

(** [max(0, x)] of Python: the first argument unless the second is greater *)
Definition py_max0 (x : Q) : Q := if Qltb 0 x then x else 0%Q.

Section Online.
(** What the loop does not compute itself: the window type of the
    acquisition source with its shape, the column average of numpy, the
    fitted classifier and its [predict]. *)
Context {Window Feat Model Pred Label : Type}.
Context (np_shape : Window -> list Z).
Context (avg_column : Window -> Feat).
Context (predict : Model -> Feat -> Pred).

(** One pass through the loop body, as the environment supplies it: the
    two readings of [time.time()], and what [dsp.get_eeg_window] returns. *)
Record Tick : Type := {
  t_loop_start : Q;
  eeg_data : Window;
  eeg_label : option Label;
  t_before_sleep : Q
}.

Record LoopState : Type := {
  y_preds : list Pred;
  y_real : list (option Label);
  label : option Label
}.

(** what one pass did: [continue] at line 117, or a prediction followed by
    [time.sleep] of the given duration *)
Inductive Outcome : Type :=
  | Underrun
  | Emitted (y_pred : Pred) (slept : Q).

Record Params : Type := {
  window_length_s : Q;      (* self._window_length *)
  feature : string;
  get_real_labels : bool;
  fs : Q                    (* dsp.fs *)
}.

(** [sh = np.shape(data)]; [len(sh) < 2 or sh[1] / dsp.fs < self._window_length] *)
Definition too_short (p : Params) (data : Window) : bool :=
  let sh := np_shape data in
  bool_decide (length sh < 2)%nat
  || Qltb (inject_Z (default 0 (sh !! 1%nat)) / fs p) (window_length_s p).

(** lines 107-131 *)
Definition iteration (p : Params) (svm : Model) (sleep_time : Q)
    (st : LoopState) (tk : Tick) : result (LoopState * Outcome) :=
  let t := t_loop_start tk in
  let data := eeg_data tk in
  let label := if get_real_labels p then eeg_label tk else label st in
  if too_short p data then
    ret ({| y_preds := y_preds st; y_real := y_real st; label := label |}, Underrun)
  else if String.eqb (feature p) "avg_column" then
    let data := avg_column data in
    let y_pred := predict svm data in
    let st' := {| y_preds := y_preds st ++ [y_pred];
                  y_real := y_real st ++ [label];
                  label := label |} in
    ret (st', Emitted y_pred (py_max0 (sleep_time - (t_before_sleep tk - t))))
  else raise NotImplementedError.

(** the label variable after line 112 *)
Definition label_after (p : Params) (st : LoopState) (tk : Tick) : option Label :=
  if get_real_labels p then eeg_label tk else label st.

Definition emitted (o : Outcome) : bool :=
  match o with Underrun => false | Emitted _ _ => true end.

(** the passes of the [while] loop over the readings of a finite stretch of
    time, one pass for each; the log of outcomes is kept beside the state *)
Fixpoint online_loop (p : Params) (svm : Model) (sleep_time : Q)
    (st : LoopState) (ticks : list Tick) : result (LoopState * list Outcome) :=
  match ticks with
  | [] => ret (st, [])
  | tk :: rest =>
      match iteration p svm sleep_time st tk with
      | inl e => raise e
      | inr (st', o) =>
          match online_loop p svm sleep_time st' rest with
          | inl e => raise e
          | inr (st'', os) => ret (st'', o :: os)
          end
      end
  end.

Definition initial_state : LoopState :=
  {| y_preds := []; y_real := []; label := None |}.

(** [data_sender is None or data_sender.is_alive()] at the head of pass
    [k]: a data sender is given by the answers of its [is_alive()] *)
Definition goes_on (data_sender : option (nat -> bool)) (k : nat) : bool :=
  match data_sender with
  | None => true
  | Some is_alive => is_alive k
  end.
End Online.

(** how a call stands after a number of steps: it has returned, it has
    raised, or it is still in its loop *)
Inductive Run (R : Type) : Type :=
  | Returned (r : R)
  | Raised (e : PyError)
  | Looping.
Arguments Returned {R} _.
Arguments Raised {R} _.
Arguments Looping {R}.

(** ** The subject-aware splitter *)

Section Splitter.
Context {Subject Sample : Type}.

(** A fold names the units (subjects, or sessions of one subject) on each
    side; the data of a side is the data of its units, each sample paired
    with the unit it comes from. *)
Record Fold : Type := {
  train_units : list Subject;
  test_units : list Subject
}.

Definition side_data (data_of : Subject -> list Sample) (units : list Subject)
  : list (Subject * Sample) :=
  units ≫= (fun s => (fun x => (s, x)) <$> data_of s).

(** Modelled from the spec: [SubjectKFold.split] belongs to the package
    [preprocess], whose splitter is not among the sources.  With an explicit
    fold count the subjects are grouped into buckets, and each bucket in
    turn is the test set, the other buckets the training set. *)
Fixpoint bucket_folds (before : list Subject) (buckets : list (list Subject))
  : list Fold :=
  match buckets with
  | [] => []
  | b :: rest =>
      {| train_units := before ++ concat rest; test_units := b |}
        :: bucket_folds (before ++ b) rest
  end.

(** Modelled from the spec: the default topology of the absent
    [SubjectKFold.split].  There are as many folds as subjects; the test set
    of fold [k] is subject [k], its training set all other subjects. *)
Definition leave_one_subject_out (subjects : list Subject) : list Fold :=
  bucket_folds [] ((fun s => [s]) <$> subjects).

(** Modelled from the spec: the independent-sessions topology of the absent
    splitter, for the sessions of one subject: all sessions but the last
    train, the last one tests. *)
Definition independent_sessions (sessions : list Subject) : option Fold :=
  match last sessions with
  | None => None
  | Some s => Some {| train_units := removelast sessions; test_units := [s] |}
  end.
End Splitter.

Arguments Fold : clear implicits.

(** no unit on both sides of a fold *)
Definition disjoint_sides {Subject : Type} (fold : Fold Subject) : Prop :=
  forall s, s ∈ train_units fold -> s ∉ test_units fold.

(** ** Rounding, in the words of the specification

    [round(x)] to the nearest integer, a tie going to the even neighbour as
    Python's [round] does. *)

Definition spec_round (x : Q) : Z :=
  let f := Qfloor (x + (1#2)) in
  if Qeq_bool (x + (1#2)) (inject_Z f) && Z.odd f then f - 1 else f.

(** ** Inputs of the scenarios *)

(** three channels of 1000 samples *)
Definition scenario_data : Nd.array2 Z :=
  Nd.of_rows 1000 [seqZ 0 1000; seqZ 1000 1000; seqZ 2000 1000].

(** one channel of 100 samples *)
Definition short_data : Nd.array2 Z := Nd.of_rows 100 [seqZ 0 100].

(** a run of the online loop: the shape of the window is the window *)
Definition demo_tick (shape : list Z) (t0 t1 : Q) : Tick (Window := list Z) (Label := nat) :=
  {| t_loop_start := t0; eeg_data := shape; eeg_label := Some 7%nat; t_before_sleep := t1 |}.


Definition demo_ticks : list (Tick (Window := list Z) (Label := nat)) :=
  [ demo_tick [64; 100] 0 (1 # 1000);
    demo_tick [64; 160] (1 # 100) (14 # 1000);
    demo_tick [64; 160] (2 # 100) (28 # 1000) ].

(** three epochs, two of class 1 and one of class 2 *)
Definition demo_epochs : list string := ["a"; "b"; "c"]%string.
Definition demo_labels : list Z := [1; 1; 2].
Definition demo_groups : list nat := [10; 11; 12]%nat.

(** two successive calls of the balancing step on the same input: the
    second starts from the generator the first leaves behind *)
Definition two_runs (g : Tape.tape)
  : result (list string * list Z * option (list nat))
    * result (list string * list Z * option (list nat)) :=
  let '(r1, g1) :=
    balance_epoch_nums Tape.tape_shuffle Z.le g demo_epochs demo_labels None in
  let '(r2, _) :=
    balance_epoch_nums Tape.tape_shuffle Z.le g1 demo_epochs demo_labels None in
  (r1, r2).

(** ** Further functions of [bionic_apps/utils.py] *)

(** [mask_to_ind], line 210: [np.arange(len(mask))[mask]] *)
Definition mask_to_ind (mask : list bool) : list nat :=
  arange_at (length mask) mask.

(** ** The feature extractor of [bionic_apps/feature_extraction/__init__.py] *)

Section FeatureExtraction.
(** what the steps are built from and not looked into: the [info] of an mne
    object, and the keyword arguments handed to [get_multi_fft_transformer] *)
Context {Info Kwargs : Type}.

(** the steps that [get_feature_extractor] can put into a pipeline *)
Inductive Step : Type :=
  | ToMicroVolt                      (* FunctionTransformer(to_micro_volt) *)
  | Passthrough                      (* FunctionTransformer() *)
  | Hugines                          (* get_hugines_transfromer() *)
  | MultiFft (feature_type : FeatureType) (fs : Q) (kwargs : Kwargs)
                                     (* get_multi_fft_transformer(feature_type, fs, **kwargs) *)
  | MneScaler (info : Info)          (* Scaler(info, scalings='mean') *)
  | StandardScaler.                  (* StandardScaler() *)

(** [get_feature_extractor], lines 62-85; the result lists the steps given
    to [make_pipeline].  [fs] is [None] or a number. *)
Definition get_feature_extractor (feature_type : FeatureType) (fs : option Q)
    (scale norm : bool) (info : option Info) (kwargs : Kwargs) : result (list Step) :=
  let pipeline_steps := if scale then [ToMicroVolt] else [] in
  let branch : result (list Step * bool) :=
    if bool_decide (feature_type = RAW) then
      ret (pipeline_steps ++ [Passthrough], bool_decide (is_Some info) && norm)
    else if bool_decide (feature_type = HUGINES) then
      ret (pipeline_steps ++ [Hugines], norm)
    else if bool_decide (feature_type ∈ fft_features) then
      match fs with
      | None => raise AssertionError
      | Some fs => ret (pipeline_steps ++ [MultiFft feature_type fs kwargs], norm)
      end
    else raise NotImplementedError in
  match branch with
  | inl e => raise e
  | inr (pipeline_steps, norm) =>
      if norm then
        let scaler :=
          if bool_decide (feature_type = RAW) then
            match info with
            | Some i => MneScaler i
            | None => StandardScaler   (* not reached: [norm] implies [info] *)
            end
          else StandardScaler in
        ret (pipeline_steps ++ [scaler])
      else ret pipeline_steps
  end.

(** [generate_features], lines 88-97: the extractor is the pipeline of the
    caller for [USER_PIPELINE] (which must be a transformer, here: be
    given), and the built one otherwise; [fit_transform] is the library's. *)
Definition generate_features {X P : Type}
    (fit_transform_user : P -> X -> result X)
    (fit_transform : list Step -> X -> result X)
    (x : X) (fs : option Q) (f_type : FeatureType) (scale norm : bool)
    (info : option Info) (pipeline : option P) (kwargs : Kwargs) : result X :=
  if bool_decide (f_type = USER_PIPELINE) then
    match pipeline with
    | None => raise AssertionError
    | Some feature_ext => fit_transform_user feature_ext x
    end
  else
    match get_feature_extractor f_type fs scale norm info kwargs with
    | inl e => raise e
    | inr feature_ext => fit_transform feature_ext x
    end.

Definition is_scaler (s : Step) : bool :=
  match s with MneScaler _ | StandardScaler => true | _ => false end.

(** the steps that compute the feature proper *)
Definition is_feature_step (s : Step) : bool :=
  match s with Passthrough | Hugines | MultiFft _ _ _ => true | _ => false end.
End FeatureExtraction.

Arguments Step : clear implicits.

(** ** More of [BCISystem.py] *)

(** the databases that [_init_db_processor] knows *)
Inductive Database : Set := PhysionetDb | PilotDb.

(** The preprocessor object, as far as [BCISystem] shapes it: the arguments
    of [OfflineDataPreprocessor(...)] and the database selected by
    [use_physionet()] or [use_pilot()], if any. *)
Record Processor : Type := {
  proc_base_dir : string;
  proc_epoch_tmin : Q;
  proc_epoch_tmax : Q;
  proc_use_drop_subject_list : bool;
  proc_window_length : Q;
  proc_window_step : Q;
  proc_fast_load : bool;
  proc_db : option Database
}.

Record BCISystem : Type := {
  _base_dir : string;
  _window_length : Q;
  _window_step : Q;
  _proc : option Processor
}.

(** [__init__], lines 16-31 *)
Definition BCISystem_init (base_dir : string) (window_length window_step : Q) : BCISystem :=
  {| _base_dir := base_dir; _window_length := window_length;
     _window_step := window_step; _proc := None |}.

Definition set_proc (self : BCISystem) (proc : Processor) : BCISystem :=
  {| _base_dir := _base_dir self; _window_length := _window_length self;
     _window_step := _window_step self; _proc := Some proc |}.

Definition use_db (proc : Processor) (db : Database) : Processor :=
  {| proc_base_dir := proc_base_dir proc; proc_epoch_tmin := proc_epoch_tmin proc;
     proc_epoch_tmax := proc_epoch_tmax proc;
     proc_use_drop_subject_list := proc_use_drop_subject_list proc;
     proc_window_length := proc_window_length proc;
     proc_window_step := proc_window_step proc;
     proc_fast_load := proc_fast_load proc; proc_db := Some db |}.

(** [_init_db_processor], lines 64-75: the outcome and the object after *)
Definition _init_db_processor (self : BCISystem) (db_name : string)
    (epoch_tmin epoch_tmax : Q) (use_drop_subject_list fast_load : bool)
  : result unit * BCISystem :=
  match _proc self with
  | None =>
      let proc := {| proc_base_dir := _base_dir self; proc_epoch_tmin := epoch_tmin;
                     proc_epoch_tmax := epoch_tmax;
                     proc_use_drop_subject_list := use_drop_subject_list;
                     proc_window_length := _window_length self;
                     proc_window_step := _window_step self;
                     proc_fast_load := fast_load; proc_db := None |} in
      if String.eqb db_name "physionet" then
        (ret tt, set_proc self (use_db proc PhysionetDb))
      else if String.eqb db_name "pilot" then
        (ret tt, set_proc self (use_db proc PilotDb))
      else (raise NotImplementedError, set_proc self proc)
  | Some _ => (ret tt, self)
  end.

(** ** [BCISystem.online_processing] *)

Section OnlineProcessing.
Context {Window Feat Model Pred Label : Type}.
Context (np_shape : Window -> list Z).
Context (avg_column : Window -> Feat).
Context (predict : Model -> Feat -> Pred).
(** What the call finds around it.  Lines 95-96,
    [self._proc.init_processed_db_path(feature)] and
    [load_pickle_data(self._proc.proc_db_path + AI_MODEL)], are code of the
    package [preprocess], which is not among the sources: what they load for
    an object and a feature, or raise, is [load_ai_model].  [dsp_fs] is
    [online.DSP().fs], and [ticks k] holds the readings of pass [k]. *)
Context (load_ai_model : BCISystem -> string -> result (gmap Z Model)).
Context (dsp_fs : Q).
Context (ticks : nat -> Tick (Window := Window) (Label := Label)).

(** the [while] loop of lines 103-131 from pass [k] on, for at most [fuel]
    tests of its condition; the log lists what the passes made did *)
Fixpoint online_while (fuel : nat) (p : Params) (svm : Model) (sleep_time : Q)
    (data_sender : option (nat -> bool)) (k : nat)
    (st : LoopState (Pred := Pred) (Label := Label))
  : Run (LoopState (Pred := Pred) (Label := Label)) * list (Outcome (Pred := Pred)) :=
  match fuel with
  | O => (Looping, [])
  | S fuel' =>
      if goes_on data_sender k then
        match iteration np_shape avg_column predict p svm sleep_time st (ticks k) with
        | inl e => (Raised e, [])
        | inr (st', o) =>
            let '(r, outs) :=
              online_while fuel' p svm sleep_time data_sender (S k) st' in
            (r, o :: outs)
        end
      else (Returned st, [])
  end.

(** [online_processing], lines 92-133: how the call stands, the object
    after, and the log of the passes made *)
Definition online_processing (fuel : nat) (self : BCISystem) (db_name : string)
    (subject : Z) (feature : string) (get_real_labels : bool)
    (data_sender : option (nat -> bool))
  : Run (list Pred * list (option Label)) * BCISystem * list (Outcome (Pred := Pred)) :=
  match _init_db_processor self db_name 0 3 true true with
  | (inl e, self) => (Raised e, self, [])
  | (inr _, self) =>
      match load_ai_model self feature with
      | inl e => (Raised e, self, [])
      | inr ai_model =>
          match ai_model !! subject with
          | None => (Raised KeyError, self, [])
          | Some svm =>
              if Qeq_bool dsp_fs 0 then (Raised ZeroDivisionError, self, [])
              else
                let sleep_time := (1 / dsp_fs)%Q in
                let p := {| window_length_s := _window_length self;
                            feature := feature;
                            get_real_labels := get_real_labels;
                            fs := dsp_fs |} in
                let '(r, outs) :=
                  online_while fuel p svm sleep_time data_sender 0 initial_state in
                (match r with
                 | Returned st => Returned (y_preds st, y_real st)
                 | Raised e => Raised e
                 | Looping => Looping
                 end, self, outs)
          end
      end
  end.

End OnlineProcessing.

(** what [offline_processing] has done to its collaborators *)
Inductive Action : Type :=
  | RunPreprocessing (feature : string)                (* self._proc.run(feature=feature) *)
  | CrossValidate (subj_n_fold_num : option Z) (save_model : bool).
                                                       (* self._subject_crossvalidate(...) *)

(** [offline_processing], lines 77-90: outcome, object after, and the calls
    made in order *)
Definition offline_processing (self : BCISystem) (db_name feature method : string)
    (epoch_tmin epoch_tmax : Q) (use_drop_subject_list fast_load : bool)
    (subj_n_fold_num : option Z) : result unit * BCISystem * list Action :=
  match _init_db_processor self db_name epoch_tmin epoch_tmax
          use_drop_subject_list fast_load with
  | (inl e, self) => (raise e, self, [])
  | (inr _, self) =>
      let trace := [RunPreprocessing feature] in
      if String.eqb method "subjectXvalidate" then
        (ret tt, self, trace ++ [CrossValidate subj_n_fold_num false])
      else if String.eqb method "trainSVM" then
        (ret tt, self, trace ++ [CrossValidate None true])
      else (raise NotImplementedError, self, trace)
  end.

Section CrossValidation.
Context {TrainX TrainY TestX TestY Model : Type}.

(** one tuple yielded by [kfold.split(self._proc)] *)
Record CvFold : Type := {
  train_x : TrainX; train_y : TrainY; test_x : TestX; test_y : TestY;
  cv_subject : Z
}.

(** [_subject_crossvalidate], lines 33-62, as far as the model map goes:
    [svm.fit(train_x, train_y); ai_model[subject] = svm] for each fold; the
    result is the dictionary that is saved when [save_model] is set *)
Definition _subject_crossvalidate (fit : TrainX -> TrainY -> Model)
    (folds : list CvFold) : gmap Z Model :=
  foldl (fun ai_model f => <[cv_subject f := fit (train_x f) (train_y f)]> ai_model)
        ∅ folds.
End CrossValidation.

Arguments CvFold : clear implicits.

(** [calc_online_acc], lines 136-142: the dictionary
    [{val: key for key, val in converter.items()}] and the labels
    [[conv.get(y, REST) for y in y_real]] handed to the metrics; [REST] is
    the constant of [config.py] *)
Definition REST : string := "rest".

Definition invert_converter (items : list (string * Z)) : gmap Z string :=
  foldl (fun conv kv => <[snd kv := fst kv]> conv) ∅ items.

Definition conv_get (conv : gmap Z string) (y : option Z) : string :=
  match y with
  | None => REST
  | Some v => default REST (conv !! v)
  end.

Definition calc_online_acc {P : Type} (converter : list (string * Z))
    (y_pred : list P) (y_real : list (option Z)) : list string * list P :=
  let conv := invert_converter converter in
  (conv_get conv <$> y_real, y_pred).

(** ** Groups and labels of the windows in [multi_svm.test_db] *)

(** lines 287-296.  [windowed] holds, for each epoch, its windows: the array
    [window_epochs] returns, of shape (epochs, windows, ...).  An empty list
    is the array [np.array([])], whose shape has no second entry.  The result
    is [(groups, labels, np.vstack(windowed_data))]. *)
Definition test_db_groups {Wd Lab : Type} (windowed : list (list Wd))
    (ep_labels : list Lab) : result (list nat * list Lab * list Wd) :=
  match windowed with
  | [] => raise IndexError
  | ws :: _ =>
      let shape0 := length windowed in
      let shape1 := length ws in
      let groups := (fun i => i / shape1)%nat <$> seq 0 (shape0 * shape1) in
      match mapM (fun i => ep_labels !! (i / shape1)%nat) (seq 0 (length groups)) with
      | None => raise IndexError
      | Some labels => ret (groups, labels, concat windowed)
      end
  end.

(** ** The game control of [bionic_apps/games/braindriver/control.py] *)

(** [ControlCommand] with its values.  The module
    [bionic_apps.games.braindriver.commands] that [control.py] imports it
    from is not among the sources; the enumeration of the same name in
    [config.py] is. *)
Inductive ControlCommand : Set := LEFT | RIGHT | HEADLIGHT | STRAIGHT.

Definition command_value (c : ControlCommand) : Z :=
  match c with LEFT => 1 | RIGHT => 3 | HEADLIGHT => 2 | STRAIGHT => 0 end.

#[global] Instance ControlCommand_eq_dec : EqDecision ControlCommand.
Proof. solve_decision. Defined.

Section Game.
(** [numpy.uint8] applied to a Python integer *)
Context (uint8 : Z -> Z).

(** the object, with what it has sent and logged so far; [menu_pos] counts
    the items that [self._command_menu] has yielded *)
Record GameControl : Type := {
  player_num : Z;
  _log : bool;
  has_game_log_conn : bool;
  menu_pos : nat;
  datagrams : list Z;
  log_lines : list string;
  game_log_sent : list ControlCommand
}.

(** [__init__], lines 15-25 *)
Definition GameControl_init (player_num : Z) (make_log has_conn : bool) : GameControl :=
  {| player_num := player_num; _log := make_log; has_game_log_conn := has_conn;
     menu_pos := 0; datagrams := []; log_lines := []; game_log_sent := [] |}.

Definition _send_message (self : GameControl) (message : Z) : GameControl :=
  {| player_num := player_num self; _log := _log self;
     has_game_log_conn := has_game_log_conn self; menu_pos := menu_pos self;
     datagrams := datagrams self ++ [message]; log_lines := log_lines self;
     game_log_sent := game_log_sent self |}.

Definition _log_message (self : GameControl) (message : string) : GameControl :=
  if _log self then
    {| player_num := player_num self; _log := _log self;
       has_game_log_conn := has_game_log_conn self; menu_pos := menu_pos self;
       datagrams := datagrams self; log_lines := log_lines self ++ [message];
       game_log_sent := game_log_sent self |}
  else self.

Definition turn_left (self : GameControl) : GameControl :=
  _log_message
    (_send_message self (uint8 (player_num self * 10 + command_value LEFT)))
    "Command: Left turn".

Definition turn_right (self : GameControl) : GameControl :=
  _log_message
    (_send_message self (uint8 (player_num self * 10 + command_value RIGHT)))
    "Command: Right turn".

Definition turn_light_on (self : GameControl) : GameControl :=
  _log_message
    (_send_message self (uint8 (player_num self * 10 + command_value HEADLIGHT)))
    "Command: Light on".

Definition go_straight (self : GameControl) : GameControl :=
  _log_message self "Command: Go straight".

(** [control_game], lines 53-63; [None] stands for an object that is none of
    the four commands *)
Definition control_game (self : GameControl) (command : option ControlCommand)
  : result unit * GameControl :=
  match command with
  | Some LEFT => (ret tt, turn_left self)
  | Some RIGHT => (ret tt, turn_right self)
  | Some HEADLIGHT => (ret tt, turn_light_on self)
  | Some STRAIGHT => (ret tt, go_straight self)
  | None => (raise NotImplementedError, self)
  end.

(** [cycle([LEFT, RIGHT, HEADLIGHT])] *)
Definition command_menu : list ControlCommand := [LEFT; RIGHT; HEADLIGHT].

Definition next_command (self : GameControl) : ControlCommand * GameControl :=
  (default LEFT (command_menu !! (menu_pos self mod 3)%nat),
   {| player_num := player_num self; _log := _log self;
      has_game_log_conn := has_game_log_conn self; menu_pos := S (menu_pos self);
      datagrams := datagrams self; log_lines := log_lines self;
      game_log_sent := game_log_sent self |}).

(** [control_game_with_2_opt], lines 65-74 *)
Definition control_game_with_2_opt (self : GameControl) (switch_cmd : bool)
  : result unit * GameControl :=
  let '(cmd, self) := if switch_cmd then next_command self else (STRAIGHT, self) in
  match control_game self (Some cmd) with
  | (inl e, self) => (raise e, self)
  | (inr _, self) =>
      if _log self && has_game_log_conn self then
        (ret tt,
         {| player_num := player_num self; _log := _log self;
            has_game_log_conn := has_game_log_conn self; menu_pos := menu_pos self;
            datagrams := datagrams self; log_lines := log_lines self;
            game_log_sent := game_log_sent self ++ [cmd] |})
      else (ret tt, self)
  end.

(** the datagram of a command: [uint8(self.player_num * 10 + command.value)] *)
Definition datagram_of (player : Z) (c : ControlCommand) : Z :=
  uint8 (player * 10 + command_value c).

(** the command the menu yields after [n] others *)
Definition menu_at (n : nat) : ControlCommand :=
  default LEFT (command_menu !! (n mod 3)%nat).

(** a sequence of calls of [control_game_with_2_opt], stopped by the first
    exception *)
Fixpoint play (self : GameControl) (switches : list bool) : result unit * GameControl :=
  match switches with
  | [] => (ret tt, self)
  | b :: rest =>
      match control_game_with_2_opt self b with
      | (inl e, self) => (raise e, self)
      | (inr _, self) => play self rest
      end
  end.
End Game.

(** ** Strings in [bionic_apps/utils.py]

    Python strings are strings of ASCII characters here; the functions below
    are those of [str] on such strings. *)

Module Str.

Definition is_ascii_char (c : Ascii.ascii) : bool :=
  match c with Ascii.Ascii _ _ _ _ _ _ _ b7 => negb b7 end.

Fixpoint is_ascii (s : string) : bool :=
  match s with
  | String.EmptyString => true
  | String.String c s' => is_ascii_char c && is_ascii s'
  end.

(** [sub in s] *)
Fixpoint py_in (sub s : string) : bool :=
  String.prefix sub s ||
  match s with
  | String.EmptyString => false
  | String.String _ s' => py_in sub s'
  end.

Definition is_lower (c : Ascii.ascii) : bool := Ascii.leb "a"%char c && Ascii.leb c "z"%char.

Definition upper_char (c : Ascii.ascii) : Ascii.ascii :=
  if is_lower c then
    match c with
    | Ascii.Ascii b0 b1 b2 b3 b4 _ b6 b7 => Ascii.Ascii b0 b1 b2 b3 b4 false b6 b7
    end
  else c.

(** [s.upper()] *)
Fixpoint upper (s : string) : string :=
  match s with
  | String.EmptyString => String.EmptyString
  | String.String c s' => String.String (upper_char c) (upper s')
  end.

Fixpoint lstrip (ch : Ascii.ascii) (s : string) : string :=
  match s with
  | String.EmptyString => String.EmptyString
  | String.String c s' => if Ascii.eqb c ch then lstrip ch s' else s
  end.

Fixpoint rstrip (ch : Ascii.ascii) (s : string) : string :=
  match s with
  | String.EmptyString => String.EmptyString
  | String.String c s' =>
      match rstrip ch s' with
      | String.EmptyString =>
          if Ascii.eqb c ch then String.EmptyString
          else String.String c String.EmptyString
      | r => String.String c r
      end
  end.

(** [s.strip(ch)] for a single character *)
Definition strip (ch : Ascii.ascii) (s : string) : string := rstrip ch (lstrip ch s).

(** [s.startswith(ch)] for a single character *)
Definition startswith (ch : Ascii.ascii) (s : string) : bool :=
  match s with
  | String.EmptyString => false
  | String.String c _ => Ascii.eqb c ch
  end.

(** [s.endswith(ch)] for a single character *)
Fixpoint endswith (ch : Ascii.ascii) (s : string) : bool :=
  match s with
  | String.EmptyString => false
  | String.String c String.EmptyString => Ascii.eqb c ch
  | String.String _ s' => endswith ch s'
  end.

(** [s[:-1] + ch] *)
Fixpoint set_last (ch : Ascii.ascii) (s : string) : string :=
  match s with
  | String.EmptyString => String.String ch String.EmptyString
  | String.String c String.EmptyString => String.String ch String.EmptyString
  | String.String c s' => String.String c (set_last ch s')
  end.

(** [s.replace('FP', 'Fp')] *)
Fixpoint replace_FP (s : string) : string :=
  match s with
  | String.EmptyString => String.EmptyString
  | String.String c rest =>
      match rest with
      | String.EmptyString => String.String c String.EmptyString
      | String.String d rest' =>
          if Ascii.eqb c "F"%char && Ascii.eqb d "P"%char
          then String.String "F"%char (String.String "p"%char (replace_FP rest'))
          else String.String c (replace_FP rest)
      end
  end.
End Str.

(** the body of the loop of [standardize_eeg_channel_names], lines 190-199 *)
Definition std_channel_name (name : string) : string :=
  let std_name := Str.strip "."%char name in
  let std_name := Str.upper std_name in
  let std_name :=
    if Str.endswith "Z"%char std_name then Str.set_last "z"%char std_name else std_name in
  let std_name :=
    if Str.py_in "FP" std_name then Str.replace_FP std_name else std_name in
  let std_name :=
    if Str.endswith "H"%char std_name then Str.set_last "h"%char std_name else std_name in
  std_name.

(** [standardize_eeg_channel_names]: the dictionary [rename] that is handed
    to [raw.rename_channels], as its items in the order of [raw.ch_names] *)
Definition standardize_eeg_channel_names (ch_names : list string)
  : list (string * string) :=
  (fun name => (name, std_channel_name name)) <$> ch_names.

(** the task names of [config.py] beside [REST] *)
Definition CALM : string := "calm".
Definition ACTIVE : string := "active".

(** [_create_binary_label], lines 204-207 *)
Definition _create_binary_label (label : string) : string :=
  if negb (String.eqb label REST) then
    (if Str.py_in CALM label then CALM else ACTIVE)
  else label.

(** [is_platform], lines 119-122; [platform] is [sys.platform] *)
Definition is_platform (platform os_platform : string) : bool :=
  let os_platform := if Str.py_in "win" os_platform then "win"%string else os_platform in
  String.prefix os_platform platform.

(** ** The epoch creator of [preprocess/ioprocess.py] *)

(** what [_use_db] reads of a database class of [config.py] *)
Record DbConfig : Type := {
  DIR : string;
  DROP_SUBJECTS : list Z;
}.

(** the attributes of an [OfflineEpochCreator]; [_drop_subject] starts as a
    set of at most one number and is replaced by a list in [_use_db] *)
Record OfflineEpochCreator : Type := {
  oec_base_dir : string;
  oec_data_path : option string;
  oec_data_duration : Z;
  oec_db_type : option DbConfig;
  oec_drop_subject : list Z;
}.

(** [OfflineEpochCreator.__init__], lines 50-64; [base_dir[-1]] raises
    [IndexError] on the empty string *)
Definition OfflineEpochCreator_init (base_dir : string) (use_drop_subject_list : bool)
  : result OfflineEpochCreator :=
  let _drop_subject := if use_drop_subject_list then [(-1)%Z] else [] in
  match base_dir with
  | String.EmptyString => raise IndexError
  | _ =>
    ret {| oec_base_dir :=
             if negb (Str.endswith "/" base_dir) then (base_dir ++ "/")%string
             else base_dir;
           oec_data_path := None;
           oec_data_duration := 4;
           oec_db_type := None;
           oec_drop_subject := _drop_subject |}
  end.

(** [OfflineEpochCreator._use_db], lines 66-74 *)
Definition _use_db (db_type : DbConfig) (self : OfflineEpochCreator)
  : OfflineEpochCreator :=
  {| oec_base_dir := oec_base_dir self;
     oec_data_path := Some (oec_base_dir self ++ DIR db_type)%string;
     oec_data_duration := oec_data_duration self;
     oec_db_type := Some db_type;
     oec_drop_subject := DROP_SUBJECTS db_type |}.

(** ** Session cutting of [preprocess/standardize_database.py] *)

(** [l[:k]]: a negative [k] counts from the end *)
Definition py_take {A : Type} (k : Z) (l : list A) : list A :=
  if (0 <=? k)%Z then take (Z.to_nat k) l
  else take (length l - Z.to_nat (- k)) l.

(** the elements of [a] at which the mask is true *)
Definition np_select {A : Type} (a : list A) (mask : list bool) : list A :=
  fst <$> filter (fun p => snd p = true) (zip a mask).

(** [a[mask]] for a boolean mask: numpy raises [IndexError] when the mask is
    not as long as the array *)
Definition bool_index {A : Type} (a : list A) (mask : list bool) : result (list A) :=
  if bool_decide (length mask = length a) then ret (np_select a mask)
  else raise IndexError.

(** [mask[ind] = False]; the positions come from the mask itself, so they
    are in range *)
Definition clear_at (mask : list bool) (ind : list nat) : list bool :=
  foldl (fun m i => <[i:=false]> m) mask ind.

(** one saved session: the subject, the record number of the file name and
    the interval handed to [crop] *)
Record Session : Type := {
  sess_subj : Z;
  sess_rec : Z;
  sess_tmin : Q;
  sess_tmax : Q;
}.

(** one round of the loop of [_save_sessions], lines 35-47 *)
Definition save_session (subj : Z) (tmaxs : list Q) (n_tmins : nat) (after_end : Q)
    (acc : result (list Session)) (it : nat * Q) : result (list Session) :=
  match acc with
  | inl e => inl e
  | inr saved =>
    let '(i, tmin) := it in
    match tmaxs !! i with
    | None => raise IndexError
    | Some tmax =>
      let stop :=
        if bool_decide (Z.of_nat i < Z.of_nat n_tmins - 1)%Z then (tmax + 1)%Q
        else (tmax + after_end)%Q in
      ret (saved ++ [{| sess_subj := subj; sess_rec := Z.of_nat i + 1;
                        sess_tmin := tmin; sess_tmax := stop |}])
    end
  end.

(** [_save_sessions], lines 21-51, without the plots: [onset] is
    [raw.annotations.onset]; the result lists the sessions saved, in order,
    and gives the two masks as the call leaves them *)
Definition _save_sessions (subj : Z) (onset : list Q) (start_mask end_mask : list bool)
    (session_num drop_first : Z) (after_end : Q)
  : result (list Session * list bool * list bool) :=
  let start_ind := arange_at (length start_mask) start_mask in
  let end_ind := arange_at (length end_mask) end_mask in
  if negb (Z.of_nat (length start_ind) =? session_num)%Z then raise AssertionError
  else if negb (Z.of_nat (length end_ind) =? session_num)%Z then raise AssertionError
  else
    let start_mask := clear_at start_mask (py_take drop_first start_ind) in
    let end_mask := clear_at end_mask (py_take drop_first end_ind) in
    match bool_index onset start_mask with
    | inl e => inl e
    | inr tmins =>
      match bool_index onset end_mask with
      | inl e => inl e
      | inr tmaxs =>
        match foldl (save_session subj tmaxs (length tmins) after_end) (ret [])
                    (imap pair tmins) with
        | inl e => inl e
        | inr saved => ret (saved, start_mask, end_mask)
        end
      end
    end.

(** the mask without its first [k] true entries *)
Fixpoint clear_first (k : nat) (m : list bool) : list bool :=
  match k, m with
  | O, _ => m
  | _, [] => []
  | S k', true :: m' => false :: clear_first k' m'
  | S _, false :: m' => false :: clear_first k m'
  end.

(** the view [v0] on epoch 0 of [data], moved to epoch [e] *)
Definition shifted {A : Type} (data v0 : Nd.array3 A) (e : Z) : Nd.array3 A :=
  Nd.Array3 (Nd.buf3 data)
            (Nd.offset3 data + e * fst (fst (Nd.strides3 data)))
            (Nd.shape3 v0) (Nd.strides3 v0).

(** a run of [online_processing]: a fresh object with windows of one
    second, the model of subject 4 on disk, 160 Hz, the three readings of
    [demo_ticks] and a data sender that is found dead after them *)
Definition demo_reading (k : nat) : Tick (Window := list Z) (Label := nat) :=
  default (demo_tick [64; 160] 0 0) (demo_ticks !! k).

Definition demo_sender : option (nat -> bool) := Some (fun k => (k <? 3)%nat).

Definition demo_online (fuel : nat) (real_labels : bool)
  : Run (list nat * list (option nat)) * BCISystem * list (Outcome (Pred := nat)) :=
  online_processing (fun sh : list Z => sh) (fun _ => tt)
    (fun (_ : unit) (_ : unit) => 1%nat)
    (fun _ _ => inr {[ 4 := tt ]}) 160 demo_reading
    fuel (BCISystem_init "" 1 (1 # 4)) "pilot" 4 "avg_column" real_labels demo_sender.

(** one fold of a cross-validation, for subject 4 *)
Definition demo_fold : CvFold unit unit unit unit :=
  {| train_x := tt; train_y := tt; test_x := tt; test_y := tt; cv_subject := 4 |}.

(** * Properties *)

(** ** Windowing *)

Section WindowingFacts.
Context {A : Type}.
Import Nd.

Lemma in_bounds_spec (d : array2 A) :
  in_bounds d = true ->
  0 <= n_channels d /\ 0 <= n_times d /\
  forall c t, 0 <= c < n_channels d -> 0 <= t < n_times d -> is_Some (get2 d c t).
Proof.
  unfold in_bounds. rewrite !andb_true_iff, !Z.leb_le.
  intros [[HC HT] Hall]. repeat split; try done.
  intros c t Hc Ht.
  rewrite forallb_forall in Hall.
  specialize (Hall c). rewrite <- list_elem_of_In, elem_of_seqZ in Hall.
  specialize (Hall ltac:(lia)).
  rewrite forallb_forall in Hall.
  specialize (Hall t). rewrite <- list_elem_of_In, elem_of_seqZ in Hall.
  specialize (Hall ltac:(lia)).
  by apply bool_decide_eq_true in Hall.
Qed.

Lemma window_data_samples (data : array2 A) (wl ws fs : PyNum) (L S : Z) :
  to_samples wl fs = ret L -> to_samples ws fs = ret S ->
  window_data data wl ws fs = _windowed_view data L S.
Proof. unfold window_data. by intros -> ->. Qed.

(** [window_epochs] converts with [int] once per epoch, as
    [_windowed_view(data[i], int(window_length * fs), int(window_step * fs))] *)
Lemma window_epochs_samples (data : array3 A) (wl ws fs : PyNum) (L S : Z)
    (i : Z) (rest : list Z) :
  to_samples wl fs = ret L -> to_samples ws fs = ret S ->
  window_epochs_loop data wl ws fs (i :: rest)
  = match _windowed_view (epoch_at data i) L S with
    | inl e => inl e
    | inr x => match window_epochs_loop data wl ws fs rest with
               | inl e => inl e
               | inr xs => inr (np_array x :: xs)
               end
    end.
Proof.
  intros HL HS. cbn [window_epochs_loop].
  by rewrite (window_data_samples _ _ _ _ L S HL HS).
Qed.

(** the last window ends inside the data *)
Lemma last_window_fits (T L S i : Z) :
  0 < S -> 0 <= i < (T - (L - S)) / S -> i * S + L <= T.
Proof.
  intros HS [Hi0 Hi].
  pose proof (Z.mul_div_le (T - (L - S)) S HS) as Hq.
  set (q := (T - (L - S)) / S) in *.
  assert (i * S <= (q - 1) * S) by (apply Z.mul_le_mono_nonneg_r; lia).
  lia.
Qed.

Lemma windowed_view_windows (data : array2 A) (L S : Z) :
  in_bounds data = true -> 0 < S -> 0 <= L -> L <= n_times data ->
  exists v,
    _windowed_view data L S = inr v /\
    shape3 v = ((n_times data - (L - S)) / S, n_channels data, L) /\
    forall i, 0 <= i < dim0 v ->
      window_at v i = slice_cols data (i * S) (i * S + L) /\
      Forall (Forall is_Some) (window_at v i).
Proof.
  intros Hb HS HL HT.
  destruct (in_bounds_spec _ Hb) as (HC & HT0 & Hin).
  unfold _windowed_view.
  replace (0 <? S) with true by (symmetry; by apply Z.ltb_lt).
  replace (0 <? n_times data - (L - S)) with true
    by (symmetry; apply Z.ltb_lt; lia).
  cbn [negb]. unfold as_strided.
  assert (0 <= (n_times data - (L - S)) / S) as Hn
    by (apply Z.div_pos; lia).
  replace ((n_times data - (L - S)) / S <? 0) with false
    by (symmetry; apply Z.ltb_ge; lia).
  replace (n_channels data <? 0) with false by (symmetry; apply Z.ltb_ge; lia).
  replace (L <? 0) with false by (symmetry; apply Z.ltb_ge; lia).
  cbn [orb]. eexists. split; [reflexivity|]. split; [reflexivity|].
  unfold dim0. cbn [shape3 fst snd]. intros i Hi.
  pose proof (last_window_fits _ _ _ _ HS Hi) as Hfit.
  assert (window_at
            (Array3 (buf2 data) (offset2 data)
               ((n_times data - (L - S)) / S, n_channels data, L)
               (S * snd (strides2 data), fst (strides2 data), snd (strides2 data))) i
          = slice_cols data (i * S) (i * S + L)) as Heq.
  { unfold window_at, slice_cols, dim1, dim2, norm_index. cbn [shape3 fst snd].
    assert (0 <= i * S) by nia.
    replace (i * S <? 0) with false by (symmetry; apply Z.ltb_ge; lia).
    replace (i * S + L <? 0) with false by (symmetry; apply Z.ltb_ge; lia).
    rewrite !Z.min_l by lia.
    replace (i * S + L - i * S) with L by lia.
    apply list_fmap_ext. intros _ c _.
    replace (seqZ (i * S) L) with (Z.add (i * S) <$> seqZ 0 L)
      by (rewrite fmap_add_seqZ; f_equal; lia).
    rewrite <- list_fmap_compose.
    apply list_fmap_ext. intros _ j _.
    unfold get3, get2, compose. cbn [strides3 buf3]. f_equal. cbn [offset3 buf3]. ring. }
  split; [exact Heq|].
  rewrite Heq. unfold slice_cols, norm_index.
  assert (0 <= i * S) by nia.
  replace (i * S <? 0) with false by (symmetry; apply Z.ltb_ge; lia).
  replace (i * S + L <? 0) with false by (symmetry; apply Z.ltb_ge; lia).
  rewrite !Z.min_l by lia.
  apply Forall_fmap, Forall_forall. intros c Hc%elem_of_seqZ.
  apply Forall_fmap, Forall_forall. intros t Ht%elem_of_seqZ.
  apply Hin; lia.
Qed.
End WindowingFacts.

(** C1.  For a matrix of [T] samples per channel, a window length of [L]
    samples and a step of [S > 0] samples with [L <= T], the segmenter
    returns [floor((T - (L - S)) / S)] windows of shape channels by [L];
    window [i] is the slice [data[:, i*S : i*S + L]] item for item, and every
    item is read inside the data.  [window_data] does the same from seconds.
    With [T = 1000], [L = 200], [S = 50] (2 s and 0.5 s at 100 Hz) there are
    17 windows, the first is [data[:, 0:200]] and the last [data[:, 800:1000]]. *)
Theorem segmenter_windows {A : Type} (data : Nd.array2 A) (L S : Z) :
  Nd.in_bounds data = true -> 0 < S -> 0 <= L -> L <= Nd.n_times data ->
  exists v,
    _windowed_view data L S = inr v /\
    Nd.dim0 v = (Nd.n_times data - (L - S)) / S /\
    Nd.dim1 v = Nd.n_channels data /\
    Nd.dim2 v = L /\
    (forall i, 0 <= i < Nd.dim0 v ->
       Nd.window_at v i = Nd.slice_cols data (i * S) (i * S + L) /\
       Forall (Forall is_Some) (Nd.window_at v i)) /\
    (forall wl ws fs, to_samples wl fs = ret L -> to_samples ws fs = ret S ->
       window_data data wl ws fs = inr v) /\
    (Nd.n_times data = 1000 -> L = 200 -> S = 50 ->
       window_data data (PyFloat (float_lit 2 1)) (PyFloat (float_lit 1 2)) (PyInt 100)
       = inr v /\
       Nd.dim0 v = 17 /\
       Nd.window_at v 0 = Nd.slice_cols data 0 200 /\
       Nd.window_at v 16 = Nd.slice_cols data 800 1000).
Proof.
  intros Hb HS HL HT.
  destruct (windowed_view_windows data L S Hb HS HL HT) as (v & Hv & Hshape & Hwin).
  exists v. split; [exact Hv|].
  unfold Nd.dim0, Nd.dim1, Nd.dim2 in *. rewrite Hshape in *. cbn [fst snd] in *.
  split; [reflexivity|]. split; [reflexivity|]. split; [reflexivity|].
  split; [exact Hwin|]. split.
  - intros wl ws fs HwL HwS. by rewrite (window_data_samples _ _ _ _ L S HwL HwS).
  - intros HT1000 -> ->. rewrite HT1000 in Hwin.
    split; [by rewrite (window_data_samples _ _ _ _ 200 50) by (by vm_compute)|].
    split; [by rewrite HT1000|].
    split.
    + apply (Hwin 0). by vm_compute.
    + apply (Hwin 16). by vm_compute.
Qed.

Lemma segmenter_windows_witness :
  exists v,
    _windowed_view scenario_data 200 50 = inr v /\
    Nd.dim0 v = (Nd.n_times scenario_data - (200 - 50)) / 50 /\
    Nd.dim1 v = Nd.n_channels scenario_data /\
    Nd.dim2 v = 200 /\
    (forall i, 0 <= i < Nd.dim0 v ->
       Nd.window_at v i = Nd.slice_cols scenario_data (i * 50) (i * 50 + 200) /\
       Forall (Forall is_Some) (Nd.window_at v i)) /\
    (forall wl ws fs, to_samples wl fs = ret 200 -> to_samples ws fs = ret 50 ->
       window_data scenario_data wl ws fs = inr v) /\
    (Nd.n_times scenario_data = 1000 -> 200 = 200 -> 50 = 50 ->
       window_data scenario_data (PyFloat (float_lit 2 1)) (PyFloat (float_lit 1 2))
         (PyInt 100) = inr v /\
       Nd.dim0 v = 17 /\
       Nd.window_at v 0 = Nd.slice_cols scenario_data 0 200 /\
       Nd.window_at v 16 = Nd.slice_cols scenario_data 800 1000).
Proof.
  apply (segmenter_windows scenario_data 200 50).
  - vm_compute. reflexivity.
  - lia.
  - lia.
  - vm_compute. discriminate.
Defined.

(** ** When the segmenter refuses *)

Section RefusalFacts.
Context {A : Type}.
Import Nd.

(** with a positive step the assertion of line 22 (line 43 of
    [bionic_apps/utils.py]) fails exactly when [T - (L - S) <= 0] *)
Lemma windowed_view_asserts (data : array2 A) (L S : Z) :
  0 < S ->
  (_windowed_view data L S = inl AssertionError <-> n_times data - (L - S) <= 0).
Proof.
  intros HS. unfold _windowed_view.
  replace (0 <? S) with true by (symmetry; by apply Z.ltb_lt).
  destruct (Z.ltb_spec 0 (n_times data - (L - S))) as [Hpos|Hneg]; cbn [negb].
  - split; [|lia]. unfold as_strided.
    by destruct (_ || _).
  - split; [lia|done].
Qed.

(** between [T < L] and [L < T + S] the window count is zero and the
    assertion lets it through *)
Lemma windowed_view_empty (data : array2 A) (L S : Z) :
  0 < S -> 0 <= n_channels data -> 0 <= L ->
  n_times data < L < n_times data + S ->
  (n_times data - (L - S)) / S = 0 /\
  exists v, _windowed_view data L S = inr v /\ dim0 v = 0.
Proof.
  intros HS HC HL [HT1 HT2].
  assert ((n_times data - (L - S)) / S = 0) as Hz
    by (apply Z.div_small; lia).
  split; [exact Hz|].
  unfold _windowed_view.
  replace (0 <? S) with true by (symmetry; by apply Z.ltb_lt).
  replace (0 <? n_times data - (L - S)) with true
    by (symmetry; apply Z.ltb_lt; lia).
  cbn [negb]. unfold as_strided. rewrite Hz.
  replace (n_channels data <? 0) with false by (symmetry; apply Z.ltb_ge; lia).
  replace (L <? 0) with false by (symmetry; apply Z.ltb_ge; lia).
  cbn. eexists. split; reflexivity.
Qed.
End RefusalFacts.

(** C2.  The segmenter is meant to fail whenever the window count
    [floor((T - (L - S)) / S)] is not positive, in particular whenever
    [L > T].  On one channel of [T = 100] samples with [L = 120] and [S = 50]
    (1.2 s and 0.5 s at 100 Hz) the count is 0 and [L > T], yet the
    assertion, which tests [T - (L - S) = 30] before the division, passes and
    an array of zero windows is returned. *)
Theorem short_data_is_not_refused :
  (Nd.n_times short_data - (120 - 50)) / 50 = 0 /\
  Nd.n_times short_data < 120 /\
  exists v,
    _windowed_view short_data 120 50 = inr v /\
    window_data short_data (PyFloat (float_lit 12 10)) (PyFloat (float_lit 1 2))
      (PyInt 100) = inr v /\
    Nd.shape3 v = (0, 1, 120).
Proof.
  split; [reflexivity|]. split; [reflexivity|].
  eexists. split; [reflexivity|]. split; [by vm_compute|reflexivity].
Qed.

(** ** Seconds to samples *)

Lemma py_int_floor_ceiling (x : Q) :
  py_int x = if Qle_bool 0 x then Qfloor x else Qceiling x.
Proof.
  destruct x as [n d]. unfold py_int, Qle_bool, Qfloor, Qceiling, Qopp.
  cbn [Qnum Qden]. rewrite Z.mul_1_r. change (0 * Z.pos d) with 0.
  destruct (Z.leb_spec 0 n) as [Hn|Hn].
  - apply Z.quot_div_nonneg; lia.
  - rewrite <- (Z.opp_involutive n) at 1.
    rewrite Z.quot_opp_l by lia. f_equal.
    apply Z.quot_div_nonneg; lia.
Qed.

Lemma py_int_truncates (v : Q) : truncation_of v (py_int v).
Proof.
  unfold truncation_of. rewrite py_int_floor_ceiling. split.
  - intros Hv. apply Qle_bool_iff in Hv. rewrite Hv. split; [apply Qfloor_le|].
    eapply Qlt_le_trans; [apply Qlt_floor|]. rewrite inject_Z_plus. apply Qle_refl.
  - intros Hv. destruct (Qle_bool 0 v) eqn:E.
    { apply Qle_bool_iff in E. exfalso. by apply (Qlt_not_le v 0). }
    split; [|apply Qle_ceiling].
    eapply Qle_lt_trans; [|apply Qceiling_lt].
    unfold Z.sub. rewrite inject_Z_plus. apply Qle_refl.
Qed.

(** what [to_samples] returns is the product Python computes, cut off *)
Lemma to_samples_truncates (seconds fs : PyNum) (n : Z) :
  to_samples seconds fs = ret n ->
  exists p, py_mul seconds fs = ret p /\ truncation_of (value_of p) n.
Proof.
  unfold to_samples. destruct (py_mul seconds fs) as [e|p]; [done|].
  intros Hp. exists p. split; [done|].
  destruct p as [k|f]; cbn in Hp.
  - injection Hp as <-. unfold truncation_of. cbn [value_of]. split; intros _.
    + split; [apply Qle_refl|]. rewrite <- (Qplus_0_r (inject_Z k)) at 1.
      by apply Qplus_lt_r.
    + split; [|apply Qle_refl]. rewrite <- (Qplus_0_r (inject_Z k)) at 2.
      by apply Qplus_lt_r.
  - destruct f; try done; injection Hp as <-; apply py_int_truncates.
Qed.

(** C9, amended.  The segmenter converts seconds to samples with [int]
    applied to the product [seconds * fs] as Python computes it: exactly on
    two integers, as the rounded product of doubles otherwise.  [int] cuts
    that product off toward zero and never rounds to the nearest integer.
    [window_data] and [window_epochs] both use the two numbers so obtained. *)
Theorem samples_are_truncated {A : Type} (data : Nd.array2 A) (epochs : Nd.array3 A)
    (seconds step fs : PyNum) (L S : Z) :
  to_samples seconds fs = ret L -> to_samples step fs = ret S ->
  (exists p q, py_mul seconds fs = ret p /\ py_mul step fs = ret q /\
     truncation_of (value_of p) L /\ truncation_of (value_of q) S) /\
  window_data data seconds step fs = _windowed_view data L S /\
  (forall i rest,
     window_epochs_loop epochs seconds step fs (i :: rest)
     = match _windowed_view (Nd.epoch_at epochs i) L S with
       | inl e => inl e
       | inr x => match window_epochs_loop epochs seconds step fs rest with
                  | inl e => inl e
                  | inr xs => inr (Nd.np_array x :: xs)
                  end
       end).
Proof.
  intros HL HS. split; [|split].
  - destruct (to_samples_truncates _ _ _ HL) as (p & Hp & Htp).
    destruct (to_samples_truncates _ _ _ HS) as (q & Hq & Htq).
    by exists p, q.
  - by apply window_data_samples.
  - intros i rest. by apply window_epochs_samples.
Qed.

Lemma samples_are_truncated_witness :
  window_data short_data (PyFloat (float_lit 29 100)) (PyFloat (float_lit 7 10)) (PyInt 10)
  = _windowed_view short_data 2 7.
Proof.
  refine (proj1 (proj2 (samples_are_truncated short_data
            (Nd.Array3 [] 0 (0, 0, 0) (0, 0, 0))
            (PyFloat (float_lit 29 100)) (PyFloat (float_lit 7 10)) (PyInt 10) 2 7 _ _)));
    by vm_compute.
Defined.

(** C9 as stated fails.  0.375 s at 10 Hz are 3.75 samples, which round to 4,
    and the segmenter takes 3, more than half a sample away.  0.29 s at
    100 Hz are, as a product of doubles, a little less than 29 samples, and
    the segmenter takes 28. *)
Lemma samples_are_not_rounded :
  to_samples (PyFloat (float_lit 3 8)) (PyInt 10) = ret 3 /\
  (SF2Q (float_lit 3 8) == 3 # 8)%Q /\
  spec_round ((3#8) * 10) = 4 /\
  ~ (Qabs ((3#8) * 10 - inject_Z 3) <= 1#2)%Q /\
  to_samples (PyFloat (float_lit 29 100)) (PyInt 100) = ret 28 /\
  (exists p, py_mul (PyFloat (float_lit 29 100)) (PyInt 100) = ret p /\
             spec_round (value_of p) = 29).
Proof.
  split; [by vm_compute|]. split; [by vm_compute|]. split; [reflexivity|].
  split; [vm_compute; intros H; apply H; reflexivity|].
  split; [by vm_compute|].
  eexists. split; [by vm_compute|]. by vm_compute.
Qed.

(** ** Feature and classifier validation *)

(** C4 as stated fails: the deep sequence classifier with a frequency-domain
    feature is not in the rule table, and validation accepts it, replacing
    the feature by RAW. *)
Lemma eeg_net_accepts_any_feature :
  spec_rule_table AVG_FFT_POWER EEG_NET = false /\
  validate_feature_classifier_pair AVG_FFT_POWER EEG_NET = inr (RAW, EEG_NET).
Proof. split; reflexivity. Qed.

(** C4, amended.  A pair allowed by the rule table passes unchanged.  For
    the deep sequence classifier validation never fails: whatever the
    feature, it returns RAW with that classifier.  Every other pair outside
    the table fails with [ValueError].  What validation returns is always a
    pair of the table, with the classifier it was given. *)
Theorem validation_outcomes (ft : FeatureType) (ct : ClassifierType) :
  (spec_rule_table ft ct = true ->
     validate_feature_classifier_pair ft ct = inr (ft, ct)) /\
  (ct = EEG_NET ->
     validate_feature_classifier_pair ft ct = inr (RAW, EEG_NET)) /\
  (ct <> EEG_NET -> spec_rule_table ft ct = false ->
     validate_feature_classifier_pair ft ct = inl ValueError) /\
  (forall ft' ct', validate_feature_classifier_pair ft ct = inr (ft', ct') ->
     spec_rule_table ft' ct' = true /\ ct' = ct /\
     (ft' = ft \/ (ct = EEG_NET /\ ft' = RAW))).
Proof.
  assert (forall a b : FeatureType * ClassifierType,
            @inr PyError _ a = inr b -> a = b) as Hinj by (by intros ?? [=]).
  destruct ct as [| |name]; destruct ft;
    (split; [done|]); (split; [done|]); (split; [done|]);
    intros ft' ct' H; try discriminate H;
    apply Hinj in H; injection H as <- <-; auto.
Qed.

(** ** The online loop *)



Section OnlineFacts.
Context {Window Feat Model Pred Label : Type}.
Context (np_shape : Window -> list Z).
Context (avg_column : Window -> Feat).
Context (predict : Model -> Feat -> Pred).

#[local] Abbreviation iteration := (iteration (Label := Label) np_shape avg_column predict).
#[local] Abbreviation online_loop := (online_loop (Label := Label) np_shape avg_column predict).
#[local] Abbreviation too_short := (too_short np_shape).

Lemma iteration_inv p svm sleep_time st tk st' o :
  iteration p svm sleep_time st tk = inr (st', o) ->
  label st' = label_after p st tk /\
  ((too_short p (eeg_data tk) = true /\ o = Underrun /\
    y_preds st' = y_preds st /\ y_real st' = y_real st)
   \/
   (too_short p (eeg_data tk) = false /\
    o = Emitted (predict svm (avg_column (eeg_data tk)))
          (py_max0 (sleep_time - (t_before_sleep tk - t_loop_start tk))) /\
    y_preds st' = y_preds st ++ [predict svm (avg_column (eeg_data tk))] /\
    y_real st' = y_real st ++ [label_after p st tk])).
Proof.
  unfold iteration, label_after.
  destruct (too_short p (eeg_data tk)).
  - intros [= <- <-]. split; [done|]. by left.
  - destruct (String.eqb _ _); [|done].
    intros [= <- <-]. split; [done|]. by right.
Qed.

Lemma online_loop_cons p svm sleep_time st tk rest st' outs :
  online_loop p svm sleep_time st (tk :: rest) = inr (st', outs) ->
  exists st1 o outs',
    iteration p svm sleep_time st tk = inr (st1, o) /\
    online_loop p svm sleep_time st1 rest = inr (st', outs') /\
    outs = o :: outs'.
Proof.
  cbn.
  destruct (iteration p svm sleep_time st tk) as [e|[st1 o]]; [done|].
  destruct (online_loop p svm sleep_time st1 rest) as [e|[st2 os]] eqn:E; [done|].
  intros [= <- <-]. by exists st1, o, os.
Qed.

Lemma online_loop_outcomes p svm sleep_time st ticks st' outs :
  online_loop p svm sleep_time st ticks = inr (st', outs) ->
  length outs = length ticks /\
  forall k tk y s, ticks !! k = Some tk -> outs !! k = Some (Emitted y s) ->
    s = py_max0 (sleep_time - (t_before_sleep tk - t_loop_start tk)).
Proof.
  revert st outs. induction ticks as [|tk rest IH]; intros st outs.
  - intros [= <- <-]. split; [done|]. by intros [|k].
  - intros (st1 & o & outs' & Hit & Hrest & ->)%online_loop_cons.
    destruct (IH _ _ Hrest) as [Hlen Hk]. split; [cbn; by f_equal|].
    intros [|k] tk' y s; cbn.
    + intros [= <-] [= ->].
      apply iteration_inv in Hit as (_ & [(_ & [=] & _)|(_ & [= -> ->] & _)]).
      done.
    + apply Hk.
Qed.

Lemma online_loop_lengths p svm sleep_time st ticks st' outs :
  online_loop p svm sleep_time st ticks = inr (st', outs) ->
  length (y_preds st') = (length (y_preds st) + length (filter emitted outs))%nat /\
  length (y_real st') = (length (y_real st) + length (filter emitted outs))%nat.
Proof.
  revert st outs. induction ticks as [|tk rest IH]; intros st outs.
  - intros [= <- <-]. cbn. lia.
  - intros (st1 & o & outs' & Hit & Hrest & ->)%online_loop_cons.
    destruct (IH _ _ Hrest) as [Hp Hr]. rewrite Hp, Hr.
    apply iteration_inv in Hit as (_ & [(_ & -> & -> & ->)|(_ & -> & -> & ->)]).
    + rewrite filter_cons_False by (cbn; auto). lia.
    + rewrite filter_cons_True by done. rewrite !length_app. cbn. lia.
Qed.

Lemma online_loop_no_labels p svm sleep_time st ticks st' outs :
  get_real_labels p = false ->
  label st = None -> Forall (fun r => r = None) (y_real st) ->
  online_loop p svm sleep_time st ticks = inr (st', outs) ->
  Forall (fun r => r = None) (y_real st').
Proof.
  intros Hoff. revert st outs. induction ticks as [|tk rest IH]; intros st outs Hl Hall.
  - by intros [= <- <-].
  - intros (st1 & o & outs' & Hit & Hrest & ->)%online_loop_cons.
    apply iteration_inv in Hit as (Hlab & Hcase).
    unfold label_after in *. rewrite Hoff in *.
    apply (IH st1 outs'); [congruence| |done].
    destruct Hcase as [(_ & _ & _ & ->)|(_ & _ & _ & ->)]; [done|].
    apply Forall_app. split; [done|]. by repeat constructor.
Qed.

End OnlineFacts.

(** ** The loop and its condition *)

Section OnlineWhileFacts.
Context {Window Feat Model Pred Label : Type}.
Context (np_shape : Window -> list Z).
Context (avg_column : Window -> Feat).
Context (predict : Model -> Feat -> Pred).
Context (ticks : nat -> Tick (Window := Window) (Label := Label)).

#[local] Abbreviation iteration := (iteration (Label := Label) np_shape avg_column predict).
#[local] Abbreviation online_loop := (online_loop (Label := Label) np_shape avg_column predict).
#[local] Abbreviation online_while := (online_while np_shape avg_column predict ticks).

(** Whatever the loop has done within its fuel, it has made its passes over
    the first readings, in order, with the sender alive at the head of each;
    it has returned when the sender was found dead, raised when the next
    pass raised, and is still looping when the fuel is used up. *)
Lemma online_while_spec fuel p svm sleep_time ds k st r outs :
  online_while fuel p svm sleep_time ds k st = (r, outs) ->
  (length outs <= fuel)%nat /\
  (forall i, (i < length outs)%nat -> goes_on ds (k + i) = true) /\
  exists st1,
    online_loop p svm sleep_time st (ticks <$> seq k (length outs)) = inr (st1, outs) /\
    match r with
    | Returned st' =>
        st' = st1 /\ (length outs < fuel)%nat /\ goes_on ds (k + length outs) = false
    | Raised e =>
        (length outs < fuel)%nat /\ goes_on ds (k + length outs) = true /\
        iteration p svm sleep_time st1 (ticks (k + length outs)%nat) = inl e
    | Looping => length outs = fuel
    end.
Proof.
  revert k st r outs. induction fuel as [|fuel IH]; intros k st r outs.
  { intros [= <- <-]. cbn. split; [lia|]. split; [intros i; lia|]. by exists st. }
  cbn. destruct (goes_on ds k) eqn:Hk.
  - destruct (iteration p svm sleep_time st (ticks k)) as [e|[st' o]] eqn:Hit.
    + intros [= <- <-]. cbn. rewrite Nat.add_0_r.
      split; [lia|]. split; [intros i; lia|]. exists st. split; [done|].
      split; [lia|]. by split.
    + destruct (online_while fuel p svm sleep_time ds (S k) st') as [r' outs'] eqn:Hrec.
      intros [= <- <-].
      destruct (IH _ _ _ _ Hrec) as (Hlen & Halive & st1 & Hloop & Hr).
      cbn [length]. split; [lia|]. split.
      { intros [|i] Hi; [by rewrite Nat.add_0_r|].
        replace (k + S i)%nat with (S k + i)%nat by lia. apply Halive. lia. }
      exists st1. split.
      { cbn [seq fmap list_fmap]. cbn. by rewrite Hit, Hloop. }
      replace (k + S (length outs'))%nat with (S k + length outs')%nat by lia.
      destruct r'; [|destruct Hr as (? & ? & ?)|]; repeat split; try lia; try tauto.
      all: by destruct Hr as (? & ? & ?).
  - intros [= <- <-]. cbn. rewrite Nat.add_0_r.
    split; [lia|]. split; [intros i; lia|]. exists st. split; [done|].
    split; [done|]. split; [lia|done].
Qed.

(** with fuel enough, a sender that dies after [n] passes makes the loop
    return what the passes over the first [n] readings leave *)
Lemma online_while_returns n fuel p svm sleep_time ds k st st1 outs :
  (n < fuel)%nat ->
  (forall i, (i < n)%nat -> goes_on ds (k + i) = true) ->
  goes_on ds (k + n) = false ->
  online_loop p svm sleep_time st (ticks <$> seq k n) = inr (st1, outs) ->
  online_while fuel p svm sleep_time ds k st = (Returned st1, outs).
Proof.
  revert fuel k st outs. induction n as [|n IH]; intros fuel k st outs Hf Ha Hd.
  - intros [= <- <-]. destruct fuel; [lia|]. cbn.
    rewrite Nat.add_0_r in Hd. by rewrite Hd.
  - intros (st' & o & outs' & Hit & Hrest & ->)%online_loop_cons.
    destruct fuel; [lia|]. cbn.
    rewrite <- (Nat.add_0_r k) at 1. rewrite Ha by lia. rewrite Hit.
    rewrite (IH fuel (S k) st' outs'); [done|lia| | |done].
    + intros i Hi. replace (S k + i)%nat with (k + S i)%nat by lia. apply Ha. lia.
    + by replace (S k + n)%nat with (k + S n)%nat by lia.
Qed.

End OnlineWhileFacts.






(** the stages of [online_processing], in the order of the source *)
Lemma online_processing_stages
    {Window Feat Model Pred Label : Type}
    (np_shape : Window -> list Z) (avg_column : Window -> Feat)
    (predict : Model -> Feat -> Pred)
    (load_ai_model : BCISystem -> string -> result (gmap Z Model)) (dsp_fs : Q)
    (ticks : nat -> Tick (Window := Window) (Label := Label))
    (fuel : nat) (self : BCISystem) (db_name : string) (subject : Z)
    (feature : string) (get_real_labels : bool) (data_sender : option (nat -> bool)) :
  let run := online_processing np_shape avg_column predict load_ai_model dsp_fs ticks
               fuel self db_name subject feature get_real_labels data_sender in
  let self' := snd (_init_db_processor self db_name 0 3 true true) in
  let p := {| window_length_s := _window_length self'; feature := feature;
              get_real_labels := get_real_labels; fs := dsp_fs |} in
  match fst (_init_db_processor self db_name 0 3 true true) with
  | inl e => run = (Raised e, self', [])
  | inr _ =>
      match load_ai_model self' feature with
      | inl e => run = (Raised e, self', [])
      | inr ai_model =>
          match ai_model !! subject with
          | None => run = (Raised KeyError, self', [])
          | Some svm =>
              if Qeq_bool dsp_fs 0 then run = (Raised ZeroDivisionError, self', [])
              else
                let w := online_while np_shape avg_column predict ticks fuel p svm
                           (1 / dsp_fs) data_sender 0 initial_state in
                run = (match fst w with
                       | Returned st => Returned (y_preds st, y_real st)
                       | Raised e => Raised e
                       | Looping => Looping
                       end, self', snd w)
          end
      end
  end.
Proof.
  cbv zeta. unfold online_processing.
  destruct (_init_db_processor self db_name 0 3 true true) as [[e|[]] self1];
    cbn [fst snd]; [done|].
  destruct (load_ai_model self1 feature) as [e|ai_model]; [done|].
  destruct (ai_model !! subject) as [svm|]; [|done].
  destruct (Qeq_bool dsp_fs 0); [done|].
  by destruct (online_while _ _ _ _ _ _ _ _ _ _ _) as [r0 outs0].
Qed.

(** C10.  When [online_processing] returns, the two lists it returns have
    the same length: each pass that predicts appends one entry to each, each
    other pass none; with real labels switched off every ground-truth entry
    is [None]. *)
Theorem predictions_and_labels_align
    {Window Feat Model Pred Label : Type}
    (np_shape : Window -> list Z) (avg_column : Window -> Feat)
    (predict : Model -> Feat -> Pred)
    (load_ai_model : BCISystem -> string -> result (gmap Z Model)) (dsp_fs : Q)
    (ticks : nat -> Tick (Window := Window) (Label := Label))
    (fuel : nat) (self : BCISystem) (db_name : string) (subject : Z)
    (feature : string) (get_real_labels : bool) (data_sender : option (nat -> bool))
    (self' : BCISystem) (outs : list (Outcome (Pred := Pred)))
    (preds : list Pred) (reals : list (option Label)) :
  online_processing np_shape avg_column predict load_ai_model dsp_fs ticks
    fuel self db_name subject feature get_real_labels data_sender
  = (Returned (preds, reals), self', outs) ->
  let p := {| window_length_s := _window_length self'; feature := feature;
              get_real_labels := get_real_labels; fs := dsp_fs |} in
  length preds = length reals /\
  (get_real_labels = false -> Forall (fun r => r = None) reals) /\
  exists ai_model svm st n,
    load_ai_model self' feature = inr ai_model /\
    ai_model !! subject = Some svm /\
    online_loop np_shape avg_column predict p svm (1 / dsp_fs) initial_state
      (ticks <$> seq 0 n) = inr (st, outs) /\
    preds = y_preds st /\ reals = y_real st /\
    length preds = length (filter emitted outs) /\
    length reals = length (filter emitted outs).
Proof.
  intros Hrun p.
  pose proof (online_processing_stages np_shape avg_column predict load_ai_model
                dsp_fs ticks fuel self db_name subject feature get_real_labels
                data_sender) as Hst.
  cbv zeta in Hst. rewrite Hrun in Hst.
  destruct (fst (_init_db_processor self db_name 0 3 true true)) as [e|[]]; [done|].
  set (self1 := snd (_init_db_processor self db_name 0 3 true true)) in *.
  destruct (load_ai_model self1 feature) as [e|ai_model] eqn:Hload; [done|].
  destruct (ai_model !! subject) as [svm|] eqn:Hm; [|done].
  destruct (Qeq_bool dsp_fs 0); [done|].
  destruct (online_while _ _ _ _ _ _ _ _ _ _ _) as [r0 outs0] eqn:Hw.
  cbn [fst snd] in Hst. injection Hst as Hr -> ->.
  destruct (online_while_spec _ _ _ _ _ _ _ _ _ _ _ _ _ Hw)
    as (_ & _ & st1 & Hloop & Hr0).
  destruct r0 as [st'| |]; [|done|done]. destruct Hr0 as (-> & _).
  injection Hr as -> ->.
  destruct (online_loop_lengths _ _ _ _ _ _ _ _ _ _ Hloop) as [Hp Hr].
  cbn in Hp, Hr.
  split; [lia|]. split.
  - intros Hoff.
    eapply online_loop_no_labels; [|  | |exact Hloop]; [exact Hoff|done|constructor].
  - exists ai_model, svm, st1, (length outs0). by repeat split.
Qed.

Lemma predictions_and_labels_align_witness :
  fst (fst (demo_online 10 false)) = Returned ([1%nat; 1%nat], [@None nat; None]) /\
  length [1%nat; 1%nat] = length [@None nat; None] /\
  Forall (fun r => r = None) [@None nat; None].
Proof.
  split; [reflexivity|].
  assert (demo_online 10 false
          = (Returned ([1%nat; 1%nat], [@None nat; None]),
             snd (fst (demo_online 10 false)), snd (demo_online 10 false)))
    as Hrun by reflexivity.
  pose proof (predictions_and_labels_align (fun sh : list Z => sh) (fun _ => tt)
                (fun (_ : unit) (_ : unit) => 1%nat) (fun _ _ => inr {[ 4 := tt ]})
                160 demo_reading 10 (BCISystem_init "" 1 (1 # 4)) "pilot" 4
                "avg_column" false demo_sender _ _ _ _ Hrun)
    as (Hlen & Hnone & _).
  split; [exact Hlen|]. by apply Hnone.
Defined.

(** ** Class balancing *)

Section FilterFacts.
Context {X : Type} (P : X -> Prop) `{!forall x, Decision (P x)}.

Lemma filter_all (l : list X) : (forall x, x ∈ l -> P x) -> filter P l = l.
Proof.
  induction l as [|x l IH]; intros Hall; [done|].
  rewrite filter_cons_True by (apply Hall; left).
  f_equal. apply IH. intros y Hy. apply Hall. by right.
Qed.

Lemma filter_none (l : list X) : (forall x, x ∈ l -> ~ P x) -> filter P l = [].
Proof.
  induction l as [|x l IH]; intros Hall; [done|].
  rewrite filter_cons_False by (apply Hall; left).
  apply IH. intros y Hy. apply Hall. by right.
Qed.
End FilterFacts.

Section BalancingFacts.
Context {G : Type} (shuffle : G -> list nat -> list nat * G).
Context {L : Type} `{EqDecision L} (label_le : relation L) `{!RelDecision label_le}.
Context (labels : list L).

(** the positions of one class *)
#[local] Abbreviation positions c :=
  (filter (fun i => labels !! i = Some c) (seq 0 (length labels))).

Lemma label_mask_lookup (c : L) (i : nat) :
  label_mask labels c !! i = Some true <-> labels !! i = Some c.
Proof.
  unfold label_mask. rewrite list_lookup_fmap.
  destruct (labels !! i) as [l|]; cbn; [|done].
  split.
  - intros [= H%bool_decide_eq_true]. by subst.
  - intros [= ->]. f_equal. by apply bool_decide_eq_true.
Qed.

Lemma np_sum_label_mask (c : L) :
  np_sum (label_mask labels c) = class_count labels c.
Proof.
  unfold np_sum, class_count, label_mask.
  induction labels as [|l ls IH]; [done|].
  cbn [fmap list_fmap]. destruct (decide (l = c)) as [->|Hne].
  - rewrite bool_decide_true by done.
    rewrite !filter_cons_True by done. cbn. by f_equal.
  - rewrite bool_decide_false by done.
    rewrite !filter_cons_False by done. exact IH.
Qed.

Lemma arange_at_positions (c : L) :
  arange_at (length labels) (label_mask labels c) = positions c.
Proof.
  unfold arange_at. apply list_filter_iff. intros i. apply label_mask_lookup.
Qed.

Lemma positions_elem (c : L) (i : nat) :
  i ∈ positions c <-> labels !! i = Some c.
Proof.
  rewrite list_elem_of_filter, elem_of_seq. split; [by intros [? _]|].
  intros H. split; [done|]. apply lookup_lt_Some in H. lia.
Qed.

Lemma positions_NoDup (c : L) : NoDup (positions c).
Proof. apply NoDup_filter, NoDup_seq. Qed.
End BalancingFacts.

Lemma positions_length {L : Type} `{EqDecision L} (labels : list L) (c : L) :
  length (filter (fun i => labels !! i = Some c) (seq 0 (length labels)))
  = class_count labels c.
Proof.
  unfold class_count.
  induction labels as [|x ls IH] using rev_ind; [done|].
  rewrite length_app. cbn [length]. rewrite Nat.add_1_r, seq_S. cbn [plus].
  rewrite !filter_app, !length_app, <- IH. f_equal.
  - f_equal. clear IH.
    assert (forall n, (n <= length ls)%nat ->
              filter (fun i => (ls ++ [x]) !! i = Some c) (seq 0 n)
              = filter (fun i => ls !! i = Some c) (seq 0 n)) as Hext.
    { induction n as [|n IHn]; intros Hn; [done|].
      rewrite seq_S. cbn [plus]. rewrite !filter_app, IHn by lia. f_equal.
      destruct (decide (ls !! n = Some c)) as [Hc|Hc].
      - rewrite !filter_cons_True; [done|done|].
        by rewrite lookup_app_l by lia.
      - rewrite !filter_cons_False; [done|done|].
        by rewrite lookup_app_l by lia. }
    by apply Hext.
  - destruct (decide (x = c)) as [->|Hne].
    + rewrite !filter_cons_True; [done|done|].
      by rewrite list_lookup_middle.
    + rewrite !filter_cons_False; [done|done|].
      rewrite list_lookup_middle by done. congruence.
Qed.

Section SelectionFacts.
Context {G : Type} (shuffle : G -> list nat -> list nat * G).
Context {L : Type} `{EqDecision L} (label_le : relation L) `{!RelDecision label_le}.
Context (labels : list L).

#[local] Abbreviation class_of c := (c, label_mask labels c).

Lemma np_unique_elem (c : L) : c ∈ np_unique label_le labels <-> c ∈ labels.
Proof.
  unfold np_unique. rewrite merge_sort_Permutation. apply elem_of_remove_dups.
Qed.

Lemma np_unique_NoDup : NoDup (np_unique label_le labels).
Proof.
  unfold np_unique. rewrite merge_sort_Permutation. apply NoDup_remove_dups.
Qed.

(** the first loop lists the classes and lowers [min_elems] to the smallest
    class it meets *)
Lemma scan_fold (classes : list L) (acc : list (L * list bool)) (m : nat) :
  exists m',
    foldl (scan_class labels) (acc, m) classes
      = (acc ++ ((fun c => class_of c) <$> classes), m') /\
    (m' <= m)%nat /\
    (forall c, c ∈ classes -> (m' <= class_count labels c)%nat) /\
    (m' = m \/ exists c, c ∈ classes /\ class_count labels c = m').
Proof.
  revert acc m. induction classes as [|c cs IH]; intros acc m.
  - exists m. cbn. rewrite app_nil_r. repeat split; auto. by intros c Hc%elem_of_nil.
  - cbn [foldl scan_class]. rewrite np_sum_label_mask.
    destruct (IH (acc ++ [class_of c])
                 (if bool_decide (class_count labels c < m)%nat
                  then class_count labels c else m))
      as (m' & Hfold & Hle & Hall & Hwit).
    exists m'. rewrite Hfold, <- app_assoc. split; [done|].
    case_bool_decide as Hlt.
    + split; [lia|]. split.
      * intros c' [->|Hc']%elem_of_cons; [lia|by apply Hall].
      * right. destruct Hwit as [->|(c' & Hc' & Hm)].
        -- exists c. split; [left|done].
        -- exists c'. split; [by right|done].
    + split; [lia|]. split.
      * intros c' [->|Hc']%elem_of_cons; [lia|by apply Hall].
      * destruct Hwit as [->|(c' & Hc' & Hm)]; [by left|].
        right. exists c'. split; [by right|done].
Qed.

Context (Hperm : shuffle_permutes shuffle).

(** what one class contributes to [sel_ind] *)
Lemma select_class_pick (use_elems : nat) (sel : list nat) (g : G) (c : L) :
  (use_elems <= class_count labels c)%nat ->
  exists pick g',
    select_class shuffle (length labels) use_elems (sel, g) (class_of c)
      = (sel ++ pick, g') /\
    NoDup pick /\ length pick = use_elems /\
    forall i, i ∈ pick -> labels !! i = Some c.
Proof.
  intros Huse. unfold select_class. cbn [snd].
  rewrite np_sum_label_mask, arange_at_positions.
  case_bool_decide as Hlt.
  - destruct (shuffle g _) as [ind g'] eqn:Hsh.
    pose proof (Hperm g (filter (fun i => labels !! i = Some c)
                           (seq 0 (length labels)))) as Hp.
    rewrite Hsh in Hp. cbn [fst] in Hp.
    exists (take use_elems ind), g'. split; [done|]. split; [|split].
    + apply (sublist_NoDup _ ind); [|apply sublist_take].
      rewrite Hp. apply positions_NoDup.
    + apply length_take_le.
      rewrite (Permutation_length Hp), positions_length. lia.
    + intros i Hi%subseteq_take. rewrite Hp in Hi. by apply positions_elem in Hi.
  - eexists _, g. split; [done|]. split; [|split].
    + apply positions_NoDup.
    + rewrite positions_length. lia.
    + intros i Hi. by apply positions_elem in Hi.
Qed.

(** the second loop over a list of distinct classes *)
Lemma select_fold (use_elems : nat) (classes : list L) (sel : list nat) (g : G) :
  NoDup classes ->
  (forall c, c ∈ classes -> (use_elems <= class_count labels c)%nat) ->
  exists picks g',
    foldl (select_class shuffle (length labels) use_elems) (sel, g)
          ((fun c => class_of c) <$> classes) = (sel ++ picks, g') /\
    NoDup picks /\
    (forall i, i ∈ picks -> exists c, c ∈ classes /\ labels !! i = Some c) /\
    (forall c, c ∈ classes ->
       length (filter (fun i => labels !! i = Some c) picks) = use_elems).
Proof.
  revert sel g. induction classes as [|c cs IH]; intros sel g Hnd Huse.
  - exists [], g. cbn. rewrite app_nil_r. split; [done|]. split; [constructor|].
    split; [by intros i Hi%elem_of_nil|by intros c Hc%elem_of_nil].
  - apply NoDup_cons in Hnd as [Hc Hnd].
    destruct (select_class_pick use_elems sel g c) as (pick & g1 & Hstep & Hpnd & Hplen & Hpc).
    { apply Huse. left. }
    destruct (IH (sel ++ pick) g1 Hnd) as (picks & g2 & Hfold & Hnd' & Hin & Hcnt).
    { intros c' Hc'. apply Huse. by right. }
    exists (pick ++ picks), g2. cbn [fmap list_fmap foldl].
    rewrite Hstep, Hfold, <- app_assoc. split; [done|]. split; [|split].
    + apply NoDup_app. split; [done|]. split; [|done].
      intros i Hi Hi'. apply Hpc in Hi. destruct (Hin i Hi') as (c' & Hc' & Hl).
      rewrite Hi in Hl. injection Hl as <-. done.
    + intros i [Hi|Hi]%elem_of_app.
      * exists c. split; [left|by apply Hpc].
      * destruct (Hin i Hi) as (c' & Hc' & Hl). exists c'. split; [by right|done].
    + intros c' Hc'. rewrite filter_app, length_app.
      apply elem_of_cons in Hc' as [->|Hc'].
      * rewrite filter_all by done.
        rewrite (filter_none _ picks); [cbn; lia|].
        intros i Hi Hl. destruct (Hin i Hi) as (c' & Hc' & Hl').
        rewrite Hl in Hl'. injection Hl' as <-. done.
      * rewrite (filter_none _ pick); [cbn; by apply Hcnt|].
        intros i Hi%Hpc Hl. rewrite Hi in Hl. injection Hl as ->. done.
Qed.
End SelectionFacts.

Lemma take_indices_ok {X : Type} (a : list X) (sel : list nat) :
  sel <> [] -> (forall i, i ∈ sel -> (i < length a)%nat) ->
  exists r, take_indices a sel = inr r /\
            Forall2 (fun i x => a !! i = Some x) sel r.
Proof.
  intros Hne Hin.
  assert (exists r, mapM (fun i => a !! i) sel = Some r) as [r Hr].
  { apply (mapM_is_Some_2 (fun i => a !! i) sel).
    apply Forall_forall. intros i Hi. apply lookup_lt_is_Some. by apply Hin. }
  exists r. unfold take_indices. rewrite Hr.
  split; [by destruct sel|]. by apply mapM_Some_1.
Qed.

Lemma class_count_taken {L : Type} `{EqDecision L}
    (labels ls : list L) (sel : list nat) (c : L) :
  Forall2 (fun i x => labels !! i = Some x) sel ls ->
  class_count ls c = length (filter (fun i => labels !! i = Some c) sel).
Proof.
  unfold class_count. induction 1 as [|i x sel ls Hix _ IH]; [done|].
  destruct (decide (x = c)) as [->|Hne].
  - rewrite !filter_cons_True by done. cbn. by f_equal.
  - rewrite !filter_cons_False; [done|congruence|done].
Qed.

Section BalanceFacts.
Context {G : Type} (shuffle : G -> list nat -> list nat * G).
Context {L : Type} `{EqDecision L} (label_le : relation L) `{!RelDecision label_le}.
Context (Hperm : shuffle_permutes shuffle).

Lemma selected_indices_spec (g : G) (labels : list L) :
  labels <> [] ->
  exists m sel g',
    selected_indices shuffle label_le g (length labels) labels = (sel, g') /\
    (0 < m)%nat /\
    (forall c, c ∈ labels -> (m <= class_count labels c)%nat) /\
    (exists c, c ∈ labels /\ class_count labels c = m) /\
    Sorted le sel /\ NoDup sel /\
    (forall i, i ∈ sel -> exists c, c ∈ labels /\ labels !! i = Some c) /\
    (forall c, c ∈ labels ->
       length (filter (fun i => labels !! i = Some c) sel) = m).
Proof.
  intros Hne. unfold selected_indices, scan_classes.
  destruct (scan_fold labels (np_unique label_le labels) [] (length labels))
    as (m & Hscan & Hle & Hall & Hwit).
  rewrite Hscan. cbn [app].
  destruct (select_fold shuffle labels Hperm m (np_unique label_le labels) [] g)
    as (picks & g' & Hsel & Hnd & Hin & Hcnt).
  { apply np_unique_NoDup. }
  { exact Hall. }
  rewrite Hsel. cbn [app].
  assert (forall c, c ∈ labels -> (m <= class_count labels c)%nat) as Hall'
    by (intros c Hc; by apply Hall, np_unique_elem).
  assert (exists c, c ∈ labels /\ class_count labels c = m) as Hwit'.
  { destruct Hwit as [->|(c & Hc%np_unique_elem & Hm)]; [|by exists c].
    destruct labels as [|c0 rest]; [done|]. exists c0. split; [left|].
    apply Nat.le_antisymm; [apply length_filter|]. apply Hall'. left. }
  exists m, (np_sort picks), g'. split; [done|]. split.
  { destruct Hwit' as (c & Hc & <-). unfold class_count.
    destruct (filter (fun l => l = c) labels) as [|? ?] eqn:Hf; [|cbn; lia].
    exfalso. by apply (filter_nil_not_elem_of _ _ c Hf). }
  split; [done|]. split; [done|].
  split; [apply Sorted_merge_sort; apply _|].
  unfold np_sort. split; [by rewrite merge_sort_Permutation|]. split.
  - intros i Hi. rewrite merge_sort_Permutation in Hi.
    destruct (Hin i Hi) as (c & Hc%np_unique_elem & Hl). by exists c.
  - intros c Hc. rewrite merge_sort_Permutation. by apply Hcnt, np_unique_elem.
Qed.
End BalanceFacts.

(** C6.  For paired, non-empty epochs and labels (and groups of the same
    length when given) the balancing step returns; every class of the input
    then has exactly as many examples as the smallest class had, no other
    class appears, the total does not grow, and epochs, labels and groups
    are the entries of the input at one and the same increasing list of
    distinct indices. *)
Theorem balancing_equalises_classes
    {G L E Grp : Type} `{EqDecision L}
    (shuffle : G -> list nat -> list nat * G)
    (label_le : relation L) `{!RelDecision label_le}
    (g : G) (epochs : list E) (labels : list L) (groups : option (list Grp)) :
  shuffle_permutes shuffle ->
  labels <> [] ->
  length epochs = length labels ->
  (forall grp, groups = Some grp -> length grp = length labels) ->
  exists es ls gs m,
    fst (balance_epoch_nums shuffle label_le g epochs labels groups)
      = inr (es, ls, gs) /\
    (forall c, c ∈ labels -> (m <= class_count labels c)%nat) /\
    (exists c, c ∈ labels /\ class_count labels c = m) /\
    (forall c, c ∈ labels -> class_count ls c = m) /\
    (forall c, c ∉ labels -> class_count ls c = 0%nat) /\
    (length ls <= length labels)%nat /\
    length es = length ls /\
    let sel := fst (selected_indices shuffle label_le g (length epochs) labels) in
    Sorted le sel /\ NoDup sel /\
    Forall2 (fun i e => epochs !! i = Some e) sel es /\
    Forall2 (fun i l => labels !! i = Some l) sel ls /\
    match groups with
    | None => gs = None
    | Some grp => exists gs', gs = Some gs' /\
                    Forall2 (fun i x => grp !! i = Some x) sel gs'
    end.
Proof.
  intros Hperm Hne Hlen Hgrp.
  destruct (selected_indices_spec shuffle label_le Hperm g labels Hne)
    as (m & sel & g' & Hsel & Hm & Hmin & Hwit & Hsorted & Hnd & Hin & Hcnt).
  assert (forall i, i ∈ sel -> (i < length labels)%nat) as Hlt.
  { intros i Hi. destruct (Hin i Hi) as (c & _ & Hl). by apply lookup_lt_Some in Hl. }
  assert (sel <> []) as Hsel_ne.
  { destruct Hwit as (c & Hc & _). specialize (Hcnt c Hc).
    intros ->. cbn in Hcnt. lia. }
  unfold balance_epoch_nums. rewrite Hlen, Hsel. cbn [fst].
  destruct (take_indices_ok epochs sel Hsel_ne) as (es & -> & Hes).
  { intros i Hi. rewrite Hlen. by apply Hlt. }
  destruct (take_indices_ok labels sel Hsel_ne Hlt) as (ls & -> & Hls).
  assert (length ls <= length labels)%nat as Htotal.
  { rewrite <- (Forall2_length _ _ _ Hls).
    replace (length labels) with (length (seq 0 (length labels)))
      by apply length_seq.
    apply submseteq_length, NoDup_submseteq; [done|].
    intros i Hi. apply elem_of_seq. specialize (Hlt i Hi). lia. }
  assert (forall c, c ∉ labels -> class_count ls c = 0%nat) as Hnew.
  { intros c Hc. rewrite (class_count_taken labels ls sel c Hls).
    rewrite filter_none; [done|].
    intros i _ Hl. apply Hc. by eapply list_elem_of_lookup_2. }
  assert (length es = length ls) as Hsame
    by (rewrite <- (Forall2_length _ _ _ Hls); symmetry; by eapply Forall2_length).
  destruct groups as [grp|].
  - destruct (take_indices_ok grp sel Hsel_ne) as (gs & -> & Hgs).
    { intros i Hi. rewrite (Hgrp grp eq_refl). by apply Hlt. }
    exists es, ls, (Some gs), m. repeat split; try done.
    + intros c Hc. rewrite (class_count_taken labels ls sel c Hls). by apply Hcnt.
    + by exists gs.
  - exists es, ls, None, m. repeat split; try done.
    intros c Hc. rewrite (class_count_taken labels ls sel c Hls). by apply Hcnt.
Qed.

(** ** The reference generator permutes *)

Lemma swap_Permutation (x : list nat) (i j : nat) : Tape.swap x i j ≡ₚ x.
Proof.
  unfold Tape.swap.
  destruct (x !! i) as [a|] eqn:Hi; [|done].
  destruct (x !! j) as [b|] eqn:Hj; [|done].
  apply Permutation_inj. split; [by rewrite !length_insert|].
  exists (fun k => if decide (k = i) then j else if decide (k = j) then i else k).
  split.
  - intros k1 k2. repeat case_decide; congruence.
  - intros k. pose proof (lookup_lt_Some _ _ _ Hi). pose proof (lookup_lt_Some _ _ _ Hj).
    destruct (decide (k = i)) as [->|Hki].
    + rewrite list_lookup_insert_eq by (by rewrite length_insert). congruence.
    + rewrite list_lookup_insert_ne by done.
      destruct (decide (k = j)) as [->|Hkj].
      * rewrite list_lookup_insert_eq by done. congruence.
      * by rewrite list_lookup_insert_ne.
Qed.

Lemma shuffle_from_Permutation (i : nat) (g : Tape.tape) (x : list nat) :
  fst (Tape.shuffle_from i g x) ≡ₚ x.
Proof.
  revert g x. induction i as [|i IH]; intros g x; [done|].
  cbn [Tape.shuffle_from].
  destruct (Tape.random_interval g (S i)) as [j g'].
  rewrite IH. apply swap_Permutation.
Qed.

Lemma tape_shuffle_permutes : shuffle_permutes Tape.tape_shuffle.
Proof. intros g l. apply shuffle_from_Permutation. Qed.

Lemma balancing_equalises_classes_witness :
  shuffle_permutes Tape.tape_shuffle /\
  exists es ls gs m,
    fst (balance_epoch_nums Tape.tape_shuffle Z.le [0%nat; 1%nat]
           demo_epochs demo_labels (Some demo_groups))
      = inr (es, ls, gs) /\
    (forall c, c ∈ demo_labels -> (m <= class_count demo_labels c)%nat) /\
    (exists c, c ∈ demo_labels /\ class_count demo_labels c = m) /\
    (forall c, c ∈ demo_labels -> class_count ls c = m) /\
    (forall c, c ∉ demo_labels -> class_count ls c = 0%nat) /\
    (length ls <= length demo_labels)%nat /\
    length es = length ls /\
    let sel := fst (selected_indices Tape.tape_shuffle Z.le [0%nat; 1%nat]
                      (length demo_epochs) demo_labels) in
    Sorted le sel /\ NoDup sel /\
    Forall2 (fun i e => demo_epochs !! i = Some e) sel es /\
    Forall2 (fun i l => demo_labels !! i = Some l) sel ls /\
    exists gs', gs = Some gs' /\
                Forall2 (fun i x => demo_groups !! i = Some x) sel gs'.
Proof.
  split; [exact tape_shuffle_permutes|].
  apply (balancing_equalises_classes Tape.tape_shuffle Z.le [0%nat; 1%nat]
           demo_epochs demo_labels (Some demo_groups)).
  - exact tape_shuffle_permutes.
  - discriminate.
  - reflexivity.
  - intros grp [= <-]. reflexivity.
Defined.

(** ** What the generator decides *)

Section GeneratorFacts.
Context {G : Type} (shuffle : G -> list nat -> list nat * G).
Context {L : Type} `{EqDecision L} (label_le : relation L) `{!RelDecision label_le}.
Context (labels : list L).

(** no class above [use_elems]: the second loop never calls [shuffle] *)
Lemma select_fold_no_shuffle (use_elems : nat) (classes : list L)
    (sel : list nat) (g : G) :
  (forall c, c ∈ classes -> (class_count labels c <= use_elems)%nat) ->
  foldl (select_class shuffle (length labels) use_elems) (sel, g)
        ((fun c => (c, label_mask labels c)) <$> classes)
  = (sel ++ (classes ≫= fun c =>
               filter (fun i => labels !! i = Some c) (seq 0 (length labels))), g).
Proof.
  revert sel g. induction classes as [|c cs IH]; intros sel g Hle.
  - cbn. by rewrite app_nil_r.
  - cbn [fmap list_fmap foldl]. unfold select_class at 2. cbn [snd].
    rewrite np_sum_label_mask, arange_at_positions.
    rewrite bool_decide_false by (specialize (Hle c ltac:(left)); lia).
    rewrite IH by (intros c' Hc'; apply Hle; by right).
    by rewrite <- app_assoc.
Qed.

Lemma selected_indices_balanced (g : G) (n_epochs : nat) :
  (length labels <= n_epochs)%nat ->
  (forall c c', c ∈ labels -> c' ∈ labels ->
     class_count labels c = class_count labels c') ->
  selected_indices shuffle label_le g n_epochs labels
  = (np_sort (np_unique label_le labels ≫= fun c =>
       filter (fun i => labels !! i = Some c) (seq 0 (length labels))), g).
Proof.
  intros Hlen Hbal. unfold selected_indices, scan_classes.
  destruct (scan_fold labels (np_unique label_le labels) [] n_epochs)
    as (m & Hscan & Hle & Hall & Hwit).
  rewrite Hscan. cbn [app].
  rewrite select_fold_no_shuffle; [done|].
  intros c Hc. destruct Hwit as [->|(c' & Hc' & <-)].
  - etransitivity; [apply length_filter|done].
  - apply np_unique_elem in Hc, Hc'. by rewrite (Hbal c c').
Qed.

Context (Hperm : shuffle_permutes shuffle).


End GeneratorFacts.



(** The step itself does not seed the generator.  A second run that is not
    seeded again continues where the first run left the generator: on three
    epochs labelled 1, 1, 2, with a generator whose next two draws are 0 and
    1, the first run keeps epochs b and c and the second keeps a and c. *)
Lemma unseeded_runs_may_differ :
  two_runs [0%nat; 1%nat]
  = (inr (["b"; "c"]%string, [1; 2], None), inr (["a"; "c"]%string, [1; 2], None)).
Proof. reflexivity. Qed.

(** ** The splitter *)

Section SplitterFacts.
Context {Subject Sample : Type}.

Lemma side_data_elem (data_of : Subject -> list Sample)
    (units : list Subject) (s : Subject) (x : Sample) :
  (s, x) ∈ side_data data_of units <-> s ∈ units /\ x ∈ data_of s.
Proof.
  unfold side_data. rewrite list_elem_of_bind. split.
  - intros (u & Hx & Hu). apply list_elem_of_fmap in Hx as (y & [= -> ->] & Hy). done.
  - intros [Hs Hx]. exists s. split; [|done].
    apply list_elem_of_fmap. by exists x.
Qed.

Lemma bucket_folds_sides (before : list Subject) (buckets : list (list Subject))
    (fold : Fold Subject) :
  NoDup (before ++ concat buckets) ->
  fold ∈ bucket_folds before buckets ->
  disjoint_sides fold /\
  test_units fold ∈ buckets /\
  train_units fold ++ test_units fold ≡ₚ before ++ concat buckets.
Proof.
  revert before. induction buckets as [|b rest IH]; intros before Hnd Hin.
  - by apply elem_of_nil in Hin.
  - cbn [bucket_folds] in Hin. apply elem_of_cons in Hin as [->|Hin].
    + cbn [train_units test_units concat] in *. split; [|split].
      * intros s Hs Hb.
        apply NoDup_app in Hnd as (_ & Hdis & Hnd).
        apply NoDup_app in Hnd as (_ & Hdis' & _).
        apply elem_of_app in Hs as [Hs|Hs].
        -- apply (Hdis s Hs). apply elem_of_app. by left.
        -- by apply (Hdis' s Hb).
      * left.
      * rewrite <- !app_assoc. f_equiv. apply Permutation_app_comm.
    + cbn [concat] in Hnd. rewrite app_assoc in Hnd.
      destruct (IH (before ++ b) Hnd Hin) as (Hd & Ht & Hp).
      split; [done|]. split; [by right|].
      rewrite Hp. cbn [concat]. by rewrite app_assoc.
Qed.

Lemma bucket_folds_tests (before : list Subject) (buckets : list (list Subject)) :
  test_units <$> bucket_folds before buckets = buckets.
Proof.
  revert before. induction buckets as [|b rest IH]; intros before; [done|].
  cbn. by rewrite IH.
Qed.

Lemma concat_singletons (l : list Subject) : concat ((fun s => [s]) <$> l) = l.
Proof. induction l as [|x l IH]; [done|]. cbn. by rewrite IH. Qed.

Lemma loso_fold_lookup (before subjects : list Subject) (k : nat) (fold : Fold Subject) :
  bucket_folds before ((fun s => [s]) <$> subjects) !! k = Some fold ->
  exists s, subjects !! k = Some s /\
            test_units fold = [s] /\
            train_units fold = before ++ take k subjects ++ drop (S k) subjects.
Proof.
  revert before k. induction subjects as [|s rest IH]; intros before k; [done|].
  destruct k as [|k]; cbn.
  - intros [= <-]. exists s. cbn [train_units test_units].
    split; [done|]. split; [done|].
    cbn [take drop app]. by rewrite concat_singletons.
  - intros Hk. destruct (IH _ _ Hk) as (s' & Hs' & Ht & Htr).
    exists s'. split; [done|]. split; [done|].
    rewrite Htr. by rewrite <- app_assoc.
Qed.

End SplitterFacts.

(** C3.  With distinct subjects, every fold of the splitter has disjoint
    sides: no unit is on both sides, and no sample of the training data comes
    from a unit that also gives test data.  This holds for the buckets of an
    explicit fold count, for leave-one-subject-out, and, over the distinct
    sessions of one subject, for the independent-sessions topology.  Under
    leave-one-subject-out there is one fold per subject, fold [k] tests
    subject [k] alone and trains on all the others, so that the test sets of
    all folds, in order, list every subject exactly once. *)
Theorem folds_have_disjoint_sides {Subject Sample : Type}
    (data_of : Subject -> list Sample)
    (subjects : list Subject) (buckets : list (list Subject))
    (sessions : list Subject) :
  NoDup subjects -> NoDup (concat buckets) -> NoDup sessions ->
  let no_leak (fold : Fold Subject) :=
    disjoint_sides fold /\
    forall tr te, tr ∈ side_data data_of (train_units fold) ->
                  te ∈ side_data data_of (test_units fold) -> fst tr <> fst te in
  (forall fold, fold ∈ bucket_folds [] buckets ->
     no_leak fold /\ train_units fold ++ test_units fold ≡ₚ concat buckets) /\
  (forall fold, fold ∈ leave_one_subject_out subjects -> no_leak fold) /\
  length (leave_one_subject_out subjects) = length subjects /\
  (forall k fold, leave_one_subject_out subjects !! k = Some fold ->
     exists s, subjects !! k = Some s /\ test_units fold = [s] /\
               train_units fold = take k subjects ++ drop (S k) subjects) /\
  leave_one_subject_out subjects ≫= test_units = subjects /\
  (forall fold, independent_sessions sessions = Some fold ->
     no_leak fold /\ train_units fold ++ test_units fold = sessions).
Proof.
  intros Hsub Hbuck Hsess no_leak.
  assert (forall fold, disjoint_sides fold -> no_leak fold) as Hleak.
  { intros fold Hd. split; [done|]. intros [s x] [s' x'] Htr Hte. cbn.
    apply side_data_elem in Htr as [Htr _]. apply side_data_elem in Hte as [Hte _].
    intros ->. by apply (Hd s'). }
  split; [|split; [|split; [|split; [|split]]]].
  - intros fold Hin.
    destruct (bucket_folds_sides [] buckets fold Hbuck Hin) as (Hd & _ & Hp).
    split; [by apply Hleak|done].
  - intros fold Hin. apply Hleak.
    apply (bucket_folds_sides [] ((fun s => [s]) <$> subjects) fold); [|done].
    cbn. by rewrite concat_singletons.
  - unfold leave_one_subject_out.
    rewrite <- (length_fmap test_units), bucket_folds_tests. by rewrite length_fmap.
  - intros k fold Hk. by apply (loso_fold_lookup []) in Hk.
  - unfold leave_one_subject_out.
    replace (bucket_folds [] ((fun s => [s]) <$> subjects) ≫= test_units)
      with (concat (test_units <$> bucket_folds [] ((fun s : Subject => [s]) <$> subjects))).
    + rewrite bucket_folds_tests. apply concat_singletons.
    + generalize (bucket_folds [] ((fun s : Subject => [s]) <$> subjects)).
      intros l. induction l as [|f l IH]; [done|]. cbn. by rewrite IH.
  - intros fold. unfold independent_sessions.
    destruct (last sessions) as [s|] eqn:Hlast; [|done].
    intros [= <-]. cbn [train_units test_units].
    apply last_Some in Hlast as [l' ->].
    rewrite removelast_last. split; [|done].
    apply Hleak. intros x Hx Hx'. cbn [train_units test_units] in *.
    apply NoDup_app in Hsess as (_ & Hdis & _). by apply (Hdis x).
Qed.

Lemma folds_have_disjoint_sides_witness :
  length (leave_one_subject_out [0; 1; 2; 3; 4]) = 5%nat /\
  leave_one_subject_out [0; 1; 2; 3; 4] !! 2%nat
    = Some {| train_units := [0; 1; 3; 4]; test_units := [2] |} /\
  leave_one_subject_out [0; 1; 2; 3; 4] ≫= test_units = [0; 1; 2; 3; 4] /\
  (forall fold, fold ∈ leave_one_subject_out [0; 1; 2; 3; 4] -> disjoint_sides fold).
Proof.
  assert (NoDup [0; 1; 2; 3; 4]) as Hsub by (apply (bool_decide_unpack _); by vm_compute).
  assert (NoDup (concat [[0; 1]; [2; 3]; [4]])) as Hb by exact Hsub.
  assert (NoDup [10; 11; 12]) as Hs by (apply (bool_decide_unpack _); by vm_compute).
  pose proof (folds_have_disjoint_sides (fun s : Z => [s; s]) [0; 1; 2; 3; 4]
                [[0; 1]; [2; 3]; [4]] [10; 11; 12] Hsub Hb Hs)
    as (_ & Hloso & Hlen & _ & Hcover & _).
  split; [exact Hlen|]. split; [reflexivity|]. split; [exact Hcover|].
  intros fold Hin. by apply Hloso.
Defined.

(** * Further properties of the code *)

(** ** More on the segmenter *)

Section SegmenterFacts.
Context {A : Type}.
Import Nd.

(** whatever the call returns keeps the buffer of the data and reads item
    [(i, c, j)] at the address of [data[c, i * S + j]] *)
Lemma windowed_view_address (data : array2 A) (L S : Z) (v : array3 A) :
  _windowed_view data L S = inr v ->
  buf3 v = buf2 data /\
  forall i c j, get3 v i c j = get2 data c (i * S + j).
Proof.
  unfold _windowed_view.
  destruct (Z.ltb_spec 0 S) as [HS|HS].
  - destruct (negb _); [done|]. unfold as_strided.
    destruct (_ || _); [done|]. intros [= <-]. split; [done|].
    intros i c j. unfold get3, get2. cbn [strides3 buf3 offset3]. f_equal. ring.
  - destruct (Z.eqb_spec S 0) as [->|HS0]; [|done].
    intros [= <-]. split; [done|].
    intros i c j. unfold get3, get2, expand_dims0, slice_last.
    cbn [strides3 buf3 offset3 buf2 offset2 strides2]. f_equal. ring.
Qed.

(** the shape of the result is a function of the shape of the data *)
Lemma windowed_view_shape (d1 d2 : array2 A) (L S : Z) (v1 v2 : array3 A) :
  shape2 d1 = shape2 d2 ->
  _windowed_view d1 L S = inr v1 -> _windowed_view d2 L S = inr v2 ->
  shape3 v1 = shape3 v2.
Proof.
  assert (forall (d : array2 A) v, _windowed_view d L S = inr v ->
            shape3 v = if 0 <? S
                       then ((snd (shape2 d) - (L - S)) / S, fst (shape2 d), L)
                       else (1, fst (shape2 d), norm_index (snd (shape2 d)) L)) as Hs.
  { intros d v. unfold _windowed_view, n_times, n_channels, as_strided.
    destruct (0 <? S).
    - destruct (negb _); [done|]. destruct (_ || _); [done|]. by intros [= <-].
    - destruct (S =? 0); [|done]. by intros [= <-]. }
  intros Heq H1 H2. rewrite (Hs _ _ H1), (Hs _ _ H2). by rewrite Heq.
Qed.
End SegmenterFacts.

(** X1.  With a step of zero samples the segmenter never fails and returns a
    single window, [data[:, :L]]: its length is [L] clipped to the data as
    Python clips a slice, so that a window length beyond the [T] samples of
    the data gives a window of [T] samples and no error. *)
Theorem step_zero_single_window {A : Type} (data : Nd.array2 A) (L : Z) :
  Nd.in_bounds data = true ->
  exists v,
    _windowed_view data L 0 = inr v /\
    Nd.shape3 v = (1, Nd.n_channels data, Nd.norm_index (Nd.n_times data) L) /\
    Nd.window_at v 0 = Nd.slice_cols data 0 L /\
    Forall (Forall is_Some) (Nd.window_at v 0) /\
    (Nd.n_times data <= L -> Nd.dim2 v = Nd.n_times data) /\
    (0 <= L <= Nd.n_times data -> Nd.dim2 v = L) /\
    (forall wl ws fs, to_samples wl fs = ret L -> to_samples ws fs = ret 0 ->
       window_data data wl ws fs = inr v).
Proof.
  intros Hb. destruct (in_bounds_spec _ Hb) as (HC & HT & Hin).
  eexists. split; [reflexivity|]. split; [reflexivity|].
  assert (0 <= Nd.norm_index (Nd.n_times data) L <= Nd.n_times data) as Hclip
    by (unfold Nd.norm_index; destruct (Z.ltb_spec L 0); lia).
  assert (Nd.norm_index (Nd.n_times data) 0 = 0) as Hz
    by (unfold Nd.norm_index; cbn; lia).
  assert (Nd.window_at (Nd.expand_dims0 (Nd.slice_last data L)) 0
          = Nd.slice_cols data 0 L) as Heq.
  { unfold Nd.slice_cols. rewrite Hz, Z.sub_0_r.
    unfold Nd.window_at, Nd.dim1, Nd.dim2, Nd.expand_dims0, Nd.slice_last.
    cbn [Nd.shape3 Nd.shape2 Nd.n_channels Nd.n_times fst snd].
    apply list_fmap_ext. intros _ c _. apply list_fmap_ext. intros _ j _.
    unfold Nd.get3, Nd.get2. cbn. f_equal. ring. }
  split; [exact Heq|]. split.
  { rewrite Heq. unfold Nd.slice_cols. rewrite Hz.
    apply Forall_fmap, Forall_forall. intros c Hc%elem_of_seqZ.
    apply Forall_fmap, Forall_forall. intros t Ht%elem_of_seqZ.
    apply Hin; lia. }
  unfold Nd.dim2, Nd.expand_dims0, Nd.slice_last.
  cbn [Nd.shape3 Nd.shape2 Nd.n_times snd].
  split; [|split].
  - intros HL. unfold Nd.norm_index. unfold Nd.n_times in *.
    destruct (Z.ltb_spec L 0); lia.
  - intros HL. unfold Nd.norm_index. unfold Nd.n_times in *.
    destruct (Z.ltb_spec L 0); lia.
  - intros wl ws fs HwL HwS. by rewrite (window_data_samples _ _ _ _ L 0 HwL HwS).
Qed.

Lemma step_zero_single_window_witness :
  exists v,
    _windowed_view short_data 120 0 = inr v /\
    Nd.shape3 v = (1, 1, 100).
Proof.
  destruct (step_zero_single_window short_data 120) as (v & Hv & Hs & _).
  - vm_compute. reflexivity.
  - exists v. split; [exact Hv|exact Hs].
Defined.

(** X2.  On a matrix with a non-negative number of channels the segmenter
    fails in exactly three cases: a negative step ([ValueError]), a positive
    step with [T - (L - S) <= 0] ([AssertionError]), and a positive step with
    a negative window length that passes the assertion ([ValueError], raised
    by [as_strided]). *)
Theorem segmenter_failures {A : Type} (data : Nd.array2 A) (L S : Z) :
  0 <= Nd.n_channels data ->
  (_windowed_view data L S = inl ValueError <->
     S < 0 \/ (0 < S /\ 0 < Nd.n_times data - (L - S) /\ L < 0)) /\
  (_windowed_view data L S = inl AssertionError <->
     0 < S /\ Nd.n_times data - (L - S) <= 0) /\
  (forall e, _windowed_view data L S = inl e -> e = ValueError \/ e = AssertionError).
Proof.
  intros HC. unfold _windowed_view, Nd.as_strided.
  destruct (Z.ltb_spec 0 S) as [HS|HS].
  - destruct (Z.ltb_spec 0 (Nd.n_times data - (L - S))) as [Hn|Hn]; cbn [negb].
    + assert (0 <= (Nd.n_times data - (L - S)) / S) by (apply Z.div_pos; lia).
      replace ((Nd.n_times data - (L - S)) / S <? 0) with false
        by (symmetry; apply Z.ltb_ge; lia).
      replace (Nd.n_channels data <? 0) with false by (symmetry; apply Z.ltb_ge; lia).
      cbn [orb]. destruct (Z.ltb_spec L 0) as [HL|HL].
      * split; [split; [intros _; right; lia|done]|].
        split; [split; [done|lia]|]. intros e [= <-]. by left.
      * split; [split; [done|lia]|]. split; [split; [done|lia]|]. done.
    + split; [split; [done|lia]|]. split; [split; [lia|done]|].
      intros e [= <-]. by right.
  - destruct (Z.eqb_spec S 0) as [->|HS0].
    + split; [split; [done|lia]|]. split; [split; [done|lia]|]. done.
    + split; [split; [intros _; left; lia|done]|].
      split; [split; [done|lia]|]. intros e [= <-]. by left.
Qed.

Lemma segmenter_failures_witness :
  _windowed_view short_data (-5) 200 = inl ValueError /\
  _windowed_view short_data 300 200 = inl AssertionError /\
  _windowed_view short_data 10 (-1) = inl ValueError.
Proof.
  pose proof (segmenter_failures short_data (-5) 200 ltac:(by vm_compute)) as (H1 & _ & _).
  pose proof (segmenter_failures short_data 300 200 ltac:(by vm_compute)) as (_ & H2 & _).
  pose proof (segmenter_failures short_data 10 (-1) ltac:(by vm_compute)) as (H3 & _ & _).
  split; [apply H1; right; by vm_compute|].
  split; [apply H2; by vm_compute|].
  apply H3. left. lia.
Defined.

(** X3.  With a positive step and [0 <= L <= T] there is at least one
    window, the last window ends inside the data, and fewer than [S] samples
    are left after it.  When the step does not exceed the window length,
    every sample before that end lies in some window, at the position the
    step arithmetic gives. *)
Theorem windows_cover_the_data {A : Type} (data : Nd.array2 A) (L S : Z) :
  0 <= Nd.n_channels data -> 0 < S -> 0 <= L -> L <= Nd.n_times data ->
  exists v,
    _windowed_view data L S = inr v /\
    1 <= Nd.dim0 v /\
    let covered := (Nd.dim0 v - 1) * S + L in
    covered <= Nd.n_times data < covered + S /\
    (forall i j, 0 <= i < Nd.dim0 v -> 0 <= j < L -> 0 <= i * S + j < covered) /\
    (S <= L -> forall c t, 0 <= t < covered ->
       exists i j, 0 <= i < Nd.dim0 v /\ 0 <= j < L /\ t = i * S + j /\
                   Nd.get3 v i c j = Nd.get2 data c t).
Proof.
  intros HC HS HL HT.
  destruct (_windowed_view data L S) as [e|v] eqn:Hv.
  { exfalso. destruct (segmenter_failures data L S HC) as (H1 & H2 & H3).
    destruct (H3 e Hv) as [-> | ->]; [apply H1 in Hv|apply H2 in Hv]; lia. }
  exists v. split; [done|].
  destruct (windowed_view_address data L S v Hv) as [_ Haddr].
  assert (Nd.dim0 v = (Nd.n_times data - (L - S)) / S) as Hd.
  { revert Hv. unfold _windowed_view, Nd.as_strided.
    replace (0 <? S) with true by (symmetry; by apply Z.ltb_lt).
    destruct (negb _); [done|]. destruct (_ || _); [done|]. by intros [= <-]. }
  set (T := Nd.n_times data) in *. set (n := Nd.dim0 v) in *.
  assert (n * S <= T - (L - S) < n * S + S) as Hdiv.
  { rewrite Hd. pose proof (Z.mul_div_le (T - (L - S)) S HS).
    pose proof (Z.mul_succ_div_gt (T - (L - S)) S HS). lia. }
  assert (1 <= n) as Hn1 by nia.
  split; [done|]. cbn zeta. split; [lia|]. split.
  - intros i j Hi Hj.
    assert (i * S <= (n - 1) * S) by (apply Z.mul_le_mono_nonneg_r; lia).
    assert (0 <= i * S) by (apply Z.mul_nonneg_nonneg; lia). lia.
  - intros HSL c t Ht.
    pose proof (Z.mul_div_le t S HS) as Hq1.
    pose proof (Z.mul_succ_div_gt t S HS) as Hq2.
    assert (0 <= t / S) by (apply Z.div_pos; lia).
    destruct (Z.le_gt_cases (t / S) (n - 1)) as [Hq|Hq].
    + exists (t / S), (t - t / S * S). rewrite Haddr.
      split; [lia|]. split; [lia|]. split; [lia|]. f_equal. lia.
    + exists (n - 1), (t - (n - 1) * S). rewrite Haddr.
      assert ((n - 1) * S <= t / S * S) by (apply Z.mul_le_mono_nonneg_r; lia).
      split; [lia|]. split; [lia|]. split; [lia|]. f_equal. lia.
Qed.

Lemma windows_cover_the_data_witness :
  exists v,
    _windowed_view scenario_data 200 50 = inr v /\
    (Nd.dim0 v - 1) * 50 + 200 <= 1000 < (Nd.dim0 v - 1) * 50 + 200 + 50.
Proof.
  destruct (windows_cover_the_data scenario_data 200 50) as (v & Hv & _ & Hc & _);
    [by vm_compute|lia|lia|by vm_compute|].
  exists v. split; [exact Hv|exact Hc].
Defined.

(** X4.  The segmenter copies nothing: the result is a view on the buffer of
    the data, item [(i, c, j)] of it is read at the address of
    [data[c, i * S + j]], and so item [j + S] of a window and item [j] of the
    next window are one and the same memory cell. *)
Theorem windows_alias_the_data {A : Type} (data : Nd.array2 A) (L S : Z)
    (v : Nd.array3 A) :
  _windowed_view data L S = inr v ->
  Nd.buf3 v = Nd.buf2 data /\
  Nd.offset3 v = Nd.offset2 data /\
  (forall i c j, Nd.get3 v i c j = Nd.get2 data c (i * S + j)) /\
  (forall i c j, Nd.get3 v (i + 1) c j = Nd.get3 v i c (j + S)).
Proof.
  intros Hv. destruct (windowed_view_address data L S v Hv) as [Hbuf Haddr].
  split; [done|]. split.
  - revert Hv. unfold _windowed_view, Nd.as_strided.
    destruct (0 <? S).
    + destruct (negb _); [done|]. destruct (_ || _); [done|]. by intros [= <-].
    + destruct (S =? 0); [|done]. by intros [= <-].
  - split; [done|]. intros i c j. rewrite !Haddr. f_equal. ring.
Qed.

Lemma windows_alias_the_data_witness :
  exists v, _windowed_view scenario_data 200 50 = inr v /\
            Nd.get3 v 1 0 0 = Nd.get3 v 0 0 50 /\
            Nd.get3 v 0 0 50 = Some 50.
Proof.
  eexists. split; [reflexivity|].
  split; [|reflexivity].
  apply (proj2 (proj2 (proj2
    (windows_alias_the_data scenario_data 200 50 _ eq_refl))) 0 0 0).
Defined.

(** ** More on class balancing *)

Lemma seq_Sorted_le (j n : nat) : Sorted le (seq j n).
Proof.
  revert j. induction n as [|n IH]; intros j; [constructor|].
  cbn. constructor; [apply IH|]. destruct n; constructor. lia.
Qed.

Lemma lookup_all_indices {X : Type} (a : list X) :
  Forall2 (fun i x => a !! i = Some x) (seq 0 (length a)) a.
Proof.
  apply Forall2_same_length_lookup_2; [by rewrite length_seq|].
  intros i j x [-> _]%lookup_seq Hx. done.
Qed.

Lemma take_indices_all {X : Type} (a : list X) :
  a <> [] -> take_indices a (seq 0 (length a)) = inr a.
Proof.
  intros Hne. unfold take_indices.
  rewrite (mapM_Some_2 _ _ _ (lookup_all_indices a)).
  destruct a; [done|]. reflexivity.
Qed.

(** increasing distinct indices read out a sublist *)
Lemma sorted_indices_sublist {X : Type} (a r : list X) (sel : list nat) :
  Sorted le sel -> NoDup sel ->
  Forall2 (fun i x => a !! i = Some x) sel r ->
  r `sublist_of` a.
Proof.
  intros Hs Hnd Hf.
  assert (forall k, Forall (fun i => (k <= i)%nat) sel ->
            r `sublist_of` drop k a) as Hgen.
  { apply Sorted_StronglySorted in Hs; [|apply _].
    induction Hf as [|i x sel r Hi Hf IH]; intros k Hge; [apply sublist_nil_l|].
    apply StronglySorted_inv in Hs as [Hs Hall].
    apply NoDup_cons in Hnd as [Hni Hnd].
    apply Forall_cons in Hge as [Hki Hge].
    assert (Forall (fun i' => (S i <= i')%nat) sel) as Hgt.
    { apply Forall_forall. intros i' Hi'.
      rewrite Forall_forall in Hall. specialize (Hall i' Hi').
      assert (i <> i') by (intros ->; done). lia. }
    specialize (IH Hs Hnd (S i) Hgt).
    rewrite <- (take_drop (i - k) (drop k a)), drop_drop.
    replace (k + (i - k))%nat with i by lia.
    apply sublist_inserts_l. rewrite (drop_S _ _ _ Hi). by apply sublist_skip. }
  apply (Hgen 0%nat). apply Forall_forall. intros; lia.
Qed.

Section BalanceOutcome.
Context {G : Type} (shuffle : G -> list nat -> list nat * G).
Context {L : Type} `{EqDecision L} (label_le : relation L) `{!RelDecision label_le}.

(** the positions of all classes together are all positions *)
Lemma all_positions (labels : list L) :
  np_sort (np_unique label_le labels ≫= fun c =>
     filter (fun i => labels !! i = Some c) (seq 0 (length labels)))
  = seq 0 (length labels).
Proof.
  apply (Sorted_unique le).
  - apply Sorted_merge_sort; apply _.
  - apply seq_Sorted_le.
  - unfold np_sort. rewrite merge_sort_Permutation.
    apply NoDup_Permutation.
    + apply NoDup_bind.
      * intros c1 c2 i _ _ H1%positions_elem H2%positions_elem. congruence.
      * intros c _. apply positions_NoDup.
      * apply np_unique_NoDup.
    + apply NoDup_seq.
    + intros i. rewrite list_elem_of_bind, elem_of_seq. split.
      * intros (c & Hi%positions_elem & _). apply lookup_lt_Some in Hi. lia.
      * intros [_ Hi]. destruct (lookup_lt_is_Some_2 labels i ltac:(lia)) as [c Hc].
        exists c. split; [by apply positions_elem|].
        apply np_unique_elem. by eapply list_elem_of_lookup_2.
Qed.

(** an input whose classes all have one size comes back whole *)
Lemma balance_balanced {E Grp : Type} (g : G)
    (epochs : list E) (labels : list L) (groups : option (list Grp)) :
  labels <> [] ->
  length epochs = length labels ->
  (forall grp, groups = Some grp -> length grp = length labels) ->
  (forall c c', c ∈ labels -> c' ∈ labels ->
     class_count labels c = class_count labels c') ->
  balance_epoch_nums shuffle label_le g epochs labels groups
  = (inr (epochs, labels, groups), g).
Proof.
  intros Hne Hlen Hgrp Hbal. unfold balance_epoch_nums.
  rewrite (selected_indices_balanced shuffle label_le labels g (length epochs))
    by (done || lia).
  rewrite all_positions.
  rewrite <- Hlen at 1. rewrite take_indices_all by (by destruct epochs, labels).
  rewrite take_indices_all by done.
  destruct groups as [grp|]; [|done].
  rewrite <- (Hgrp grp eq_refl).
  rewrite take_indices_all; [done|].
  specialize (Hgrp grp eq_refl). by destruct grp, labels.
Qed.

Context (Hperm : shuffle_permutes shuffle).

(** what a run on paired, non-empty input returns *)
Lemma balance_outcome {E Grp : Type} (g : G)
    (epochs : list E) (labels : list L) (groups : option (list Grp)) :
  labels <> [] ->
  length epochs = length labels ->
  (forall grp, groups = Some grp -> length grp = length labels) ->
  exists m sel g' es ls gs,
    balance_epoch_nums shuffle label_le g epochs labels groups
      = (inr (es, ls, gs), g') /\
    (0 < m)%nat /\ sel <> [] /\ Sorted le sel /\ NoDup sel /\
    (forall c, c ∈ labels ->
       length (filter (fun i => labels !! i = Some c) sel) = m) /\
    Forall2 (fun i e => epochs !! i = Some e) sel es /\
    Forall2 (fun i l => labels !! i = Some l) sel ls /\
    match groups with
    | None => gs = None
    | Some grp => exists gs', gs = Some gs' /\
                    Forall2 (fun i x => grp !! i = Some x) sel gs'
    end.
Proof.
  intros Hne Hlen Hgrp.
  destruct (selected_indices_spec shuffle label_le Hperm g labels Hne)
    as (m & sel & g' & Hsel & Hm & Hmin & Hwit & Hsorted & Hnd & Hin & Hcnt).
  assert (forall i, i ∈ sel -> (i < length labels)%nat) as Hlt.
  { intros i Hi. destruct (Hin i Hi) as (c & _ & Hl). by apply lookup_lt_Some in Hl. }
  assert (sel <> []) as Hsel_ne.
  { destruct Hwit as (c & Hc & _). specialize (Hcnt c Hc).
    intros ->. cbn in Hcnt. lia. }
  unfold balance_epoch_nums. rewrite Hlen, Hsel.
  destruct (take_indices_ok epochs sel Hsel_ne) as (es & -> & Hes).
  { intros i Hi. rewrite Hlen. by apply Hlt. }
  destruct (take_indices_ok labels sel Hsel_ne Hlt) as (ls & -> & Hls).
  destruct groups as [grp|].
  - destruct (take_indices_ok grp sel Hsel_ne) as (gs & -> & Hgs).
    { intros i Hi. rewrite (Hgrp grp eq_refl). by apply Hlt. }
    exists m, sel, g', es, ls, (Some gs). repeat split; try done. by exists gs.
  - by exists m, sel, g', es, ls, None.
Qed.
End BalanceOutcome.

(** X6.  [mask_to_ind] returns the positions at which the mask is true, each
    once and in increasing order; there are as many as the mask has true
    entries. *)
Theorem mask_to_ind_positions (mask : list bool) :
  StronglySorted lt (mask_to_ind mask) /\
  (forall i, i ∈ mask_to_ind mask <-> mask !! i = Some true) /\
  length (mask_to_ind mask) = np_sum mask.
Proof.
  unfold mask_to_ind, arange_at. split; [|split].
  - assert (forall j n, StronglySorted lt (seq j n)) as Hseq.
    { intros j n. revert j. induction n as [|n IH]; intros j; [constructor|].
      cbn. constructor; [apply IH|].
      apply Forall_forall. intros i Hi%elem_of_seq. lia. }
    generalize (Hseq 0%nat (length mask)). generalize (seq 0 (length mask)).
    intros l Hl. induction Hl as [|x l Hl IH Hx]; [constructor|].
    destruct (decide (mask !! x = Some true)) as [Hm|Hm].
    + rewrite filter_cons_True by done. constructor; [done|].
      apply Forall_forall. intros i [_ Hi]%list_elem_of_filter.
      rewrite Forall_forall in Hx. by apply Hx.
    + by rewrite filter_cons_False.
  - intros i. apply (positions_elem mask true i).
  - apply (positions_length mask true).
Qed.

(** X7.  On paired input the balancing step fails exactly when the input is
    empty: it then raises [IndexError] (the empty index list is an array of
    floats) and leaves the generator as it found it. *)
Theorem balancing_fails_on_empty_only
    {G L E Grp : Type} `{EqDecision L}
    (shuffle : G -> list nat -> list nat * G)
    (label_le : relation L) `{!RelDecision label_le}
    (g : G) (epochs : list E) (labels : list L) (groups : option (list Grp)) :
  shuffle_permutes shuffle ->
  length epochs = length labels ->
  (forall grp, groups = Some grp -> length grp = length labels) ->
  (labels = [] ->
     balance_epoch_nums shuffle label_le g epochs labels groups
     = (inl IndexError, g)) /\
  (labels <> [] ->
     exists r, fst (balance_epoch_nums shuffle label_le g epochs labels groups) = inr r).
Proof.
  intros Hperm Hlen Hgrp. split.
  - intros ->. destruct epochs; [|done]. reflexivity.
  - intros Hne.
    destruct (balance_outcome shuffle label_le Hperm g epochs labels groups Hne Hlen Hgrp)
      as (m & sel & g' & es & ls & gs & -> & _).
    by eexists.
Qed.

Lemma balancing_fails_on_empty_only_witness :
  balance_epoch_nums Tape.tape_shuffle Z.le [3%nat] (@nil string) [] (@None (list nat))
  = (inl IndexError, [3%nat]) /\
  exists r, fst (balance_epoch_nums Tape.tape_shuffle Z.le [0%nat; 1%nat]
                   demo_epochs demo_labels (Some demo_groups)) = inr r.
Proof.
  split.
  - apply (balancing_fails_on_empty_only Tape.tape_shuffle Z.le [3%nat]
             (@nil string) [] (@None (list nat)) tape_shuffle_permutes eq_refl);
      [discriminate|reflexivity].
  - apply (balancing_fails_on_empty_only Tape.tape_shuffle Z.le [0%nat; 1%nat]
             demo_epochs demo_labels (Some demo_groups) tape_shuffle_permutes eq_refl);
      [by intros grp [= <-]|discriminate].
Defined.

(** X8.  When every class of a paired, non-empty input has the same number
    of examples, the balancing step returns epochs, labels and groups
    exactly as given and does not touch the generator. *)
Theorem balanced_input_is_returned
    {G L E Grp : Type} `{EqDecision L}
    (shuffle : G -> list nat -> list nat * G)
    (label_le : relation L) `{!RelDecision label_le}
    (g : G) (epochs : list E) (labels : list L) (groups : option (list Grp)) :
  labels <> [] ->
  length epochs = length labels ->
  (forall grp, groups = Some grp -> length grp = length labels) ->
  (forall c c', c ∈ labels -> c' ∈ labels ->
     class_count labels c = class_count labels c') ->
  balance_epoch_nums shuffle label_le g epochs labels groups
  = (inr (epochs, labels, groups), g).
Proof. apply balance_balanced. Qed.

Lemma balanced_input_is_returned_witness :
  balance_epoch_nums Tape.tape_shuffle Z.le [5%nat]
    ["a"; "b"; "c"; "d"]%string [2; 1; 1; 2] (Some [7; 7; 8; 8]%nat)
  = (inr (["a"; "b"; "c"; "d"]%string, [2; 1; 1; 2], Some [7; 7; 8; 8]%nat), [5%nat]).
Proof.
  apply (balanced_input_is_returned Tape.tape_shuffle Z.le).
  - discriminate.
  - reflexivity.
  - by intros grp [= <-].
  - intros c c' Hc Hc'.
    assert (forall x, x ∈ [2; 1; 1; 2] -> x = 1 \/ x = 2) as Hx.
    { intros x Hin. repeat (apply elem_of_cons in Hin as [->|Hin]; [auto|]).
      by apply elem_of_nil in Hin. }
    destruct (Hx c Hc) as [-> | ->], (Hx c' Hc') as [-> | ->]; reflexivity.
Defined.

(** X9.  Balancing is idempotent: what one run returns on a paired,
    non-empty input, a second run returns unchanged, from any generator
    state and without touching it. *)
Theorem balancing_is_idempotent
    {G L E Grp : Type} `{EqDecision L}
    (shuffle : G -> list nat -> list nat * G)
    (label_le : relation L) `{!RelDecision label_le}
    (g g2 : G) (epochs : list E) (labels : list L) (groups : option (list Grp))
    (es : list E) (ls : list L) (gs : option (list Grp)) :
  shuffle_permutes shuffle ->
  labels <> [] ->
  length epochs = length labels ->
  (forall grp, groups = Some grp -> length grp = length labels) ->
  fst (balance_epoch_nums shuffle label_le g epochs labels groups) = inr (es, ls, gs) ->
  balance_epoch_nums shuffle label_le g2 es ls gs = (inr (es, ls, gs), g2).
Proof.
  intros Hperm Hne Hlen Hgrp Hrun.
  destruct (balance_outcome shuffle label_le Hperm g epochs labels groups Hne Hlen Hgrp)
    as (m & sel & g' & es' & ls' & gs' & Heq & Hm & Hsel & _ & _ & Hcnt & Hes & Hls & Hgs).
  rewrite Heq in Hrun. cbn in Hrun. injection Hrun as -> -> ->.
  assert (forall c, c ∈ ls -> c ∈ labels) as Hsub.
  { intros c Hc. apply list_elem_of_lookup in Hc as [k Hk].
    destruct (Forall2_lookup_r _ _ _ _ _ Hls Hk) as (i & _ & Hi).
    by eapply list_elem_of_lookup_2. }
  apply balance_balanced.
  - intros ->. apply Forall2_nil_inv_r in Hls. done.
  - rewrite <- (Forall2_length _ _ _ Hes). by apply Forall2_length in Hls.
  - intros grp ->. destruct groups as [grp0|]; [|done].
    destruct Hgs as (gs' & [= <-] & Hgs).
    rewrite <- (Forall2_length _ _ _ Hgs). by apply Forall2_length in Hls.
  - intros c c' Hc%Hsub Hc'%Hsub.
    rewrite !(class_count_taken labels ls sel _ Hls). by rewrite !Hcnt.
Qed.

Lemma balancing_is_idempotent_witness :
  fst (balance_epoch_nums Tape.tape_shuffle Z.le [0%nat; 1%nat]
         demo_epochs demo_labels (Some demo_groups))
  = inr (["b"; "c"]%string, [1; 2], Some [11; 12]%nat) /\
  balance_epoch_nums Tape.tape_shuffle Z.le [1%nat]
    ["b"; "c"]%string [1; 2] (Some [11; 12]%nat)
  = (inr (["b"; "c"]%string, [1; 2], Some [11; 12]%nat), [1%nat]).
Proof.
  split; [reflexivity|].
  apply (balancing_is_idempotent Tape.tape_shuffle Z.le [0%nat; 1%nat] [1%nat]
           demo_epochs demo_labels (Some demo_groups)).
  - exact tape_shuffle_permutes.
  - discriminate.
  - reflexivity.
  - by intros grp [= <-].
  - reflexivity.
Defined.

(** X10.  Balancing keeps the order of the input: the epochs, labels and
    groups it returns are sublists of those it was given. *)
Theorem balancing_keeps_order
    {G L E Grp : Type} `{EqDecision L}
    (shuffle : G -> list nat -> list nat * G)
    (label_le : relation L) `{!RelDecision label_le}
    (g : G) (epochs : list E) (labels : list L) (groups : option (list Grp))
    (es : list E) (ls : list L) (gs : option (list Grp)) :
  shuffle_permutes shuffle ->
  labels <> [] ->
  length epochs = length labels ->
  (forall grp, groups = Some grp -> length grp = length labels) ->
  fst (balance_epoch_nums shuffle label_le g epochs labels groups) = inr (es, ls, gs) ->
  es `sublist_of` epochs /\ ls `sublist_of` labels /\
  match groups, gs with
  | Some grp, Some gs' => gs' `sublist_of` grp
  | None, None => True
  | _, _ => False
  end.
Proof.
  intros Hperm Hne Hlen Hgrp Hrun.
  destruct (balance_outcome shuffle label_le Hperm g epochs labels groups Hne Hlen Hgrp)
    as (m & sel & g' & es' & ls' & gs' & Heq & _ & _ & Hs & Hnd & _ & Hes & Hls & Hgs).
  rewrite Heq in Hrun. cbn in Hrun. injection Hrun as -> -> ->.
  split; [by eapply sorted_indices_sublist|].
  split; [by eapply sorted_indices_sublist|].
  destruct groups as [grp|]; [|by subst].
  destruct Hgs as (gs' & -> & Hgs). by eapply sorted_indices_sublist.
Qed.

Lemma balancing_keeps_order_witness :
  ["b"; "c"]%string `sublist_of` demo_epochs /\ [1; 2] `sublist_of` demo_labels /\
  [11; 12]%nat `sublist_of` demo_groups.
Proof.
  apply (balancing_keeps_order Tape.tape_shuffle Z.le [0%nat; 1%nat]
           demo_epochs demo_labels (Some demo_groups)
           ["b"; "c"]%string [1; 2] (Some [11; 12]%nat)).
  - exact tape_shuffle_permutes.
  - discriminate.
  - reflexivity.
  - by intros grp [= <-].
  - reflexivity.
Defined.

(** ** Validation and the feature extractor *)

(** X11.  Validation is idempotent: the pair it returns passes validation
    again, unchanged. *)
Theorem validation_is_idempotent (ft ft' : FeatureType) (ct ct' : ClassifierType) :
  validate_feature_classifier_pair ft ct = inr (ft', ct') ->
  validate_feature_classifier_pair ft' ct' = inr (ft', ct').
Proof.
  destruct ct as [| |name], ft; cbn; intros H; try discriminate H;
    injection H as <- <-; reflexivity.
Qed.

Lemma validation_is_idempotent_witness :
  validate_feature_classifier_pair RAW EEG_NET = inr (RAW, EEG_NET).
Proof. apply (validation_is_idempotent HUGINES RAW EEG_NET EEG_NET). reflexivity. Defined.

(** X12.  [get_feature_extractor] fails in exactly two cases: with
    [NotImplementedError] for the feature type USER_PIPELINE, and with
    [AssertionError] for a frequency-domain feature type when no sampling
    frequency is given.  The scale and norm flags never make it fail. *)
Theorem feature_extractor_failures {Info Kwargs : Type}
    (ft : FeatureType) (fs : option Q) (scale norm : bool)
    (info : option Info) (kwargs : Kwargs) :
  (get_feature_extractor ft fs scale norm info kwargs = inl NotImplementedError
   <-> ft = USER_PIPELINE) /\
  (get_feature_extractor ft fs scale norm info kwargs = inl AssertionError
   <-> ft ∈ fft_features /\ fs = None) /\
  (forall e, get_feature_extractor ft fs scale norm info kwargs = inl e ->
     e = NotImplementedError \/ e = AssertionError).
Proof.
  assert (forall x, x ∈ fft_features <-> x = AVG_FFT_POWER \/ x = FFT_RANGE \/ x = MULTI_AVG_FFT_POW)
    as Hfft.
  { intros x. unfold fft_features. rewrite !elem_of_cons, elem_of_nil. tauto. }
  rewrite Hfft.
  destruct ft, fs as [q|], scale, norm, info as [i|]; cbn;
    (split; [split; [intros [=]|intros [=]]; done|]);
    (split; [split; [intros [=]; auto|intros [H1 H2]; try discriminate H2;
                     try (destruct H1 as [H1|[H1|H1]]; discriminate H1); done]|]);
    intros e [= <-]; auto.
Qed.

(** X13.  The pipeline that [get_feature_extractor] builds has one to three
    steps.  The conversion to microvolts is in it exactly when [scale] is
    set, and then comes first; a scaler is in it exactly when [norm] is set
    and, for RAW features, an [info] is given, and then comes last (the
    scaler of mne for RAW, the standard scaler otherwise).  So [norm] is
    dropped without a word for RAW features without [info]. *)
Theorem feature_extractor_pipeline {Info Kwargs : Type}
    (ft : FeatureType) (fs : option Q) (scale norm : bool)
    (info : option Info) (kwargs : Kwargs) (steps : list (Step Info Kwargs)) :
  get_feature_extractor ft fs scale norm info kwargs = inr steps ->
  (1 <= length steps <= 3)%nat /\
  (ToMicroVolt ∈ steps <-> scale = true) /\
  (scale = true -> head steps = Some ToMicroVolt) /\
  let normed := norm && (negb (bool_decide (ft = RAW)) || bool_decide (is_Some info)) in
  (existsb is_scaler steps = normed) /\
  (normed = true ->
     last steps = Some (match ft, info with
                        | RAW, Some i => MneScaler i
                        | _, _ => StandardScaler
                        end)) /\
  length (filter (fun s => is_feature_step s = true) steps) = 1%nat.
Proof.
  destruct ft, fs as [q|], scale, norm, info as [i|]; cbn;
    intros H; try discriminate H; injection H as <-; cbn;
    repeat split; try done; try lia;
    try (intros Hin; repeat (apply elem_of_cons in Hin as [Hin|Hin]; [discriminate Hin|]);
         by apply elem_of_nil in Hin);
    try (intros _; by left).
Qed.

Lemma feature_extractor_pipeline_witness :
  get_feature_extractor (Info := unit) RAW None true true None tt
    = inr [ToMicroVolt; Passthrough] /\
  existsb is_scaler [ToMicroVolt; @Passthrough unit unit] = false.
Proof.
  split; [reflexivity|].
  apply (proj1 (proj2 (proj2 (proj2
    (feature_extractor_pipeline (Info := unit) RAW None true true None tt _ eq_refl))))).
Defined.

(** X14.  After validation the extractor is never unimplemented: for a pair
    that validation returns, [get_feature_extractor] succeeds whenever a
    sampling frequency is given, and for the deep sequence classifier also
    without one; it fails, with [AssertionError], only for the voting
    classifier without a sampling frequency. *)
Theorem validated_pair_has_extractor {Info Kwargs : Type}
    (ft ft' : FeatureType) (ct ct' : ClassifierType) (fs : option Q)
    (scale norm : bool) (info : option Info) (kwargs : Kwargs) :
  validate_feature_classifier_pair ft ct = inr (ft', ct') ->
  match get_feature_extractor ft' fs scale norm info kwargs with
  | inr steps => True
  | inl e => e = AssertionError /\ ct = VOTING_SVM /\ fs = None
  end /\
  (ct = EEG_NET ->
     exists steps, get_feature_extractor ft' fs scale norm info kwargs = inr steps /\
                   Passthrough ∈ steps).
Proof.
  destruct ct as [| |name], ft; cbn; intros H; try discriminate H;
    injection H as <- <-;
    (split; [destruct fs as [q|], scale, norm, info as [i|]; cbn; done|]);
    intros Hct; try discriminate Hct;
    destruct scale, norm, info as [i|]; cbn; eexists; (split; [reflexivity|]);
    repeat first [by left | right].
Qed.

Lemma validated_pair_has_extractor_witness :
  exists steps,
    get_feature_extractor (Info := unit) RAW None true false None tt = inr steps /\
    Passthrough ∈ steps.
Proof.
  apply (proj2 (validated_pair_has_extractor (Info := unit)
                  FFT_RANGE RAW EEG_NET EEG_NET None true false None tt eq_refl)).
  reflexivity.
Defined.

(** X15.  [generate_features] never raises [NotImplementedError] of its own:
    a user pipeline is used as it is, without the scaling step and whatever
    the other arguments say, and every other feature type has an extractor.
    What it raises itself is an [AssertionError], for USER_PIPELINE without a
    pipeline or a frequency-domain feature without a sampling frequency;
    everything else comes out of [fit_transform]. *)
Theorem generate_features_outcomes {Info Kwargs X P : Type}
    (fit_transform_user : P -> X -> result X)
    (fit_transform : list (Step Info Kwargs) -> X -> result X)
    (x : X) (fs : option Q) (f_type : FeatureType) (scale norm : bool)
    (info : option Info) (pipeline : option P) (kwargs : Kwargs) :
  let run := generate_features fit_transform_user fit_transform
               x fs f_type scale norm info pipeline kwargs in
  (f_type = USER_PIPELINE ->
     run = match pipeline with
           | None => inl AssertionError
           | Some p => fit_transform_user p x
           end) /\
  (f_type <> USER_PIPELINE ->
     (f_type ∈ fft_features /\ fs = None /\ run = inl AssertionError) \/
     (exists steps,
        get_feature_extractor f_type fs scale norm info kwargs = inr steps /\
        run = fit_transform steps x)).
Proof.
  intros run. subst run. unfold generate_features. split.
  - intros ->. reflexivity.
  - intros Hne. rewrite bool_decide_false by done.
    destruct (feature_extractor_failures f_type fs scale norm info kwargs)
      as (Hni & Has & Hall).
    destruct (get_feature_extractor f_type fs scale norm info kwargs) as [e|steps] eqn:E.
    + left. destruct (Hall e eq_refl) as [-> | ->].
      * exfalso. apply Hne. by apply Hni.
      * destruct (proj1 Has eq_refl) as [H1 H2]. done.
    + right. by exists steps.
Qed.

(** ** More on [BCISystem] *)

(** X16.  The first call of [_init_db_processor] decides: whether it
    succeeds or fails, the object has a processor afterwards, and every later
    call returns normally and changes nothing, whatever database name and
    arguments it is given.  After a call that failed on an unknown name the
    processor has no database, and a later call with a known name does not
    select one. *)
Theorem init_db_processor_first_call_wins (self : BCISystem) (db_name : string)
    (epoch_tmin epoch_tmax : Q) (use_drop_subject_list fast_load : bool) :
  let '(r1, self1) := _init_db_processor self db_name epoch_tmin epoch_tmax
                        use_drop_subject_list fast_load in
  is_Some (_proc self1) /\
  (forall db_name' tmin' tmax' drop' fast',
     _init_db_processor self1 db_name' tmin' tmax' drop' fast' = (inr tt, self1)) /\
  (_proc self = None -> db_name <> "physionet"%string -> db_name <> "pilot"%string ->
     r1 = inl NotImplementedError /\
     exists proc, _proc self1 = Some proc /\ proc_db proc = None) /\
  (_proc self = None -> r1 = inr tt ->
     exists proc db, _proc self1 = Some proc /\ proc_db proc = Some db /\
       (db = PhysionetDb <-> db_name = "physionet"%string) /\
       proc_window_length proc = _window_length self /\
       proc_window_step proc = _window_step self).
Proof.
  unfold _init_db_processor.
  destruct (_proc self) as [proc|] eqn:Hproc.
  - split; [by rewrite Hproc|]. split; [intros; by rewrite Hproc|]. split; done.
  - destruct (String.eqb_spec db_name "physionet") as [->|Hn1].
    + cbn. split; [done|]. split; [done|]. split; [done|].
      intros _ _. eexists _, PhysionetDb. by repeat split.
    + destruct (String.eqb_spec db_name "pilot") as [->|Hn2].
      * cbn. split; [done|]. split; [done|]. split; [done|].
        intros _ _. eexists _, PilotDb. repeat split; done.
      * cbn. split; [done|]. split; [done|]. split; [|done].
        intros _ _ _. split; [done|]. by eexists.
Qed.

(** X17.  [offline_processing] saves a model only under the method
    ['trainSVM'], and then cross-validates without the fold number of the
    caller.  An unknown method raises [NotImplementedError] only after the
    preprocessing has run; an unknown database name raises it before
    anything has run, but only if the object has no processor yet. *)
Theorem offline_processing_dispatch (self : BCISystem) (db_name feature method : string)
    (epoch_tmin epoch_tmax : Q) (use_drop_subject_list fast_load : bool)
    (subj_n_fold_num : option Z) :
  let '(r, self', trace) := offline_processing self db_name feature method
        epoch_tmin epoch_tmax use_drop_subject_list fast_load subj_n_fold_num in
  ((exists n, CrossValidate n true ∈ trace) ->
     method = "trainSVM"%string /\ trace = [RunPreprocessing feature; CrossValidate None true]) /\
  (method = "subjectXvalidate"%string -> r = inr tt ->
     trace = [RunPreprocessing feature; CrossValidate subj_n_fold_num false]) /\
  (method <> "subjectXvalidate"%string -> method <> "trainSVM"%string ->
     r = inl NotImplementedError /\
     (trace = [RunPreprocessing feature] \/ (trace = [] /\ _proc self = None))) /\
  (is_Some (_proc self) -> trace <> [] /\ self' = self) /\
  is_Some (_proc self').
Proof.
  unfold offline_processing.
  pose proof (init_db_processor_first_call_wins self db_name epoch_tmin epoch_tmax
                use_drop_subject_list fast_load) as Hinit.
  destruct (_init_db_processor self db_name epoch_tmin epoch_tmax
              use_drop_subject_list fast_load) as [[e|[]] self1] eqn:E.
  - destruct Hinit as (Hsome & _ & _ & _).
    split; [intros [n Hn]; by apply elem_of_nil in Hn|].
    split; [done|]. split.
    + intros _ _. unfold _init_db_processor in E.
      destruct (_proc self) eqn:Hp; [done|].
      repeat case_match; simplify_eq. split; [done|]. by right.
    + split; [|done]. intros [proc Hp]. unfold _init_db_processor in E.
      by rewrite Hp in E.
  - destruct Hinit as (Hsome & _ & _ & _).
    assert (is_Some (_proc self) -> self1 = self) as Hsame.
    { intros [proc Hp]. unfold _init_db_processor in E. rewrite Hp in E. congruence. }
    destruct (String.eqb_spec method "subjectXvalidate") as [->|Hm1].
    + cbn [app]. split.
      { intros [n Hn]. repeat (apply elem_of_cons in Hn as [Hn|Hn]; [discriminate Hn|]).
        by apply elem_of_nil in Hn. }
      split; [done|]. split; [done|]. split; [|done].
      intros Hp. split; [done|]. by apply Hsame.
    + destruct (String.eqb_spec method "trainSVM") as [->|Hm2].
      * cbn [app]. split; [done|]. split; [done|]. split; [done|]. split; [|done].
        intros Hp. split; [done|]. by apply Hsame.
      * split.
        { intros [n Hn]. repeat (apply elem_of_cons in Hn as [Hn|Hn]; [discriminate Hn|]).
          by apply elem_of_nil in Hn. }
        split; [done|]. split; [intros _ _; split; [done|by left]|].
        split; [|done]. intros Hp. split; [done|]. by apply Hsame.
Qed.

Section CrossValidationFacts.
Context {TrainX TrainY TestX TestY Model : Type}.
Context (fit : TrainX -> TrainY -> Model).

#[local] Abbreviation fold_t := (CvFold TrainX TrainY TestX TestY).

Lemma crossvalidate_snoc (folds : list fold_t) (f : fold_t) :
  _subject_crossvalidate fit (folds ++ [f])
  = <[cv_subject f := fit (train_x f) (train_y f)]> (_subject_crossvalidate fit folds).
Proof. unfold _subject_crossvalidate. by rewrite foldl_app. Qed.

Lemma crossvalidate_lookup (folds : list fold_t) (s : Z) :
  _subject_crossvalidate fit folds !! s
  = (fun f => fit (train_x f) (train_y f))
      <$> last (filter (fun f => cv_subject f = s) folds).
Proof.
  induction folds as [|f folds IH] using rev_ind; [done|].
  rewrite crossvalidate_snoc, filter_app.
  destruct (decide (cv_subject f = s)) as [<-|Hne].
  - rewrite lookup_insert_eq, filter_cons_True by done.
    cbn. by rewrite last_snoc.
  - rewrite lookup_insert_ne by done.
    rewrite filter_cons_False by done. cbn. by rewrite app_nil_r.
Qed.
End CrossValidationFacts.

(** a pass raises nothing but the [NotImplementedError] of line 124 *)
Lemma iteration_raises {Window Feat Model Pred Label : Type}
    (np_shape : Window -> list Z) (avg_column : Window -> Feat)
    (predict : Model -> Feat -> Pred)
    (p : Params) (svm : Model) (sleep_time : Q)
    (st : LoopState (Pred := Pred) (Label := Label)) (tk : Tick) (e : PyError) :
  iteration np_shape avg_column predict p svm sleep_time st tk = inl e ->
  e = NotImplementedError /\
  feature p <> "avg_column"%string /\
  too_short np_shape p (eeg_data tk) = false.
Proof.
  unfold iteration.
  destruct (too_short np_shape p (eeg_data tk)); [done|].
  destruct (String.eqb_spec (feature p) "avg_column") as [Hf|Hf]; [done|].
  by intros [= <-].
Qed.

(** when the passes over the next readings raise while the sender is alive,
    the loop raises, given fuel for them *)
Lemma online_while_fails {Window Feat Model Pred Label : Type}
    (np_shape : Window -> list Z) (avg_column : Window -> Feat)
    (predict : Model -> Feat -> Pred)
    (ticks : nat -> Tick (Window := Window) (Label := Label))
    (n fuel : nat) (p : Params) (svm : Model) (sleep_time : Q)
    (ds : option (nat -> bool)) (k : nat)
    (st : LoopState (Pred := Pred) (Label := Label)) (e : PyError) :
  (n <= fuel)%nat ->
  (forall i, (i < n)%nat -> goes_on ds (k + i) = true) ->
  online_loop np_shape avg_column predict p svm sleep_time st (ticks <$> seq k n) = inl e ->
  exists outs,
    online_while np_shape avg_column predict ticks fuel p svm sleep_time ds k st
    = (Raised e, outs).
Proof.
  revert fuel k st. induction n as [|n IH]; intros fuel k st Hf Ha; [done|].
  cbn [seq fmap list_fmap online_loop].
  destruct fuel as [|fuel]; [lia|]. cbn [online_while].
  replace (goes_on ds k) with true
    by (symmetry; rewrite <- (Nat.add_0_r k); apply Ha; lia).
  destruct (iteration _ _ _ _ _ _ _ _) as [e'|[st1 o]] eqn:Hit.
  - intros [= <-]. by eexists.
  - destruct (online_loop _ _ _ _ _ _ st1 _) as [e'|[st2 os]] eqn:Hr; [|done].
    intros [= <-].
    destruct (IH fuel (S k) st1) as [outs Houts]; [lia| |exact Hr|].
    + intros i Hi. replace (S k + i)%nat with (k + S i)%nat by lia. apply Ha. lia.
    + rewrite Houts. by eexists.
Qed.

(** X18.  The model map that [_subject_crossvalidate] builds has exactly the
    subjects of the folds as keys; under each it holds the classifier fitted
    on the training data of the last fold of that subject.  When
    [online_processing] gets past its database set-up and what it loads is
    this map, it raises [KeyError] exactly for the subjects that no fold
    named. *)
Theorem crossvalidate_model_map
    {TrainX TrainY TestX TestY Model Window Feat Pred Label : Type}
    (fit : TrainX -> TrainY -> Model)
    (folds : list (CvFold TrainX TrainY TestX TestY))
    (np_shape : Window -> list Z) (avg_column : Window -> Feat)
    (predict : Model -> Feat -> Pred)
    (load_ai_model : BCISystem -> string -> result (gmap Z Model)) (dsp_fs : Q)
    (ticks : nat -> Tick (Window := Window) (Label := Label))
    (fuel : nat) (self : BCISystem) (db_name : string)
    (feature : string) (get_real_labels : bool) (data_sender : option (nat -> bool))
    (s : Z) :
  let ai_model := _subject_crossvalidate fit folds in
  (is_Some (ai_model !! s) <-> s ∈ cv_subject <$> folds) /\
  (forall k f, folds !! k = Some f -> cv_subject f = s ->
     (forall k' f', (k < k')%nat -> folds !! k' = Some f' -> cv_subject f' <> s) ->
     ai_model !! s = Some (fit (train_x f) (train_y f))) /\
  (fst (_init_db_processor self db_name 0 3 true true) = inr tt ->
   load_ai_model (snd (_init_db_processor self db_name 0 3 true true)) feature
   = inr ai_model ->
   (fst (fst (online_processing np_shape avg_column predict load_ai_model dsp_fs ticks
                fuel self db_name s feature get_real_labels data_sender))
    = Raised KeyError
    <-> s ∉ cv_subject <$> folds)).
Proof.
  intros ai_model. subst ai_model.
  assert (is_Some (_subject_crossvalidate fit folds !! s) <-> s ∈ cv_subject <$> folds)
    as Hkeys.
  { rewrite crossvalidate_lookup, fmap_is_Some, list_elem_of_fmap. split.
    - intros [f Hf]. apply last_Some_elem_of in Hf.
      apply list_elem_of_filter in Hf as [<- Hf]. by exists f.
    - intros (f & -> & Hf).
      assert (f ∈ filter (fun f' => cv_subject f' = cv_subject f) folds) as Hin
        by (by apply list_elem_of_filter).
      destruct (filter _ folds) as [|f0 l] using rev_ind;
        [by apply elem_of_nil in Hin|].
      rewrite last_snoc. by eexists. }
  split; [exact Hkeys|]. split.
  - intros k f Hk Hs Hlater. rewrite crossvalidate_lookup.
    rewrite <- (take_drop_middle folds k f Hk), filter_app.
    rewrite filter_cons_True by done.
    rewrite (filter_none _ (drop (S k) folds)).
    + by rewrite last_snoc.
    + intros f' Hf'. apply list_elem_of_lookup in Hf' as [j Hj].
      rewrite lookup_drop in Hj. apply (Hlater (S k + j)%nat); [lia|done].
  - intros Hinit Hload.
    pose proof (online_processing_stages np_shape avg_column predict load_ai_model
                  dsp_fs ticks fuel self db_name s feature get_real_labels
                  data_sender) as Hst.
    cbv zeta in Hst. rewrite Hinit, Hload in Hst.
    destruct (_subject_crossvalidate fit folds !! s) as [svm|] eqn:Hl.
    + split; [|intros Hn; exfalso; apply Hn, Hkeys; by eexists].
      destruct (Qeq_bool dsp_fs 0); [by rewrite Hst|].
      rewrite Hst. cbn [fst].
      destruct (online_while _ _ _ _ _ _ _ _ _ _ _) as [r0 outs0] eqn:Hw.
      cbn [fst]. destruct r0 as [st'|e|]; [done| |done]. intros [= ->].
      destruct (online_while_spec _ _ _ _ _ _ _ _ _ _ _ _ _ Hw)
        as (_ & _ & st1 & _ & _ & _ & Hit).
      by apply iteration_raises in Hit as [? _].
    + rewrite Hst. split; [|done]. intros _ Hin. apply Hkeys in Hin as [? ?]. done.
Qed.

Lemma crossvalidate_model_map_witness :
  fst (fst (online_processing (fun sh : list Z => sh) (fun _ => tt)
              (fun (_ : unit) (_ : unit) => 1%nat)
              (fun _ _ => inr (_subject_crossvalidate (fun _ _ => tt) [demo_fold]))
              160 demo_reading 10 (BCISystem_init "" 1 (1 # 4)) "pilot" 5
              "avg_column" true demo_sender))
  = Raised KeyError.
Proof.
  apply (proj2 (proj2 (crossvalidate_model_map (fun _ _ => tt) [demo_fold]
           (fun sh : list Z => sh) (fun _ => tt) (fun (_ : unit) (_ : unit) => 1%nat)
           (fun _ _ => inr (_subject_crossvalidate (fun _ _ => tt) [demo_fold]))
           160 demo_reading 10 (BCISystem_init "" 1 (1 # 4)) "pilot"
           "avg_column" true demo_sender 5)) eq_refl eq_refl).
  intros Hin. apply list_elem_of_fmap in Hin as (f & Hf & Hin).
  apply list_elem_of_singleton in Hin as ->. discriminate Hf.
Defined.

Section OnlineOutput.
Context {Window Feat Model Pred Label : Type}.
Context (np_shape : Window -> list Z).
Context (avg_column : Window -> Feat).
Context (predict : Model -> Feat -> Pred).

(** with the feature ['avg_column'] the loop appends, for each window that is
    long enough and in order, the prediction and the label of that pass *)
Lemma online_loop_output (p : Params) (svm : Model) (sleep_time : Q)
    (st : LoopState (Pred := Pred) (Label := Label)) (ticks : list Tick) :
  feature p = "avg_column"%string ->
  exists st' outs,
    online_loop np_shape avg_column predict p svm sleep_time st ticks = inr (st', outs) /\
    y_preds st' = y_preds st ++
      ((fun tk => predict svm (avg_column (eeg_data tk)))
         <$> filter (fun tk => too_short np_shape p (eeg_data tk) = false) ticks) /\
    y_real st' = y_real st ++
      ((fun tk => if get_real_labels p then eeg_label tk else label st)
         <$> filter (fun tk => too_short np_shape p (eeg_data tk) = false) ticks).
Proof.
  intros Hf. revert st. induction ticks as [|tk rest IH]; intros st.
  - exists st, []. cbn. by rewrite !app_nil_r.
  - cbn [online_loop]. unfold iteration. rewrite Hf, String.eqb_refl.
    destruct (too_short np_shape p (eeg_data tk)) eqn:Hts;
      cbv [ret raise]; cbv beta iota.
    + match goal with
      | |- context [online_loop _ _ _ _ _ _ ?s rest] =>
          destruct (IH s) as (st' & outs & -> & Hp & Hr)
      end.
      exists st', (Underrun :: outs). split; [done|].
      rewrite filter_cons_False by (by rewrite Hts).
      cbn in Hp, Hr. split; [done|]. rewrite Hr. f_equal.
      apply list_fmap_ext. intros _ tk' _. by destruct (get_real_labels p).
    + match goal with
      | |- context [online_loop _ _ _ _ _ _ ?s rest] =>
          destruct (IH s) as (st' & outs & -> & Hp & Hr)
      end.
      eexists st', (_ :: outs). split; [done|].
      rewrite filter_cons_True by done.
      cbn in Hp, Hr. rewrite Hp, Hr, <- !app_assoc. split; [done|].
      cbn. do 2 f_equal.
      apply list_fmap_ext. intros _ tk' _. by destruct (get_real_labels p).
Qed.

(** another feature than ['avg_column'] and one window long enough: the
    loop raises *)
Lemma online_loop_unknown_feature (p : Params) (svm : Model) (sleep_time : Q)
    (st : LoopState (Pred := Pred) (Label := Label)) (ticks : list Tick) (tk : Tick) :
  feature p <> "avg_column"%string ->
  tk ∈ ticks -> too_short np_shape p (eeg_data tk) = false ->
  online_loop np_shape avg_column predict p svm sleep_time st ticks
  = inl NotImplementedError.
Proof.
  intros Hf Hin Hts. revert st. induction ticks as [|tk' rest IH]; intros st.
  - by apply elem_of_nil in Hin.
  - cbn [online_loop]. unfold iteration.
    destruct (too_short np_shape p (eeg_data tk')) eqn:Hts'.
    + apply elem_of_cons in Hin as [->|Hin]; [congruence|].
      cbv [ret raise]; cbv beta iota. by rewrite (IH Hin).
    + by destruct (String.eqb_spec (feature p) "avg_column").
Qed.
End OnlineOutput.

(** with the feature ['avg_column'] the loop never raises: within its fuel
    it returns or is still looping *)
Lemma online_while_avg_column {Window Feat Model Pred Label : Type}
    (np_shape : Window -> list Z) (avg_column : Window -> Feat)
    (predict : Model -> Feat -> Pred)
    (ticks : nat -> Tick (Window := Window) (Label := Label))
    (fuel : nat) (p : Params) (svm : Model) (sleep_time : Q)
    (ds : option (nat -> bool)) (k : nat)
    (st : LoopState (Pred := Pred) (Label := Label)) (e : PyError)
    (outs : list (Outcome (Pred := Pred))) :
  feature p = "avg_column"%string ->
  online_while np_shape avg_column predict ticks fuel p svm sleep_time ds k st
  <> (Raised e, outs).
Proof.
  intros Hf Hw.
  destruct (online_while_spec _ _ _ _ _ _ _ _ _ _ _ _ _ Hw)
    as (_ & _ & st1 & _ & _ & _ & Hit).
  by apply iteration_raises in Hit as (_ & ? & _).
Qed.

(** X19.  With the database set up, a model loaded for the subject, a
    sampling rate other than zero and the feature ['avg_column'],
    [online_processing] with a data sender that is alive for [n] passes and
    then found dead returns: for the windows that are long enough and in
    their order, the prediction of the classifier on the column average of
    each, and beside each the label the acquisition source gave in the same
    pass ([None] when real labels are switched off).  Windows that are too
    short leave no trace in either list.  Before the sender is found dead the
    call is still in its loop, and without a data sender it never leaves it. *)
Theorem online_processing_output
    {Window Feat Model Pred Label : Type}
    (np_shape : Window -> list Z) (avg_column : Window -> Feat)
    (predict : Model -> Feat -> Pred)
    (load_ai_model : BCISystem -> string -> result (gmap Z Model)) (dsp_fs : Q)
    (ticks : nat -> Tick (Window := Window) (Label := Label))
    (self : BCISystem) (db_name : string) (subject : Z) (get_real_labels : bool)
    (ai_model : gmap Z Model) (svm : Model) (is_alive : nat -> bool) (n : nat) :
  let self' := snd (_init_db_processor self db_name 0 3 true true) in
  let p := {| window_length_s := _window_length self'; feature := "avg_column";
              get_real_labels := get_real_labels; fs := dsp_fs |} in
  let run fuel data_sender :=
    online_processing np_shape avg_column predict load_ai_model dsp_fs ticks
      fuel self db_name subject "avg_column" get_real_labels data_sender in
  let long_enough :=
    filter (fun tk => too_short np_shape p (eeg_data tk) = false) (ticks <$> seq 0 n) in
  fst (_init_db_processor self db_name 0 3 true true) = inr tt ->
  load_ai_model self' "avg_column" = inr ai_model ->
  ai_model !! subject = Some svm ->
  Qeq_bool dsp_fs 0 = false ->
  (forall i, (i < n)%nat -> is_alive i = true) ->
  is_alive n = false ->
  (forall fuel, (n < fuel)%nat ->
     exists outs,
       run fuel (Some is_alive)
       = (Returned ((fun tk => predict svm (avg_column (eeg_data tk))) <$> long_enough,
                    (fun tk => if get_real_labels then eeg_label tk else None)
                      <$> long_enough),
          self', outs) /\
       length outs = n) /\
  (forall fuel, (fuel <= n)%nat -> fst (fst (run fuel (Some is_alive))) = Looping) /\
  (forall fuel, fst (fst (run fuel None)) = Looping /\
                length (snd (run fuel None)) = fuel).
Proof.
  intros self' p run long_enough Hinit Hload Hm Hfs Halive Hdead.
  assert (forall fuel ds,
            run fuel ds
            = (match fst (online_while np_shape avg_column predict ticks fuel p svm
                            (1 / dsp_fs) ds 0 initial_state) with
               | Returned st => Returned (y_preds st, y_real st)
               | Raised e => Raised e
               | Looping => Looping
               end, self',
               snd (online_while np_shape avg_column predict ticks fuel p svm
                      (1 / dsp_fs) ds 0 initial_state))) as Hrun.
  { intros fuel ds.
    pose proof (online_processing_stages np_shape avg_column predict load_ai_model
                  dsp_fs ticks fuel self db_name subject "avg_column" get_real_labels
                  ds) as Hst.
    cbv zeta in Hst. fold self' in Hst. by rewrite Hinit, Hload, Hm, Hfs in Hst. }
  split; [|split].
  - intros fuel Hfuel.
    destruct (online_loop_output np_shape avg_column predict p svm (1 / dsp_fs)
                initial_state (ticks <$> seq 0 n) eq_refl)
      as (st' & outs & Hloop & Hp & Hr).
    exists outs. rewrite Hrun.
    rewrite (online_while_returns np_shape avg_column predict ticks n fuel p svm
               (1 / dsp_fs) (Some is_alive) 0 initial_state st' outs);
      [|done|intros i Hi; by apply Halive|done|done].
    cbn [fst snd]. cbn in Hp, Hr. rewrite Hp, Hr. split; [done|].
    destruct (online_loop_outcomes _ _ _ _ _ _ _ _ _ _ Hloop) as [-> _].
    by rewrite length_fmap, length_seq.
  - intros fuel Hfuel. rewrite Hrun. cbn [fst].
    destruct (online_while _ _ _ _ _ _ _ _ _ _ _) as [r0 outs0] eqn:Hw. cbn [fst].
    destruct r0 as [st'|e|]; [|by apply online_while_avg_column in Hw|done].
    destruct (online_while_spec _ _ _ _ _ _ _ _ _ _ _ _ _ Hw)
      as (_ & _ & st1 & _ & _ & Hlt & Hd).
    cbn in Hd. rewrite Halive in Hd by lia. done.
  - intros fuel. rewrite Hrun. cbn [fst snd].
    destruct (online_while _ _ _ _ _ _ _ _ _ _ _) as [r0 outs0] eqn:Hw. cbn [fst snd].
    destruct r0 as [st'|e|]; [|by apply online_while_avg_column in Hw|].
    + by destruct (online_while_spec _ _ _ _ _ _ _ _ _ _ _ _ _ Hw)
        as (_ & _ & st1 & _ & _ & _ & Hd).
    + by destruct (online_while_spec _ _ _ _ _ _ _ _ _ _ _ _ _ Hw)
        as (_ & _ & st1 & _ & Hd).
Qed.

Lemma online_processing_output_witness :
  exists outs,
    demo_online 10 true
    = (Returned ([1%nat; 1%nat], [Some 7%nat; Some 7%nat]),
       snd (_init_db_processor (BCISystem_init "" 1 (1 # 4)) "pilot" 0 3 true true),
       outs) /\
    length outs = 3%nat.
Proof.
  destruct (online_processing_output (fun sh : list Z => sh) (fun _ => tt)
              (fun (_ : unit) (_ : unit) => 1%nat) (fun _ _ => inr {[ 4 := tt ]})
              160 demo_reading (BCISystem_init "" 1 (1 # 4)) "pilot" 4 true
              {[ 4 := tt ]} tt (fun k => (k <? 3)%nat) 3) as (Hret & _ & _).
  - reflexivity.
  - reflexivity.
  - by vm_compute.
  - reflexivity.
  - intros i Hi. by apply Nat.ltb_lt.
  - reflexivity.
  - destruct (Hret 10%nat ltac:(lia)) as (outs & Hrun & Hlen).
    exists outs. split; [exact Hrun|exact Hlen].
Defined.

(** X20.  [online_processing] fails in this order.  On an object without a
    processor an unknown database name raises [NotImplementedError] before
    anything else.  Then comes whatever the loading of the models raises;
    then [KeyError], exactly when the loaded map has no entry for the
    subject; then [ZeroDivisionError], exactly when the sampling rate is
    zero.  Inside the loop the only error is the [NotImplementedError] for a
    feature other than ['avg_column'], raised at the first window that is
    long enough, if the data sender is alive until then. *)
Theorem online_processing_failures
    {Window Feat Model Pred Label : Type}
    (np_shape : Window -> list Z) (avg_column : Window -> Feat)
    (predict : Model -> Feat -> Pred)
    (load_ai_model : BCISystem -> string -> result (gmap Z Model)) (dsp_fs : Q)
    (ticks : nat -> Tick (Window := Window) (Label := Label))
    (self : BCISystem) (db_name : string) (subject : Z)
    (feature : string) (get_real_labels : bool) (data_sender : option (nat -> bool)) :
  let init := _init_db_processor self db_name 0 3 true true in
  let self' := snd init in
  let p := {| window_length_s := _window_length self'; feature := feature;
              get_real_labels := get_real_labels; fs := dsp_fs |} in
  let run fuel :=
    fst (fst (online_processing np_shape avg_column predict load_ai_model dsp_fs ticks
                fuel self db_name subject feature get_real_labels data_sender)) in
  (fst init = inl NotImplementedError <->
     _proc self = None /\ db_name <> "physionet"%string /\ db_name <> "pilot"%string) /\
  (forall e, fst init = inl e ->
     e = NotImplementedError /\ forall fuel, run fuel = Raised e) /\
  (fst init = inr tt ->
   (forall e, load_ai_model self' feature = inl e -> forall fuel, run fuel = Raised e) /\
   (forall ai_model, load_ai_model self' feature = inr ai_model ->
      (ai_model !! subject = None -> forall fuel, run fuel = Raised KeyError) /\
      (forall svm, ai_model !! subject = Some svm ->
         (Qeq_bool dsp_fs 0 = true -> forall fuel, run fuel = Raised ZeroDivisionError) /\
         (Qeq_bool dsp_fs 0 = false ->
            forall e,
              (exists fuel, run fuel = Raised e) <->
              (e = NotImplementedError /\ feature <> "avg_column"%string /\
               exists k, (forall i, (i <= k)%nat -> goes_on data_sender i = true) /\
                         too_short np_shape p (eeg_data (ticks k)) = false))))).
Proof.
  intros init self' p run.
  assert (forall fuel,
            match fst init with
            | inl e => run fuel = Raised e
            | inr _ =>
                match load_ai_model self' feature with
                | inl e => run fuel = Raised e
                | inr ai_model =>
                    match ai_model !! subject with
                    | None => run fuel = Raised KeyError
                    | Some svm =>
                        if Qeq_bool dsp_fs 0 then run fuel = Raised ZeroDivisionError
                        else
                          run fuel
                          = match fst (online_while np_shape avg_column predict ticks
                                         fuel p svm (1 / dsp_fs) data_sender 0
                                         initial_state) with
                            | Returned st => Returned (y_preds st, y_real st)
                            | Raised e => Raised e
                            | Looping => Looping
                            end
                    end
                end
            end) as Hst.
  { intros fuel.
    pose proof (online_processing_stages np_shape avg_column predict load_ai_model
                  dsp_fs ticks fuel self db_name subject feature get_real_labels
                  data_sender) as Hst.
    cbv zeta in Hst. fold init self' p in Hst. subst run. cbv beta.
    destruct (fst init) as [e|[]]; [by rewrite Hst|].
    destruct (load_ai_model self' feature) as [e|ai_model]; [by rewrite Hst|].
    destruct (ai_model !! subject) as [svm|]; [|by rewrite Hst].
    destruct (Qeq_bool dsp_fs 0); by rewrite Hst. }
  assert (forall e, fst init = inl e ->
            e = NotImplementedError /\ _proc self = None /\
            db_name <> "physionet"%string /\ db_name <> "pilot"%string) as Hinit.
  { intros e. subst init. unfold _init_db_processor.
    destruct (_proc self); [done|].
    destruct (String.eqb_spec db_name "physionet"); [done|].
    destruct (String.eqb_spec db_name "pilot"); [done|].
    by intros [= <-]. }
  split; [|split].
  - split; [by intros (_ & ?)%Hinit|].
    intros (Hp & H1 & H2). subst init. unfold _init_db_processor. rewrite Hp.
    destruct (String.eqb_spec db_name "physionet"); [done|].
    by destruct (String.eqb_spec db_name "pilot").
  - intros e He. split; [by apply Hinit in He as [? _]|].
    intros fuel. specialize (Hst fuel). by rewrite He in Hst.
  - intros Hok. rewrite Hok in Hst. split.
    { intros e He fuel. specialize (Hst fuel). by rewrite He in Hst. }
    intros ai_model Hload. rewrite Hload in Hst. split.
    { intros Hm fuel. specialize (Hst fuel). by rewrite Hm in Hst. }
    intros svm Hm. rewrite Hm in Hst. split.
    { intros Hfs fuel. specialize (Hst fuel). by rewrite Hfs in Hst. }
    intros Hfs e. rewrite Hfs in Hst. split.
    + intros [fuel Hr]. rewrite Hst in Hr.
      destruct (online_while _ _ _ _ _ _ _ _ _ _ _) as [r0 outs0] eqn:Hw.
      cbn [fst] in Hr. destruct r0 as [st'|e'|]; [done| |done]. injection Hr as ->.
      destruct (online_while_spec _ _ _ _ _ _ _ _ _ _ _ _ _ Hw)
        as (_ & Ha & st1 & _ & _ & Hlast & Hit).
      apply iteration_raises in Hit as (-> & Hf & Hts).
      split; [done|]. split; [done|]. exists (length outs0). split; [|done].
      intros i Hi. destruct (decide (i = length outs0)) as [->|Hne]; [done|].
      apply (Ha i). lia.
    + intros (-> & Hf & k & Ha & Hts). exists (S k). rewrite Hst.
      destruct (online_while_fails np_shape avg_column predict ticks (S k) (S k) p svm
                  (1 / dsp_fs) data_sender 0 initial_state NotImplementedError)
        as [outs Houts]; [lia| | |by rewrite Houts].
      * intros i Hi. apply Ha. lia.
      * apply (online_loop_unknown_feature np_shape avg_column predict p svm
                 (1 / dsp_fs) initial_state _ (ticks k)); [done| |done].
        apply list_elem_of_fmap. exists k. split; [done|].
        apply elem_of_seq. lia.
Qed.

Lemma online_processing_failures_witness :
  fst (fst (online_processing (fun sh : list Z => sh) (fun _ => tt)
              (fun (_ : unit) (_ : unit) => 1%nat) (fun _ _ => inr {[ 4 := tt ]})
              160 demo_reading 10 (BCISystem_init "" 1 (1 # 4)) "foo" 4
              "avg_column" true demo_sender))
  = Raised NotImplementedError.
Proof.
  apply (proj1 (proj2 (online_processing_failures (fun sh : list Z => sh) (fun _ => tt)
           (fun (_ : unit) (_ : unit) => 1%nat) (fun _ _ => inr {[ 4 := tt ]})
           160 demo_reading (BCISystem_init "" 1 (1 # 4)) "foo" 4
           "avg_column" true demo_sender)) NotImplementedError eq_refl).
Defined.

(** ** Scoring the online run *)

Lemma invert_converter_snoc (items : list (string * Z)) (kv : string * Z) :
  invert_converter (items ++ [kv]) = <[snd kv := fst kv]> (invert_converter items).
Proof. unfold invert_converter. by rewrite foldl_app. Qed.

Lemma invert_converter_lookup (items : list (string * Z)) (v : Z) :
  invert_converter items !! v = fst <$> last (filter (fun kv => snd kv = v) items).
Proof.
  induction items as [|kv items IH] using rev_ind; [done|].
  rewrite invert_converter_snoc, filter_app.
  destruct (decide (snd kv = v)) as [<-|Hne].
  - rewrite lookup_insert_eq, filter_cons_True by done. cbn. by rewrite last_snoc.
  - rewrite lookup_insert_ne, filter_cons_False by done. cbn. by rewrite app_nil_r.
Qed.

(** X21.  [calc_online_acc] turns the recorded triggers back into task names
    through the inverted converter: when no two tasks share a trigger, the
    trigger of a task comes back as that task; a trigger the converter does
    not have, and a missing label, count as ['rest'].  So the labels of a run
    recorded without real labels are all ['rest'], and the predictions are
    passed on as they are. *)
Theorem calc_online_acc_labels {P : Type} (converter : list (string * Z))
    (y_pred : list P) (y_real : list (option Z)) :
  NoDup (snd <$> converter) ->
  let conv := invert_converter converter in
  (forall task trigger, (task, trigger) ∈ converter ->
     conv_get conv (Some trigger) = task) /\
  (forall trigger, trigger ∉ snd <$> converter ->
     conv_get conv (Some trigger) = REST) /\
  conv_get conv None = REST /\
  snd (calc_online_acc converter y_pred y_real) = y_pred /\
  length (fst (calc_online_acc converter y_pred y_real)) = length y_real /\
  (Forall (fun y => y = None) y_real ->
     fst (calc_online_acc converter y_pred y_real) = replicate (length y_real) REST).
Proof.
  intros Hnd conv. subst conv. split; [|split; [|split; [|split; [|split]]]].
  - intros task trigger Hin. unfold conv_get. rewrite invert_converter_lookup.
    assert (filter (fun kv => snd kv = trigger) converter = [(task, trigger)]) as ->;
      [|done].
    clear y_pred y_real. induction converter as [|[k v] items IH];
      [by apply elem_of_nil in Hin|].
    cbn in Hnd. apply NoDup_cons in Hnd as [Hv Hnd].
    apply elem_of_cons in Hin as [[= <- <-]|Hin].
    + rewrite filter_cons_True by done. f_equal.
      apply filter_none. intros [k' v'] Hin' Heq. cbn in Heq. subst v'.
      apply Hv. apply list_elem_of_fmap. by exists (k', trigger).
    + rewrite filter_cons_False; [by apply IH|].
      cbn. intros ->. apply Hv. apply list_elem_of_fmap. by exists (task, trigger).
  - intros trigger Hnot. unfold conv_get. rewrite invert_converter_lookup.
    rewrite filter_none; [done|].
    intros kv Hin Heq. apply Hnot. apply list_elem_of_fmap. by exists kv.
  - done.
  - done.
  - unfold calc_online_acc. cbn. by rewrite length_fmap.
  - intros Hall. unfold calc_online_acc. cbn [fst].
    induction Hall as [|y ys -> _ IH]; [done|]. cbn. by f_equal.
Qed.

Lemma calc_online_acc_labels_witness :
  fst (calc_online_acc [("left hand", 7); ("right hand", 5)]%string
         [1%nat; 2%nat; 3%nat] [Some 5; None; Some 9])
  = ["right hand"; "rest"; "rest"]%string /\
  conv_get (invert_converter [("left hand", 7); ("right hand", 5)]%string) (Some 7)
  = "left hand"%string.
Proof.
  split; [reflexivity|].
  apply (calc_online_acc_labels (P := nat) [("left hand", 7); ("right hand", 5)]%string
           [] []); [apply (bool_decide_unpack _); by vm_compute|].
  left.
Defined.

(** ** Groups of windows *)

Lemma concat_uniform_lookup {X : Type} (l : list (list X)) (W e j : nat) :
  Forall (fun ws => length ws = W) l -> (j < W)%nat ->
  concat l !! (e * W + j)%nat = l !! e ≫= (fun ws => ws !! j).
Proof.
  intros Hall Hj. revert e. induction Hall as [|ws l Hws _ IH]; intros e.
  - by rewrite !lookup_nil.
  - destruct e as [|e]; cbn.
    + by rewrite lookup_app_l by lia.
    + rewrite lookup_app_r by lia.
      replace (W + e * W + j - length ws)%nat with (e * W + j)%nat by lia.
      apply IH.
Qed.

(** X22.  In [test_db] the windows of all epochs are stacked epoch after
    epoch, and window [e * W + j] of the stack is window [j] of epoch [e]:
    its group is [e] and its label the label of epoch [e].  So the windows of
    one epoch, and only they, share a group, and there are [W] in each. *)
Theorem test_db_groups_follow_epochs {Wd Lab : Type} (windowed : list (list Wd))
    (ep_labels : list Lab) (W : nat) :
  windowed <> [] ->
  Forall (fun ws => length ws = W) windowed ->
  length ep_labels = length windowed ->
  exists groups labels stacked,
    test_db_groups windowed ep_labels = inr (groups, labels, stacked) /\
    length groups = (length windowed * W)%nat /\
    length labels = length groups /\ length stacked = length groups /\
    forall e j, (e < length windowed)%nat -> (j < W)%nat ->
      groups !! (e * W + j)%nat = Some e /\
      labels !! (e * W + j)%nat = ep_labels !! e /\
      stacked !! (e * W + j)%nat = windowed !! e ≫= (fun ws => ws !! j) /\
      is_Some (stacked !! (e * W + j)%nat).
Proof.
  intros Hne Hall Hlen. unfold test_db_groups.
  destruct windowed as [|ws rest] eqn:Hw; [done|]. rewrite <- Hw in *.
  assert (length ws = W) as ->.
  { rewrite Hw in Hall. by apply Forall_cons in Hall as [? _]. }
  clear Hw ws rest. set (E := length windowed) in *.
  rewrite length_fmap, length_seq.
  assert (forall e j, (e < E)%nat -> (j < W)%nat -> ((e * W + j) / W = e)%nat) as Hdiv.
  { intros e j He Hj. rewrite Nat.div_add_l by lia. rewrite Nat.div_small by lia. lia. }
  assert (forall k, (k < E * W)%nat -> (k / W < E)%nat) as Hlt.
  { intros k Hk. apply Nat.Div0.div_lt_upper_bound. lia. }
  destruct (mapM (fun i => ep_labels !! (i / W)%nat) (seq 0 (E * W))) as [labels|] eqn:Hm.
  2:{ exfalso. apply eq_None_not_Some in Hm. apply Hm.
      apply mapM_is_Some_2, Forall_forall. intros i [_ Hi]%elem_of_seq.
      apply lookup_lt_is_Some. rewrite Hlen. apply Hlt. lia. }
  apply mapM_Some_1 in Hm.
  exists ((fun i => (i / W)%nat) <$> seq 0 (E * W)), labels, (concat windowed).
  split; [done|]. rewrite length_fmap, length_seq. split; [done|].
  assert (length labels = (E * W)%nat) as Hll
    by (rewrite <- (Forall2_length _ _ _ Hm); apply length_seq).
  split; [done|].
  assert (length (concat windowed) = (E * W)%nat) as Hcl.
  { subst E. clear -Hall. induction Hall as [|ws l Hws _ IH]; [done|].
    cbn. rewrite length_app, IH, Hws. lia. }
  split; [done|].
  intros e j He Hj.
  assert (e * W + j < E * W)%nat as Hk by nia.
  split; [|split; [|split]].
  - rewrite list_lookup_fmap, lookup_seq_lt by done. cbn. by rewrite Hdiv.
  - destruct (lookup_lt_is_Some_2 labels (e * W + j)%nat ltac:(lia)) as [x Hx].
    rewrite Hx. symmetry.
    assert (seq 0 (E * W) !! (e * W + j)%nat = Some (e * W + j)%nat) as Hs
      by (by rewrite lookup_seq_lt by done).
    pose proof (Forall2_lookup_lr _ _ _ _ _ _ Hm Hs Hx) as Hl. cbn in Hl.
    by rewrite Hdiv in Hl.
  - by apply concat_uniform_lookup.
  - apply lookup_lt_is_Some. lia.
Qed.

Lemma test_db_groups_follow_epochs_witness :
  test_db_groups [["a0"; "a1"]; ["b0"; "b1"]; ["c0"; "c1"]]%string [1; 2; 1]
  = inr ([0; 0; 1; 1; 2; 2]%nat, [1; 1; 2; 2; 1; 1],
         ["a0"; "a1"; "b0"; "b1"; "c0"; "c1"]%string) /\
  exists groups labels stacked,
    test_db_groups [["a0"; "a1"]; ["b0"; "b1"]; ["c0"; "c1"]]%string [1; 2; 1]
      = inr (groups, labels, stacked) /\
    length groups = 6%nat.
Proof.
  split; [reflexivity|].
  destruct (test_db_groups_follow_epochs
              [["a0"; "a1"]; ["b0"; "b1"]; ["c0"; "c1"]]%string [1; 2; 1] 2)
    as (groups & labels & stacked & H1 & H2 & _).
  - discriminate.
  - repeat constructor.
  - reflexivity.
  - by exists groups, labels, stacked.
Defined.

(** ** The game control *)

Section GameFacts.
Context (uint8 : Z -> Z).

Lemma control_game_with_2_opt_step (self : GameControl) (switch_cmd : bool) :
  exists self',
    control_game_with_2_opt uint8 self switch_cmd = (inr tt, self') /\
    player_num self' = player_num self /\
    _log self' = _log self /\ has_game_log_conn self' = has_game_log_conn self /\
    menu_pos self' = (if switch_cmd then S (menu_pos self) else menu_pos self) /\
    datagrams self' =
      datagrams self ++
        (if switch_cmd
         then [datagram_of uint8 (player_num self) (menu_at (menu_pos self))]
         else []) /\
    log_lines self' =
      log_lines self ++
        (if _log self then
           [match (if switch_cmd then menu_at (menu_pos self) else STRAIGHT) with
            | LEFT => "Command: Left turn"
            | RIGHT => "Command: Right turn"
            | HEADLIGHT => "Command: Light on"
            | STRAIGHT => "Command: Go straight"
            end]%string
         else []) /\
    game_log_sent self' =
      game_log_sent self ++
        (if _log self && has_game_log_conn self
         then [if switch_cmd then menu_at (menu_pos self) else STRAIGHT] else []).
Proof.
  unfold control_game_with_2_opt, next_command, menu_at, datagram_of.
  destruct switch_cmd.
  - assert (menu_pos self mod 3 < 3)%nat as Hlt by (apply Nat.mod_upper_bound; lia).
    destruct (menu_pos self mod 3)%nat as [|[|[|n]]] eqn:Hm; [| | |lia];
      cbn; unfold turn_left, turn_right, turn_light_on, _log_message, _send_message;
      cbn; destruct (_log self) eqn:Hl, (has_game_log_conn self) eqn:Hc; cbn;
      rewrite ?Hl, ?Hc; cbn; eexists; (split; [reflexivity|]); cbn;
      rewrite ?app_nil_r; repeat split; done.
  - cbn. unfold go_straight, _log_message.
    destruct (_log self) eqn:Hl, (has_game_log_conn self) eqn:Hc; cbn;
      rewrite ?Hl, ?Hc; cbn; eexists; (split; [reflexivity|]); cbn;
      rewrite ?app_nil_r; repeat split; done.
Qed.
End GameFacts.

(** X23.  A sequence of calls of [control_game_with_2_opt] never raises.
    Only the calls with the switch set send a datagram, one each, and these
    go through the menu left, right, headlight and round again; a call
    without the switch means straight on, sends nothing and leaves the menu
    where it is. *)
Theorem switches_cycle_the_menu (uint8 : Z -> Z) (self : GameControl)
    (switches : list bool) :
  let n := length (filter (fun b => b = true) switches) in
  exists self',
    play uint8 self switches = (inr tt, self') /\
    player_num self' = player_num self /\
    menu_pos self' = (menu_pos self + n)%nat /\
    datagrams self' =
      datagrams self ++
        ((fun k => datagram_of uint8 (player_num self) (menu_at (menu_pos self + k)))
           <$> seq 0 n) /\
    (forall k, menu_at (k + 3) = menu_at k) /\
    menu_at 0 = LEFT /\ menu_at 1 = RIGHT /\ menu_at 2 = HEADLIGHT.
Proof.
  intros n. subst n.
  assert (forall k, menu_at (k + 3) = menu_at k) as Hper.
  { intros k. unfold menu_at. f_equal. f_equal.
    replace (k + 3)%nat with (k + 1 * 3)%nat by lia. by rewrite Nat.Div0.mod_add. }
  revert self. induction switches as [|b rest IH]; intros self.
  - exists self. cbn. rewrite app_nil_r, Nat.add_0_r. by repeat split.
  - cbn [play].
    destruct (control_game_with_2_opt_step uint8 self b)
      as (self1 & -> & Hp & _ & _ & Hm & Hd & _ & _).
    destruct (IH self1) as (self' & -> & Hp' & Hm' & Hd' & _).
    exists self'. split; [done|]. split; [congruence|].
    destruct b.
    + rewrite filter_cons_True by done. cbn [length].
      split; [rewrite Hm', Hm; lia|]. split; [|by repeat split].
      rewrite Hd', Hd, Hp, Hm, <- app_assoc. f_equal.
      cbn [seq fmap list_fmap app]. rewrite Nat.add_0_r. f_equal.
      rewrite <- fmap_S_seq, <- list_fmap_compose.
      apply list_fmap_ext. intros _ k _. cbn. do 2 f_equal. lia.
    + rewrite filter_cons_False by done.
      split; [by rewrite Hm', Hm|]. split; [|by repeat split].
      by rewrite Hd', Hd, Hp, Hm, app_nil_r.
Qed.

(** X24.  Where [uint8] leaves the number as it is, that is for player
    numbers from 0 to 25, the datagram tells the player and the command:
    two calls of [control_game] that send the same datagram come from the
    same player and give the same command, and the datagram divided by ten
    is the player, its remainder the value of the command. *)
Theorem datagram_identifies_sender (uint8 : Z -> Z)
    (self1 self2 : GameControl) (c1 c2 : ControlCommand) :
  (forall z, 0 <= z <= 255 -> uint8 z = z) ->
  0 <= player_num self1 <= 25 -> 0 <= player_num self2 <= 25 ->
  c1 <> STRAIGHT -> c2 <> STRAIGHT ->
  datagrams self1 = [] -> datagrams self2 = [] ->
  let sent1 := datagrams (snd (control_game uint8 self1 (Some c1))) in
  let sent2 := datagrams (snd (control_game uint8 self2 (Some c2))) in
  sent1 = [player_num self1 * 10 + command_value c1] /\
  (forall m, sent1 = [m] ->
     m / 10 = player_num self1 /\ m mod 10 = command_value c1) /\
  (sent1 = sent2 -> player_num self1 = player_num self2 /\ c1 = c2).
Proof.
  intros Hu Hp1 Hp2 Hc1 Hc2 Hd1 Hd2 sent1 sent2.
  assert (forall (self : GameControl) c, 0 <= player_num self <= 25 ->
            c <> STRAIGHT -> datagrams self = [] ->
            datagrams (snd (control_game uint8 self (Some c)))
            = [player_num self * 10 + command_value c]) as Hsent.
  { intros self c Hp Hc Hd.
    destruct c; [| | |done]; cbn;
      unfold turn_left, turn_right, turn_light_on, _log_message, _send_message;
      destruct (_log self); cbn; rewrite Hd; cbn; f_equal; apply Hu; cbn; lia. }
  subst sent1 sent2. rewrite (Hsent self1 c1), (Hsent self2 c2) by done.
  split; [done|]. split.
  - intros m [= <-]. destruct c1; cbn; split; Z.div_mod_to_equations; lia.
  - intros [= Heq]. destruct c1, c2; cbn in Heq; try done; split; (lia || done).
Qed.

Lemma datagram_identifies_sender_witness :
  datagrams (snd (control_game (fun z => z mod 256)
                    (GameControl_init 1 false false) (Some RIGHT))) = [13].
Proof.
  apply (datagram_identifies_sender (fun z => z mod 256)
           (GameControl_init 1 false false) (GameControl_init 2 false false)
           RIGHT LEFT); try done; try (cbn; lia).
  intros z Hz. apply Z.mod_small. lia.
Defined.

(** ** Strings *)

Module StrFacts.
Import Str.

Lemma upper_char_idem (c : Ascii.ascii) : upper_char (upper_char c) = upper_char c.
Proof. by destruct c as [[] [] [] [] [] [] [] []]. Qed.

Lemma upper_char_dot (c : Ascii.ascii) :
  Ascii.eqb (upper_char c) "."%char = Ascii.eqb c "."%char.
Proof. by destruct c as [[] [] [] [] [] [] [] []]. Qed.

Lemma upper_idem (s : string) : upper (upper s) = upper s.
Proof. induction s as [|c s IH]; [done|]. cbn. by rewrite upper_char_idem, IH. Qed.

Lemma lstrip_id (ch : Ascii.ascii) (s : string) :
  startswith ch s = false -> lstrip ch s = s.
Proof. destruct s as [|c s]; [done|]. cbn. by intros ->. Qed.

Lemma rstrip_id (ch : Ascii.ascii) (s : string) :
  endswith ch s = false -> rstrip ch s = s.
Proof.
  induction s as [|c s IH]; [done|]. cbn.
  destruct s as [|d s']; [by intros ->|].
  intros H. rewrite (IH H). done.
Qed.

Lemma lstrip_startswith (ch : Ascii.ascii) (s : string) :
  startswith ch (lstrip ch s) = false.
Proof.
  induction s as [|c s IH]; [done|]. cbn.
  destruct (Ascii.eqb c ch) eqn:E; [done|]. cbn. done.
Qed.

Lemma rstrip_endswith (ch : Ascii.ascii) (s : string) :
  endswith ch (rstrip ch s) = false.
Proof.
  induction s as [|c s IH]; [done|]. cbn.
  destruct (rstrip ch s) as [|d r] eqn:E.
  - destruct (Ascii.eqb c ch) eqn:Ec; [done|]. cbn. done.
  - exact IH.
Qed.

Lemma rstrip_startswith (ch : Ascii.ascii) (s : string) :
  startswith ch s = false -> startswith ch (rstrip ch s) = false.
Proof.
  destruct s as [|c s]; [done|]. cbn. intros Hc.
  destruct (rstrip ch s); [by rewrite Hc|done].
Qed.

Lemma strip_clean (ch : Ascii.ascii) (s : string) :
  startswith ch (strip ch s) = false /\ endswith ch (strip ch s) = false.
Proof.
  unfold strip. split; [|apply rstrip_endswith].
  apply rstrip_startswith, lstrip_startswith.
Qed.

Lemma strip_id (ch : Ascii.ascii) (s : string) :
  startswith ch s = false -> endswith ch s = false -> strip ch s = s.
Proof. intros H1 H2. unfold strip. by rewrite (lstrip_id _ _ H1), (rstrip_id _ _ H2). Qed.

Lemma upper_startswith_dot (s : string) :
  startswith "."%char (upper s) = startswith "."%char s.
Proof. destruct s as [|c s]; [done|]. cbn. apply upper_char_dot. Qed.

Lemma upper_endswith_dot (s : string) :
  endswith "."%char (upper s) = endswith "."%char s.
Proof.
  induction s as [|c s IH]; [done|]. cbn.
  destruct s as [|d s']; [apply upper_char_dot|]. exact IH.
Qed.

Lemma set_last_upper (c C : Ascii.ascii) (s : string) :
  endswith C s = true -> upper_char c = upper_char C ->
  upper (set_last c s) = upper s.
Proof.
  intros Hend Hc. induction s as [|d s IH]; [done|].
  destruct s as [|e s'].
  - cbn in *. apply Ascii.eqb_eq in Hend as ->. by rewrite Hc.
  - change (upper (String.String d (set_last c (String.String e s')))
            = upper (String.String d (String.String e s'))).
    cbn [upper]. f_equal. by apply IH.
Qed.

Lemma set_last_startswith (c ch : Ascii.ascii) (s : string) :
  Ascii.eqb c ch = false -> startswith ch s = false ->
  startswith ch (set_last c s) = false.
Proof. intros Hc. destruct s as [|d [|e s']]; cbn; done. Qed.

Lemma set_last_endswith (c ch : Ascii.ascii) (s : string) :
  Ascii.eqb c ch = false -> endswith ch (set_last c s) = false.
Proof.
  intros Hc. induction s as [|d s IH]; [done|].
  destruct s as [|e s']; [done|].
  change (endswith ch (String.String d (set_last c (String.String e s'))) = false).
  cbn [endswith]. destruct (set_last c (String.String e s')) eqn:E; [|exact IH].
  by destruct s'.
Qed.

(** [replace_FP], two characters at a time *)
Lemma replace_FP_ind (P : string -> string -> Prop) :
  P String.EmptyString String.EmptyString ->
  (forall c, P (String.String c String.EmptyString) (String.String c String.EmptyString)) ->
  (forall rest, P rest (replace_FP rest) ->
     P (String.String "F"%char (String.String "P"%char rest))
       (String.String "F"%char (String.String "p"%char (replace_FP rest)))) ->
  (forall c d rest, Ascii.eqb c "F"%char && Ascii.eqb d "P"%char = false ->
     P (String.String d rest) (replace_FP (String.String d rest)) ->
     P (String.String c (String.String d rest))
       (String.String c (replace_FP (String.String d rest)))) ->
  forall s, P s (replace_FP s).
Proof.
  intros H0 H1 HFP Hstep.
  assert (forall s, P s (replace_FP s) /\
                    forall c, P (String.String c s) (replace_FP (String.String c s))) as Hboth.
  { induction s as [|d s [IH1 IH2]].
    - split; [exact H0|]. intros c. apply H1.
    - split; [apply IH2|]. intros c.
      cbn [replace_FP]. fold (replace_FP (String.String d s)).
      destruct (Ascii.eqb c "F"%char && Ascii.eqb d "P"%char) eqn:E.
      + apply andb_true_iff in E as [->%Ascii.eqb_eq ->%Ascii.eqb_eq].
        by apply HFP.
      + apply Hstep; [done|]. apply IH2. }
  intros s. apply Hboth.
Qed.

Lemma replace_FP_upper (s : string) : upper (replace_FP s) = upper s.
Proof.
  apply (replace_FP_ind (fun s r => upper r = upper s)); try done.
  - intros rest IH. cbn. by rewrite IH.
  - intros c d rest _ IH. cbn [upper] in *. by rewrite IH.
Qed.

Lemma replace_FP_startswith (ch : Ascii.ascii) (s : string) :
  startswith ch (replace_FP s) = startswith ch s.
Proof. by apply (replace_FP_ind (fun s r => startswith ch r = startswith ch s)). Qed.

Lemma replace_FP_endswith_dot (s : string) :
  endswith "."%char (replace_FP s) = endswith "."%char s.
Proof.
  apply (replace_FP_ind
           (fun s r => endswith "."%char r = endswith "."%char s /\
                       (r = String.EmptyString <-> s = String.EmptyString))).
  - done.
  - done.
  - intros rest [IH Hemp]. split; [|done]. cbn.
    destruct rest as [|e rest']; [by rewrite (proj2 Hemp eq_refl)|].
    destruct (replace_FP (String.String e rest')) eqn:E; [|done].
    discriminate (proj1 Hemp eq_refl).
  - intros c d rest _ [IH Hemp]. split; [|done]. cbn [endswith].
    destruct (replace_FP (String.String d rest)) eqn:E; [|done].
    discriminate (proj1 Hemp eq_refl).
Qed.
End StrFacts.

Lemma std_channel_name_idem (name : string) :
  std_channel_name (std_channel_name name) = std_channel_name name /\
  Str.startswith "."%char (std_channel_name name) = false /\
  Str.endswith "."%char (std_channel_name name) = false.
Proof.
  pose (good := fun (U s : string) =>
    Str.upper s = U /\ Str.startswith "."%char s = false /\
    Str.endswith "."%char s = false).
  assert (forall U s c C, good U s ->
            Str.upper_char c = Str.upper_char C -> Ascii.eqb c "."%char = false ->
            good U (if Str.endswith C s then Str.set_last c s else s)) as Hlast.
  { intros U s c C (Hu & Hs & He) Hc Hdot.
    destruct (Str.endswith C s) eqn:E; [|done]. split; [|split].
    - by rewrite (StrFacts.set_last_upper c C s E Hc).
    - by apply StrFacts.set_last_startswith.
    - by apply StrFacts.set_last_endswith. }
  assert (forall U s, good U s ->
            good U (if Str.py_in "FP" s then Str.replace_FP s else s)) as Hfp.
  { intros U s (Hu & Hs & He). destruct (Str.py_in "FP" s); [|done].
    split; [|split].
    - by rewrite StrFacts.replace_FP_upper.
    - by rewrite StrFacts.replace_FP_startswith.
    - by rewrite StrFacts.replace_FP_endswith_dot. }
  set (U := Str.upper (Str.strip "."%char name)).
  assert (good U U) as HU.
  { destruct (StrFacts.strip_clean "."%char name) as [H1 H2]. unfold good, U.
    split; [apply StrFacts.upper_idem|].
    split; [by rewrite StrFacts.upper_startswith_dot
           |by rewrite StrFacts.upper_endswith_dot]. }
  assert (good U (std_channel_name name)) as (Hu & Hs & He).
  { unfold std_channel_name. fold U.
    apply (Hlast U _ "h"%char "H"%char); [|done|done].
    apply Hfp. by apply (Hlast U _ "z"%char "Z"%char). }
  split; [|done].
  unfold std_channel_name at 1.
  rewrite (StrFacts.strip_id _ _ Hs He), Hu. reflexivity.
Qed.

(** X25.  Standardising channel names is idempotent on ASCII names: the
    names it gives carry no dot at either end, and standardising them again
    renames every one of them to itself.  The new name depends only on the
    old one without its outer dots and in upper case. *)
Theorem channel_names_standardise_once (ch_names : list string) :
  Forall (fun name => Str.is_ascii name = true) ch_names ->
  let renamed := snd <$> standardize_eeg_channel_names ch_names in
  fst <$> standardize_eeg_channel_names ch_names = ch_names /\
  standardize_eeg_channel_names renamed = (fun name => (name, name)) <$> renamed /\
  Forall (fun name => Str.startswith "."%char name = false /\
                      Str.endswith "."%char name = false) renamed /\
  (forall n1 n2, Str.upper (Str.strip "."%char n1) = Str.upper (Str.strip "."%char n2) ->
     std_channel_name n1 = std_channel_name n2).
Proof.
  intros _ renamed. subst renamed. unfold standardize_eeg_channel_names.
  rewrite <- !list_fmap_compose. split; [|split; [|split]].
  - rewrite <- (list_fmap_id ch_names) at 2. by apply list_fmap_ext.
  - apply list_fmap_ext. intros _ name _. cbn.
    by rewrite (proj1 (std_channel_name_idem name)).
  - apply Forall_fmap, Forall_forall. intros name _. cbn.
    apply std_channel_name_idem.
  - intros n1 n2 Heq. unfold std_channel_name. by rewrite Heq.
Qed.

Lemma channel_names_standardise_once_witness :
  standardize_eeg_channel_names ["Fpz."; "AFZ"; "fp1"; "T9H"; "..Cz.."]%string
  = [("Fpz.", "Fpz"); ("AFZ", "AFz"); ("fp1", "Fp1"); ("T9H", "T9h");
     ("..Cz..", "Cz")]%string /\
  standardize_eeg_channel_names ["Fpz"; "AFz"; "Fp1"; "T9h"; "Cz"]%string
  = [("Fpz", "Fpz"); ("AFz", "AFz"); ("Fp1", "Fp1"); ("T9h", "T9h"); ("Cz", "Cz")]%string.
Proof.
  split; [reflexivity|].
  apply (proj1 (proj2 (channel_names_standardise_once
                         ["Fpz."; "AFZ"; "fp1"; "T9H"; "..Cz.."]%string
                         ltac:(repeat constructor)))).
Defined.

Lemma prefix_refl (s : string) : String.prefix s s = true.
Proof. induction s as [|c s IH]; [done|]. cbn. by destruct (Ascii.ascii_dec c c). Qed.

Lemma py_in_refl (s : string) : Str.py_in s s = true.
Proof. destruct s as [|c s]; [done|]. cbn [Str.py_in]. by rewrite prefix_refl. Qed.

(** X26.  [_create_binary_label] has three values, not two: the rest label
    comes back as it is and is the only label that gives it; every other
    label becomes ['calm'] when it contains that word and ['active'] when
    not.  Applying it twice changes nothing more. *)
Theorem binary_label_values (label : string) :
  (_create_binary_label label = REST \/ _create_binary_label label = CALM \/
   _create_binary_label label = ACTIVE) /\
  (_create_binary_label label = REST <-> label = REST) /\
  (label <> REST ->
     _create_binary_label label
     = if Str.py_in CALM label then CALM else ACTIVE) /\
  (forall suffix, _create_binary_label (CALM ++ suffix) = CALM) /\
  _create_binary_label (_create_binary_label label) = _create_binary_label label.
Proof.
  unfold _create_binary_label.
  destruct (String.eqb_spec label REST) as [->|Hne]; cbn [negb].
  - split; [by left|]. split; [done|]. split; [done|]. split; [|done].
    intros suffix. by destruct suffix.
  - split; [destruct (Str.py_in CALM label); auto|].
    split; [split; [by destruct (Str.py_in CALM label)|done]|].
    split; [done|]. split; [intros suffix; by destruct suffix|].
    by destruct (Str.py_in CALM label).
Qed.

(** X27.  [is_platform] answers every query that contains ['win'] as if it
    were ['win'].  So a platform name is recognised as itself exactly when it
    does not contain ['win'] or starts with it: ['darwin'] is not recognised
    on ['darwin']. *)
Theorem is_platform_treats_win_alike (platform : string) :
  (forall q1 q2, Str.py_in "win" q1 = true -> Str.py_in "win" q2 = true ->
     is_platform platform q1 = is_platform platform q2) /\
  (forall q, Str.py_in "win" q = true ->
     is_platform platform q = String.prefix "win" platform) /\
  (is_platform platform platform = true <->
     Str.py_in "win" platform = false \/ String.prefix "win" platform = true) /\
  is_platform "darwin" "darwin" = false.
Proof.
  unfold is_platform. split; [by intros q1 q2 -> ->|]. split; [by intros q ->|].
  split; [|reflexivity].
  destruct (Str.py_in "win" platform) eqn:E.
  - split; [by right|]. by intros [?|?].
  - rewrite prefix_refl. split; [by left|done].
Qed.

(** ** The epoch creator *)

Lemma endswith_snoc (ch : Ascii.ascii) (s : string) :
  Str.endswith ch (s ++ String.String ch String.EmptyString) = true.
Proof.
  induction s as [|c s IH]; cbn; [apply Ascii.eqb_refl|].
  destruct s as [|c' s]; cbn in *; [apply Ascii.eqb_refl | done].
Qed.

Lemma epoch_creator_init_ok (base_dir : string) (flag : bool) :
  base_dir <> ""%string ->
  OfflineEpochCreator_init base_dir flag
  = ret {| oec_base_dir :=
             if negb (Str.endswith "/" base_dir)
             then (base_dir ++ "/")%string else base_dir;
           oec_data_path := None; oec_data_duration := 4;
           oec_db_type := None;
           oec_drop_subject := if flag then [(-1)%Z] else [] |}.
Proof. by destruct base_dir. Qed.

(** X28.  An [OfflineEpochCreator] cannot be made with an empty base
    directory: that raises [IndexError].  With any other one the stored
    directory ends in a slash, which is added only when it is missing.  Once a
    database is chosen the flag [use_drop_subject_list] no longer matters: the
    dropped subjects are those of the database, and the data path is the
    stored directory followed by the directory of the database. *)
Theorem epoch_creator_paths (base_dir : string) (flag : bool) :
  (OfflineEpochCreator_init base_dir flag = raise IndexError <-> base_dir = ""%string) /\
  (base_dir <> ""%string ->
     exists c, OfflineEpochCreator_init base_dir flag = ret c /\
       Str.endswith "/" (oec_base_dir c) = true /\
       oec_base_dir c
       = (if Str.endswith "/" base_dir then base_dir else base_dir ++ "/")%string /\
       OfflineEpochCreator_init (oec_base_dir c) flag = ret c /\
       forall db c', OfflineEpochCreator_init base_dir (negb flag) = ret c' ->
         _use_db db c' = _use_db db c /\
         oec_drop_subject (_use_db db c) = DROP_SUBJECTS db /\
         oec_data_path (_use_db db c) = Some (oec_base_dir c ++ DIR db)%string).
Proof.
  split.
  - destruct base_dir; [done|]. by split.
  - intros Hne. eexists. split; [by apply epoch_creator_init_ok|].
    cbn [oec_base_dir].
    assert (Str.endswith "/"
              (if negb (Str.endswith "/" base_dir)
               then (base_dir ++ "/")%string else base_dir) = true) as Hend.
    { destruct (Str.endswith "/" base_dir) eqn:Hs; cbn [negb];
        [done | apply endswith_snoc]. }
    split; [exact Hend|]. split; [by destruct (Str.endswith "/" base_dir)|].
    split.
    + rewrite epoch_creator_init_ok; [by rewrite Hend|].
      intros Hemp. rewrite Hemp in Hend. discriminate Hend.
    + intros db c' Hc'. rewrite epoch_creator_init_ok in Hc' by done.
      injection Hc' as <-. done.
Qed.

Lemma epoch_creator_paths_witness :
  "data"%string <> ""%string /\
  exists c, OfflineEpochCreator_init "data" true = ret c /\
    Str.endswith "/" (oec_base_dir c) = true.
Proof.
  split; [done|].
  destruct (proj2 (epoch_creator_paths "data" true)) as (c & Hc & He & _); [done|].
  by exists c.
Defined.

(** ** Session cutting *)

Lemma arange_at_shift (b : bool) (m : list bool) (j n : nat) :
  filter (fun i => (b :: m) !! i = Some true) (seq (S j) n)
  = S <$> filter (fun i => m !! i = Some true) (seq j n).
Proof.
  revert j. induction n as [|n IH]; intros j; [done|].
  cbn [seq]. rewrite !filter_cons, IH. cbn [lookup list_lookup].
  by destruct (decide (m !! j = Some true)).
Qed.

Lemma arange_at_cons (b : bool) (m : list bool) :
  arange_at (length (b :: m)) (b :: m)
  = (if b then [0%nat] else []) ++ (S <$> arange_at (length m) m).
Proof.
  unfold arange_at. cbn [length seq]. rewrite filter_cons, arange_at_shift.
  by destruct b.
Qed.

Lemma clear_at_cons (b : bool) (m : list bool) (ind : list nat) :
  clear_at (b :: m) (S <$> ind) = b :: clear_at m ind.
Proof.
  unfold clear_at. revert m. induction ind as [|i ind IH]; intros m; [done|].
  cbn. apply IH.
Qed.

Lemma clear_first_false (k : nat) (m : list bool) :
  clear_first k (false :: m) = false :: clear_first k m.
Proof. destruct k; [by destruct m|done]. Qed.

Lemma length_clear_first (k : nat) (m : list bool) :
  length (clear_first k m) = length m.
Proof.
  revert k. induction m as [|b m IH]; intros k; [by destruct k|].
  destruct b; [|by rewrite clear_first_false; cbn; rewrite IH].
  destruct k; [done|]. cbn. by rewrite IH.
Qed.

Lemma clear_at_first (k : nat) (m : list bool) :
  clear_at m (take k (arange_at (length m) m)) = clear_first k m.
Proof.
  revert k. induction m as [|b m IH]; intros k; [by destruct k|].
  rewrite arange_at_cons. destruct b.
  - destruct k as [|k]; [done|]. cbn [app take].
    rewrite <- fmap_take. unfold clear_at at 1. cbn [foldl].
    change (<[0%nat:=false]> (true :: m)) with (false :: m).
    fold (clear_at (false :: m) (S <$> take k (arange_at (length m) m))).
    by rewrite clear_at_cons, IH.
  - cbn [app]. by rewrite <- fmap_take, clear_at_cons, IH, clear_first_false.
Qed.

Lemma arange_at_clear_first (k : nat) (m : list bool) :
  arange_at (length (clear_first k m)) (clear_first k m)
  = drop k (arange_at (length m) m).
Proof.
  revert k. induction m as [|b m IH]; intros k; [by destruct k|].
  destruct b.
  - destruct k as [|k]; [done|]. cbn [clear_first].
    rewrite !arange_at_cons, IH. cbn [app drop]. by rewrite fmap_drop.
  - rewrite clear_first_false, !arange_at_cons, IH. cbn [app].
    by rewrite fmap_drop.
Qed.

Lemma np_select_cons {A : Type} (x : A) (a : list A) (b : bool) (m : list bool) :
  np_select (x :: a) (b :: m) = (if b then [x] else []) ++ np_select a m.
Proof. unfold np_select. cbn [zip zip_with]. rewrite filter_cons. by destruct b. Qed.

Lemma np_select_clear_first {A : Type} (k : nat) (a : list A) (m : list bool) :
  np_select a (clear_first k m) = drop k (np_select a m).
Proof.
  revert k a. induction m as [|b m IH]; intros k a.
  { destruct k, a; done. }
  destruct a as [|x a].
  { unfold np_select. cbn. by rewrite drop_nil. }
  destruct b.
  - destruct k as [|k]; [done|]. cbn [clear_first]. by rewrite !np_select_cons, IH.
  - by rewrite clear_first_false, !np_select_cons, IH.
Qed.

Lemma length_np_select {A : Type} (a : list A) (m : list bool) :
  length m = length a -> length (np_select a m) = np_sum m.
Proof.
  revert a. induction m as [|b m IH]; intros [|x a] Hl; try done.
  rewrite np_select_cons. unfold np_sum in *. rewrite filter_cons.
  injection Hl as Hl. destruct b; cbn; by rewrite IH.
Qed.

Lemma length_arange_at (m : list bool) :
  length (arange_at (length m) m) = np_sum m.
Proof.
  induction m as [|b m IH]; [done|].
  rewrite arange_at_cons, length_app, length_fmap, IH. unfold np_sum.
  rewrite filter_cons. by destruct b.
Qed.

Lemma save_session_loop (subj : Z) (n : nat) (after_end : Q)
    (tmins tmaxs pre : list Q) (acc : list Session) :
  length tmins = length tmaxs ->
  foldl (save_session subj (pre ++ tmaxs) n after_end) (ret acc)
        (imap (fun i => pair (length pre + i)%nat) tmins)
  = ret (acc ++ imap (fun i p =>
           {| sess_subj := subj; sess_rec := Z.of_nat (length pre + i) + 1;
              sess_tmin := fst p;
              sess_tmax := if bool_decide (Z.of_nat (length pre + i) < Z.of_nat n - 1)%Z
                           then (snd p + 1)%Q else (snd p + after_end)%Q |})
           (zip tmins tmaxs)).
Proof.
  revert tmaxs pre acc. induction tmins as [|a tmins IH]; intros [|b tmaxs] pre acc Hl;
    try done.
  { cbn. by rewrite app_nil_r. }
  injection Hl as Hl. cbn [zip zip_with]. rewrite !imap_cons. cbn [foldl].
  unfold save_session at 2. cbv [ret]. cbn [fst snd].
  rewrite Nat.add_0_r, list_lookup_middle by done.
  replace (pre ++ b :: tmaxs) with ((pre ++ [b]) ++ tmaxs) by by rewrite <- app_assoc.
  erewrite (imap_ext _ (fun i => pair (length (pre ++ [b]) + i)%nat));
    [|intros i x _; cbn; rewrite length_app; cbn; f_equal; lia].
  fold (@ret (list Session)). rewrite IH by done. cbv [ret]. f_equal.
  rewrite <- app_assoc. cbn [app]. do 2 f_equal.
  apply imap_ext. intros i [x y] _. cbn. rewrite length_app. cbn.
  by replace (length pre + 1 + i)%nat with (length pre + S i)%nat by lia.
Qed.

Lemma py_take_take {A : Type} (k : Z) (l : list A) :
  py_take k l
  = take (if (0 <=? k)%Z then Z.to_nat k
          else (length l - Z.to_nat (- k))%nat) l.
Proof. unfold py_take. by destruct (0 <=? k)%Z. Qed.

(** X29.  [_save_sessions] fails its assertion unless each mask marks
    exactly [session_num] triggers, and raises [IndexError] when a mask is not
    as long as the onsets.  Otherwise it skips the first [drop_first] sessions
    (with a negative [drop_first]: all but the last [-drop_first]) and saves
    the others as records 1, 2, ... in order: each runs from its start
    trigger to its end trigger plus one second, the last one plus
    [after_end].  The masks of the caller lose the triggers skipped. *)
Theorem save_sessions_cuts (subj : Z) (onset : list Q) (start_mask end_mask : list bool)
    (session_num drop_first : Z) (after_end : Q) :
  let skip := if (0 <=? drop_first)%Z then Z.to_nat drop_first
              else (Z.to_nat session_num - Z.to_nat (- drop_first))%nat in
  let cut := zip (drop skip (np_select onset start_mask))
                 (drop skip (np_select onset end_mask)) in
  (Z.of_nat (np_sum start_mask) <> session_num \/
   Z.of_nat (np_sum end_mask) <> session_num ->
     _save_sessions subj onset start_mask end_mask session_num drop_first after_end
     = raise AssertionError) /\
  (Z.of_nat (np_sum start_mask) = session_num ->
   Z.of_nat (np_sum end_mask) = session_num ->
   (length start_mask <> length onset \/ length end_mask <> length onset ->
      _save_sessions subj onset start_mask end_mask session_num drop_first after_end
      = raise IndexError) /\
   (length start_mask = length onset -> length end_mask = length onset ->
      exists sm em,
        _save_sessions subj onset start_mask end_mask session_num drop_first after_end
        = ret (imap (fun i p =>
                 {| sess_subj := subj; sess_rec := Z.of_nat i + 1;
                    sess_tmin := fst p;
                    sess_tmax :=
                      if bool_decide (Z.of_nat i < Z.of_nat (length cut) - 1)%Z
                      then (snd p + 1)%Q else (snd p + after_end)%Q |}) cut,
               sm, em) /\
        length cut = (Z.to_nat session_num - skip)%nat /\
        mask_to_ind sm = drop skip (mask_to_ind start_mask) /\
        mask_to_ind em = drop skip (mask_to_ind end_mask))).
Proof.
  intros skip cut. unfold _save_sessions. rewrite !length_arange_at. split.
  - intros [H|H].
    + by destruct (Z.eqb_spec (Z.of_nat (np_sum start_mask)) session_num).
    + destruct (Z.eqb_spec (Z.of_nat (np_sum start_mask)) session_num); [|done].
      by destruct (Z.eqb_spec (Z.of_nat (np_sum end_mask)) session_num).
  - intros Hs He.
    destruct (Z.eqb_spec (Z.of_nat (np_sum start_mask)) session_num); [|done].
    destruct (Z.eqb_spec (Z.of_nat (np_sum end_mask)) session_num); [|done].
    cbn [negb].
    rewrite !py_take_take, !length_arange_at.
    replace (np_sum start_mask) with (Z.to_nat session_num) by lia.
    replace (np_sum end_mask) with (Z.to_nat session_num) by lia.
    fold skip. rewrite !clear_at_first. unfold bool_index.
    rewrite !length_clear_first. split.
    + intros [H|H].
      * by rewrite bool_decide_eq_false_2.
      * destruct (bool_decide (length start_mask = length onset)); [|done].
        by rewrite bool_decide_eq_false_2.
    + intros Hls Hle. rewrite !bool_decide_eq_true_2 by done. cbv [ret].
      rewrite !np_select_clear_first.
      assert (length (drop skip (np_select onset start_mask))
              = length (drop skip (np_select onset end_mask))) as Hlen.
      { rewrite !length_drop, !length_np_select by done. lia. }
      assert (length cut = length (drop skip (np_select onset start_mask))) as Hcut.
      { unfold cut. rewrite length_zip_with. lia. }
      pose proof (save_session_loop subj
                    (length (drop skip (np_select onset start_mask))) after_end
                    _ _ [] [] Hlen) as Hloop.
      cbn [length app Nat.add] in Hloop. cbv [ret] in Hloop.
      match type of Hloop with
      | _ = ?r =>
        match goal with
        | |- context [foldl ?f ?a ?l] =>
          replace (foldl f a l) with r by (symmetry; exact Hloop)
        end
      end.
      fold cut. rewrite <- Hcut.
      exists (clear_first skip start_mask), (clear_first skip end_mask).
      split; [done|]. split.
      { rewrite Hcut, length_drop, length_np_select by done. lia. }
      unfold mask_to_ind. by rewrite !arange_at_clear_first.
Qed.

Lemma save_sessions_cuts_witness :
  exists sm em,
    _save_sessions 7 [0; 10; 20; 30; 40; 50]%Q
      [true; false; true; false; true; false]
      [false; true; false; true; false; true] 3 1 2%Q
    = ret ([ {| sess_subj := 7; sess_rec := 1; sess_tmin := 20%Q;
                sess_tmax := (30 + 1)%Q |};
             {| sess_subj := 7; sess_rec := 2; sess_tmin := 40%Q;
                sess_tmax := (50 + 2)%Q |} ], sm, em) /\
    mask_to_ind sm = [2%nat; 4%nat] /\ mask_to_ind em = [3%nat; 5%nat].
Proof.
  destruct (proj2 (save_sessions_cuts 7 [0; 10; 20; 30; 40; 50]%Q
      [true; false; true; false; true; false]
      [false; true; false; true; false; true] 3 1 2%Q) eq_refl eq_refl)
    as [_ H].
  destruct (H eq_refl eq_refl) as (sm & em & H1 & _ & H2 & H3).
  exists sm, em. split; [exact H1|]. split; [exact H2 | exact H3].
Defined.

(** ** Windowed epochs *)

Section EpochFacts.
Context {A : Type}.
Import Nd.

Lemma flat_index4 (E n0 n1 n2 e i c j : Z) :
  0 <= e < E -> 0 <= i < n0 -> 0 <= c < n1 -> 0 <= j < n2 ->
  flat_index 0 [E; n0; n1; n2] [e; i; c; j]
  = Some (((e * n0 + i) * n1 + c) * n2 + j).
Proof.
  intros He Hi Hc Hj. cbn [flat_index].
  rewrite !(proj2 (Z.leb_le _ _)), !(proj2 (Z.ltb_lt _ _)) by lia.
  reflexivity.
Qed.

Lemma unravel3 (n1 n2 i c j : Z) :
  0 <= c < n1 -> 0 <= j < n2 ->
  let k := (i * n1 + c) * n2 + j in
  k / (n1 * n2) = i /\ k / n2 mod n1 = c /\ k mod n2 = j.
Proof.
  intros Hc Hj k. subst k.
  assert ((i * n1 + c) * n2 + j = (i * n1 + c) * n2 + j) as _ by done.
  assert (((i * n1 + c) * n2 + j) / n2 = i * n1 + c) as Hq.
  { symmetry. apply (Z.div_unique _ _ _ j); [lia|ring]. }
  split; [|split].
  - symmetry. apply (Z.div_unique _ _ _ (c * n2 + j)); [nia|ring].
  - rewrite Hq. symmetry. apply (Z.mod_unique _ _ i); [lia|ring].
  - symmetry. apply (Z.mod_unique _ _ (i * n1 + c)); [lia|ring].
Qed.

Lemma np_array_items (x : array3 A) (n0 n1 n2 i c j : Z) :
  shape3 x = (n0, n1, n2) ->
  0 <= i < n0 -> 0 <= c < n1 -> 0 <= j < n2 ->
  nd_items (np_array x) !! Z.to_nat ((i * n1 + c) * n2 + j) = Some (get3 x i c j).
Proof.
  intros Hs Hi Hc Hj. unfold np_array. rewrite Hs. cbn [nd_items].
  destruct (unravel3 n1 n2 i c j Hc Hj) as (H1 & H2 & H3).
  assert (0 <= i * n1 + c < n0 * n1) as Hic by nia.
  assert (0 <= (i * n1 + c) * n2 + j < n0 * n1 * n2) as Hk by nia.
  rewrite list_lookup_fmap, lookup_seqZ_lt by (rewrite Z2Nat.id; lia).
  cbn [fmap option_fmap option_map]. rewrite Z2Nat.id by lia.
  rewrite Z.add_0_l. by rewrite H1, H2, H3.
Qed.

Lemma np_array_shape (x : array3 A) (n0 n1 n2 : Z) :
  shape3 x = (n0, n1, n2) ->
  nd_shape (np_array x) = [n0; n1; n2] /\
  length (nd_items (np_array x)) = Z.to_nat (n0 * n1 * n2).
Proof.
  intros Hs. unfold np_array. rewrite Hs. cbn [nd_shape nd_items].
  by rewrite length_fmap, length_seqZ.
Qed.

Lemma windowed_view_epoch (data : array3 A) (L S e : Z) :
  _windowed_view (epoch_at data e) L S
  = match _windowed_view (epoch_at data 0) L S with
    | inl err => inl err
    | inr v0 => inr (shifted data v0 e)
    end.
Proof.
  unfold _windowed_view, epoch_at, shifted, n_times, n_channels, as_strided,
    expand_dims0, slice_last, n_times, n_channels.
  destruct (strides3 data) as [[s0 s1] s2]. cbn [shape2 strides2 buf2 offset2 fst snd].
  destruct (0 <? S).
  - destruct (negb _); [done|]. by destruct (_ || _).
  - by destruct (S =? 0).
Qed.

Lemma epoch_item (data : array3 A) (L S e : Z) (v : array3 A) (i c j : Z) :
  _windowed_view (epoch_at data e) L S = inr v ->
  get3 v i c j = get3 data e c (i * S + j).
Proof.
  intros Hv. destruct (windowed_view_address _ _ _ _ Hv) as [_ ->].
  unfold get2, get3, epoch_at. destruct (strides3 data) as [[s0 s1] s2].
  cbn [buf2 offset2 strides2 fst snd]. f_equal.
Qed.

Lemma window_epochs_loop_ok (data : array3 A) (wl ws fs : PyNum) (L S : Z)
    (v0 : array3 A) (nums : list Z) :
  to_samples wl fs = ret L -> to_samples ws fs = ret S ->
  _windowed_view (epoch_at data 0) L S = inr v0 ->
  window_epochs_loop data wl ws fs nums
  = inr ((fun e => np_array (shifted data v0 e)) <$> nums).
Proof.
  intros HL HS Hv0. induction nums as [|e nums IH]; [done|].
  rewrite (window_epochs_samples _ _ _ _ L S) by done.
  by rewrite windowed_view_epoch, Hv0, IH.
Qed.

Lemma window_epochs_loop_fails (data : array3 A) (wl ws fs : PyNum) (L S : Z)
    (err : PyError) (e : Z) (nums : list Z) :
  to_samples wl fs = ret L -> to_samples ws fs = ret S ->
  _windowed_view (epoch_at data 0) L S = inl err ->
  window_epochs_loop data wl ws fs (e :: nums) = inl err.
Proof.
  intros HL HS Hv0. rewrite (window_epochs_samples _ _ _ _ L S) by done.
  by rewrite windowed_view_epoch, Hv0.
Qed.
End EpochFacts.

Lemma length_concat_uniform {X : Type} (l : list (list X)) (W : nat) :
  Forall (fun ws => length ws = W) l -> length (concat l) = (length l * W)%nat.
Proof.
  induction 1 as [|ws l Hws _ IH]; [done|].
  cbn. rewrite length_app, IH, Hws. lia.
Qed.

(** X5.  [window_epochs] returns a copy, not a view.  Without epochs it
    returns an empty array and never fails, whatever the lengths are.  With
    epochs it fails exactly as the segmenter fails on the first epoch.
    Otherwise the result has shape (epochs, windows, channels, samples),
    holds that many items of its own, although the windows of an epoch
    overlap in the data, and item [(e, i, c, j)] is the value of
    [data[e, c, i * S + j]]. *)
Theorem window_epochs_per_epoch {A : Type} (data : Nd.array3 A)
    (wl ws fs : PyNum) :
  (Nd.dim0 data <= 0 -> window_epochs data wl ws fs = inr (Nd.NdArray [] [0])) /\
  (forall L S, 0 < Nd.dim0 data -> 0 <= Nd.dim1 data -> 0 <= Nd.dim2 data ->
     to_samples wl fs = ret L -> to_samples ws fs = ret S ->
     match _windowed_view (Nd.epoch_at data 0) L S with
     | inl err => window_epochs data wl ws fs = inl err
     | inr v0 =>
         exists r,
           window_epochs data wl ws fs = inr r /\
           Nd.nd_shape r = [Nd.dim0 data; Nd.dim0 v0; Nd.dim1 v0; Nd.dim2 v0] /\
           Z.of_nat (length (Nd.nd_items r))
           = Nd.dim0 data * (Nd.dim0 v0 * Nd.dim1 v0 * Nd.dim2 v0) /\
           forall e i c j,
             0 <= e < Nd.dim0 data -> 0 <= i < Nd.dim0 v0 ->
             0 <= c < Nd.dim1 v0 -> 0 <= j < Nd.dim2 v0 ->
             Nd.nd_get r [e; i; c; j] = Some (Nd.get3 data e c (i * S + j))
     end).
Proof.
  split.
  { intros HE. unfold window_epochs. by rewrite seqZ_nil by lia. }
  intros L S HE HC HT HL HS.
  destruct (_windowed_view (Nd.epoch_at data 0) L S) as [err|v0] eqn:Hv0.
  { unfold window_epochs. rewrite seqZ_cons by lia.
    by rewrite (window_epochs_loop_fails _ _ _ _ L S err). }
  unfold window_epochs.
  rewrite (window_epochs_loop_ok _ _ _ _ L S v0) by done.
  destruct (Nd.shape3 v0) as [[n0 n1] n2] eqn:Hs.
  assert (forall e, Nd.shape3 (shifted data v0 e) = (n0, n1, n2)) as Hsh by done.
  assert (0 <= n0 /\ 0 <= n1 /\ 0 <= n2) as (Hn0 & Hn1 & Hn2).
  { revert Hv0 Hs. unfold _windowed_view, Nd.as_strided, Nd.epoch_at,
      Nd.expand_dims0, Nd.slice_last, Nd.n_times, Nd.n_channels, Nd.norm_index.
    destruct (Nd.strides3 data) as [[s0 s1] s2]. cbn [Nd.shape2 fst snd].
    destruct (0 <? S).
    - destruct (negb _); [done|].
      destruct (Z.ltb_spec ((Nd.dim2 data - (L - S)) / S) 0); [done|].
      destruct (Z.ltb_spec (Nd.dim1 data) 0); [done|].
      destruct (Z.ltb_spec L 0); [done|]. cbn [orb].
      intros [= <-]. cbn [Nd.shape3]. intros [= <- <- <-]. lia.
    - destruct (S =? 0); [|done]. intros [= <-]. cbn [Nd.shape3].
      intros [= <- <- <-]. destruct (Z.ltb_spec L 0); lia. }
  set (xs := (fun e => Nd.np_array (shifted data v0 e)) <$> seqZ 0 (Nd.dim0 data)).
  assert (Forall (fun x => Nd.nd_shape x = [n0; n1; n2] /\
                           length (Nd.nd_items x) = Z.to_nat (n0 * n1 * n2)) xs) as Hall.
  { apply Forall_fmap, Forall_forall. intros e _. cbn.
    by apply np_array_shape. }
  assert (length xs = Z.to_nat (Nd.dim0 data)) as Hlen
    by (unfold xs; by rewrite length_fmap, length_seqZ).
  destruct xs as [|x xs'] eqn:Hxs; [cbn in Hlen; lia|].
  unfold Nd.np_array_list. rewrite <- Hxs in *.
  assert (Nd.nd_shape x = [n0; n1; n2]) as Hx.
  { rewrite Hxs in Hall. by apply Forall_cons in Hall as [[? _] _]. }
  rewrite (proj2 (forallb_forall _ xs)).
  2:{ intros y Hy%list_elem_of_In. apply bool_decide_eq_true.
      rewrite Forall_forall in Hall. destruct (Hall y Hy) as [-> _]. by rewrite Hx. }
  eexists. split; [reflexivity|]. cbn [Nd.nd_shape Nd.nd_items].
  unfold Nd.dim0, Nd.dim1, Nd.dim2. rewrite Hs. cbn [fst snd].
  fold (Nd.dim0 data).
  assert (Forall (fun ws => length ws = Z.to_nat (n0 * n1 * n2)) (Nd.nd_items <$> xs))
    as Huni.
  { apply Forall_fmap. eapply Forall_impl; [exact Hall|]. by intros y [_ ?]. }
  split; [by rewrite Hlen, Hx, Z2Nat.id by lia|]. split.
  { rewrite (length_concat_uniform _ _ Huni), length_fmap, Hlen. nia. }
  intros e i c j He Hi Hc Hj. unfold Nd.nd_get. cbn [Nd.nd_shape Nd.nd_items].
  rewrite Hlen, Z2Nat.id, Hx by lia. rewrite flat_index4 by done.
  cbn [mbind option_bind].
  assert (0 <= i * n1 + c < n0 * n1) as Hic by nia.
  assert (0 <= (i * n1 + c) * n2 + j < n0 * n1 * n2) as Hk by nia.
  replace (Z.to_nat (((e * n0 + i) * n1 + c) * n2 + j))
    with (Z.to_nat e * Z.to_nat (n0 * n1 * n2) + Z.to_nat ((i * n1 + c) * n2 + j))%nat
    by nia.
  rewrite (concat_uniform_lookup _ _ _ _ Huni) by lia.
  rewrite list_lookup_fmap. unfold xs.
  rewrite list_lookup_fmap, lookup_seqZ_lt by lia.
  cbn [fmap option_fmap option_map mbind option_bind].
  rewrite Z.add_0_l, Z2Nat.id by lia.
  rewrite (np_array_items _ n0 n1 n2) by done. f_equal.
  apply (epoch_item data L S e).
  by rewrite windowed_view_epoch, Hv0.
Qed.

Lemma window_epochs_per_epoch_witness :
  exists r,
    window_epochs (Nd.Array3 (seqZ 0 12) 0 (2, 1, 6) (6, 6, 1))
      (PyFloat (float_lit 4 10)) (PyFloat (float_lit 2 10)) (PyInt 10) = inr r /\
    Nd.nd_shape r = [2; 2; 1; 4] /\
    Nd.nd_items r = Some <$> [0; 1; 2; 3; 2; 3; 4; 5; 6; 7; 8; 9; 8; 9; 10; 11].
Proof.
  pose proof (proj2 (window_epochs_per_epoch (Nd.Array3 (seqZ 0 12) 0 (2, 1, 6) (6, 6, 1))
      (PyFloat (float_lit 4 10)) (PyFloat (float_lit 2 10)) (PyInt 10)) 4 2) as H.
  destruct H as (r & Hr & Hs & _); [done|done|done|by vm_compute|by vm_compute|].
  exists r. split; [exact Hr|]. split; [exact Hs|].
  revert Hr. vm_compute. by intros [= <-].
Defined.
